(** * Gesture-Snake: the game engine and the gesture layer, verified

    A shallow embedding of [config.py], [game.py], [hand_tracker.py] and
    the main loop of [snake_game.py].  Python integers are [Z];
    the snake deque and the position history are lists with the head
    (resp. the oldest sample) first; the object of class [SnakeGame] is a
    record that every method takes and returns.

    What is not Python arithmetic on integers is modelled as follows.
    - [random.randint] reads a tape of raw draws ([list Z]) and maps a
      draw into the requested range; every sequence of in-range values
      is the image of some tape.
    - A method that raises, or whose [while True] loop has not returned
      when the tape is used up, yields [Raise] or [Spin] instead of [Ok].
    - [speed_multiplier] is a float in Python; it is kept as a rational,
      no property below reads it.
    - The high-score file is written best effort and never read back
      after start-up; only the in-memory [high_score] is modelled. *)

From Stdlib Require Import ZArith List Bool Lia QArith.
Import ListNotations.
Open Scope Z_scope.

(** ** Results of fallible, possibly looping methods *)

Inductive exn : Type := ZeroDivisionError | ValueError | IndexError.

Inductive result (A : Type) : Type :=
| Ok (a : A)
| Raise (e : exn)
| Spin.

Arguments Ok {A} a.
Arguments Raise {A} e.
Arguments Spin {A}.

Definition bind {A B : Type} (c : result A) (k : A -> result B) : result B :=
  match c with
  | Ok a => k a
  | Raise e => Raise e
  | Spin => Spin
  end.

Notation "x <- c ;; k" := (bind c (fun x => k))
  (at level 61, c at next level, right associativity).
Notation "' pat <- c ;; k" := (bind c (fun x => match x with pat => k end))
  (at level 61, pat pattern, c at next level, right associativity).

(** ** config.py *)

Record GameConfig : Type := mkGameConfig {
  WINDOW_WIDTH : Z;
  WINDOW_HEIGHT : Z;
  GRID_SIZE : Z;
  FOOD_POINTS : Z;
  GESTURE_SMOOTHING_WINDOW : Z;
  DIRECTION_THRESHOLD : Z
}.

(** The defaults of the dataclass. *)
Definition default_config : GameConfig :=
  {| WINDOW_WIDTH := 800;
     WINDOW_HEIGHT := 600;
     GRID_SIZE := 20;
     FOOD_POINTS := 10;
     GESTURE_SMOOTHING_WINDOW := 5;
     DIRECTION_THRESHOLD := 30 |}.

(** [//] is floor division, as [Z.div]; it raises on a zero divisor. *)
Definition get_grid_dimensions (cfg : GameConfig) : result (Z * Z) :=
  if GRID_SIZE cfg =? 0 then Raise ZeroDivisionError
  else Ok (WINDOW_WIDTH cfg / GRID_SIZE cfg, WINDOW_HEIGHT cfg / GRID_SIZE cfg).

(** ** game.py: enumerations *)

Inductive Direction : Type := UP | DOWN | LEFT | RIGHT.

(** [Direction.value] *)
Definition value (d : Direction) : Z * Z :=
  match d with
  | UP => (0, -1)
  | DOWN => (0, 1)
  | LEFT => (-1, 0)
  | RIGHT => (1, 0)
  end.

Inductive GameState : Type := MENU | PLAYING | PAUSED | GAME_OVER.

Definition GameState_eqb (a b : GameState) : bool :=
  match a, b with
  | MENU, MENU | PLAYING, PLAYING | PAUSED, PAUSED | GAME_OVER, GAME_OVER => true
  | _, _ => false
  end.

Definition Cell : Type := (Z * Z)%type.

(** Equality of two integer pairs, [==] on tuples. *)
Definition Cell_eqb (a b : Cell) : bool :=
  (fst a =? fst b) && (snd a =? snd b).

(** [c in snake] *)
Definition cell_in (c : Cell) (snake : list Cell) : bool :=
  existsb (Cell_eqb c) snake.

(** ** game.py: the game object *)

Record SnakeGame : Type := mkSnakeGame {
  state : GameState;
  score : Z;
  high_score : Z;
  frame_count : Z;
  speed_multiplier : Q;
  snake : list Cell;
  direction : Direction;
  next_direction : Direction;
  food : Cell
}.

(** Assignments to one attribute. *)
Definition set_state (s : GameState) (g : SnakeGame) : SnakeGame :=
  mkSnakeGame s (score g) (high_score g) (frame_count g) (speed_multiplier g)
              (snake g) (direction g) (next_direction g) (food g).

Definition set_score (n : Z) (g : SnakeGame) : SnakeGame :=
  mkSnakeGame (state g) n (high_score g) (frame_count g) (speed_multiplier g)
              (snake g) (direction g) (next_direction g) (food g).

Definition set_high_score (n : Z) (g : SnakeGame) : SnakeGame :=
  mkSnakeGame (state g) (score g) n (frame_count g) (speed_multiplier g)
              (snake g) (direction g) (next_direction g) (food g).

Definition set_frame_count (n : Z) (g : SnakeGame) : SnakeGame :=
  mkSnakeGame (state g) (score g) (high_score g) n (speed_multiplier g)
              (snake g) (direction g) (next_direction g) (food g).

Definition set_speed_multiplier (q : Q) (g : SnakeGame) : SnakeGame :=
  mkSnakeGame (state g) (score g) (high_score g) (frame_count g) q
              (snake g) (direction g) (next_direction g) (food g).

Definition set_snake (s : list Cell) (g : SnakeGame) : SnakeGame :=
  mkSnakeGame (state g) (score g) (high_score g) (frame_count g)
              (speed_multiplier g) s (direction g) (next_direction g) (food g).

Definition set_direction (d : Direction) (g : SnakeGame) : SnakeGame :=
  mkSnakeGame (state g) (score g) (high_score g) (frame_count g)
              (speed_multiplier g) (snake g) d (next_direction g) (food g).

Definition set_next_direction (d : Direction) (g : SnakeGame) : SnakeGame :=
  mkSnakeGame (state g) (score g) (high_score g) (frame_count g)
              (speed_multiplier g) (snake g) (direction g) d (food g).

Definition set_food (c : Cell) (g : SnakeGame) : SnakeGame :=
  mkSnakeGame (state g) (score g) (high_score g) (frame_count g)
              (speed_multiplier g) (snake g) (direction g) (next_direction g) c.

(** ** Randomness *)

(** [random.randint(a, b)]: raises on an empty range, else takes the next
    raw draw of the tape into [a..b]. *)
Definition randint (a b : Z) (rng : list Z) : result (Z * list Z) :=
  if b <? a then Raise ValueError
  else match rng with
       | [] => Spin
       | r :: rest => Ok (a + r mod (b - a + 1), rest)
       end.

(** The [while True] loop of [_spawn_food].  An iteration uses two draws,
    so [fuel] above the length of the tape never runs out first. *)
Fixpoint spawn_loop (fuel : nat) (grid_cols grid_rows : Z)
         (snake : list Cell) (rng : list Z) : result (Cell * list Z) :=
  match fuel with
  | O => Spin
  | S fuel' =>
      '(x, rng1) <- randint 0 (grid_cols - 1) rng ;;
      '(y, rng2) <- randint 0 (grid_rows - 1) rng1 ;;
      if negb (cell_in (x, y) snake) then Ok ((x, y), rng2)
      else spawn_loop fuel' grid_cols grid_rows snake rng2
  end.

Definition _spawn_food (cfg : GameConfig) (snake : list Cell) (rng : list Z)
  : result (Cell * list Z) :=
  '(grid_cols, grid_rows) <- get_grid_dimensions cfg ;;
  spawn_loop (S (length rng)) grid_cols grid_rows snake rng.

(** ** game.py: methods *)

Definition reset_game (cfg : GameConfig) (g : SnakeGame) (rng : list Z)
  : result (SnakeGame * list Z) :=
  '(grid_cols, grid_rows) <- get_grid_dimensions cfg ;;
  let start_x := grid_cols / 2 in
  let start_y := grid_rows / 2 in
  let g := set_snake [(start_x, start_y);
                      (start_x - 1, start_y);
                      (start_x - 2, start_y)] g in
  let g := set_direction RIGHT g in
  let g := set_next_direction RIGHT g in
  '(c, rng') <- _spawn_food cfg (snake g) rng ;;
  let g := set_food c g in
  let g := set_score 0 g in
  let g := set_frame_count 0 g in
  let g := set_speed_multiplier 1%Q g in
  let g := set_state MENU g in
  Ok (g, rng').

(** [__init__], with the loaded high score [h].  [snake] and [food] are
    [None] until [reset_game] assigns them a few lines later; nothing
    reads them in between. *)
Definition init_game (cfg : GameConfig) (h : Z) (rng : list Z)
  : result (SnakeGame * list Z) :=
  reset_game cfg (mkSnakeGame MENU 0 h 0 1%Q [] RIGHT RIGHT (0, 0)) rng.

Definition start_game (g : SnakeGame) : SnakeGame :=
  if GameState_eqb (state g) MENU then set_state PLAYING g else g.

Definition toggle_pause (g : SnakeGame) : SnakeGame :=
  if GameState_eqb (state g) PLAYING then set_state PAUSED g
  else if GameState_eqb (state g) PAUSED then set_state PLAYING g
  else g.

(** Lines 129 to 135 of [update_direction]: the direction chosen for the
    offset [(dx, dy)] of the hand from the head, if any. *)
Definition direction_intent (threshold dx dy : Z) : option Direction :=
  if (Z.abs dx >? threshold) || (Z.abs dy >? threshold) then
    if Z.abs dx >? Z.abs dy then Some (if dx >? 0 then RIGHT else LEFT)
    else Some (if dy >? 0 then DOWN else UP)
  else None.

(** Pixel centre of a grid cell. *)
Definition head_screen (cfg : GameConfig) (head : Cell) : Z * Z :=
  (fst head * GRID_SIZE cfg + GRID_SIZE cfg / 2,
   snd head * GRID_SIZE cfg + GRID_SIZE cfg / 2).

Definition update_direction (cfg : GameConfig) (hand_pos : option (Z * Z))
           (g : SnakeGame) : SnakeGame :=
  match hand_pos, snake g with
  | None, _ => g
  | Some _, [] => g
  | Some hand, head :: _ =>
      if negb (GameState_eqb (state g) PLAYING) then g
      else
        let hs := head_screen cfg head in
        let dx := fst hand - fst hs in
        let dy := snd hand - snd hs in
        match direction_intent (DIRECTION_THRESHOLD cfg) dx dy with
        | Some d => set_next_direction d g
        | None => g
        end
  end.

Definition _update_high_score (g : SnakeGame) : SnakeGame :=
  if score g >? high_score g then set_high_score (score g) g else g.

Definition _increase_speed (g : SnakeGame) : SnakeGame :=
  let snake_length := Z.of_nat (length (snake g)) in
  set_speed_multiplier (1 + inject_Z snake_length * (5 # 100))%Q g.

(** Lines 145 to 147 of [update]: the pending direction is committed
    unless its negation is the committed one. *)
Definition commit_direction (g : SnakeGame) : SnakeGame :=
  if negb (Cell_eqb (fst (value (next_direction g)) * -1,
                     snd (value (next_direction g)) * -1)
                    (value (direction g)))
  then set_direction (next_direction g) g
  else g.

(** Lines 151 to 154. *)
Definition new_head (head : Cell) (d : Direction) : Cell :=
  (fst head + fst (value d), snd head + snd (value d)).

(** Lines 159 and 160. *)
Definition hits_wall (grid_cols grid_rows : Z) (c : Cell) : bool :=
  (fst c <? 0) || (fst c >=? grid_cols) || (snd c <? 0) || (snd c >=? grid_rows).

Definition update (cfg : GameConfig) (g : SnakeGame) (rng : list Z)
  : result (SnakeGame * list Z) :=
  if negb (GameState_eqb (state g) PLAYING) then Ok (g, rng)
  else
    let g := set_frame_count (frame_count g + 1) g in
    let g := commit_direction g in
    match snake g with
    | [] => Raise IndexError
    | head :: _ =>
        let nh := new_head head (direction g) in
        '(grid_cols, grid_rows) <- get_grid_dimensions cfg ;;
        if hits_wall grid_cols grid_rows nh then
          Ok (_update_high_score (set_state GAME_OVER g), rng)
        else if cell_in nh (snake g) then
          Ok (_update_high_score (set_state GAME_OVER g), rng)
        else
          let g := set_snake (nh :: snake g) g in
          if Cell_eqb nh (food g) then
            let g := set_score (score g + FOOD_POINTS cfg) g in
            '(c, rng') <- _spawn_food cfg (snake g) rng ;;
            let g := set_food c g in
            Ok (_increase_speed g, rng')
          else
            Ok (set_snake (removelast (snake g)) g, rng)
    end.

(** ** hand_tracker.py: position history and smoothing *)

(** [deque.append] on a deque built with [maxlen]: the item goes to the
    right end, then the left end is dropped if the bound is exceeded. *)
Definition deque_append {A : Type} (maxlen : Z) (q : list A) (x : A) : list A :=
  let q' := q ++ [x] in
  if maxlen <? Z.of_nat (length q') then tl q' else q'.

Record HandTracker : Type := mkHandTracker {
  position_history : list (Z * Z);
  is_hand_detected : bool;
  last_valid_position : option (Z * Z)
}.

(** [__init__]; [deque(maxlen=n)] refuses a negative [n]. *)
Definition init_tracker (cfg : GameConfig) : result HandTracker :=
  if GESTURE_SMOOTHING_WINDOW cfg <? 0 then Raise ValueError
  else Ok (mkHandTracker [] false None).

(** Lines 80 and 81: the coordinates are clamped to the frame. *)
Definition clamp_to_frame (w h : Z) (p : Z * Z) : Z * Z :=
  (Z.max 0 (Z.min (fst p) (w - 1)), Z.max 0 (Z.min (snd p) (h - 1))).

(** [detect_hand] on a frame of width [w] and height [h]; [tip] is the
    index finger tip in pixels as the landmark model found it, or [None]
    when no hand is in the frame. *)
Definition detect_hand (cfg : GameConfig) (w h : Z) (tip : option (Z * Z))
           (t : HandTracker) : HandTracker * (option (Z * Z) * bool) :=
  match tip with
  | Some p =>
      let position := clamp_to_frame w h p in
      (mkHandTracker
         (deque_append (GESTURE_SMOOTHING_WINDOW cfg) (position_history t) position)
         true (Some position),
       (Some position, true))
  | None =>
      (mkHandTracker (position_history t) false (last_valid_position t),
       (None, false))
  end.

(** [sum(...)] over a list of integers. *)
Definition sum (l : list Z) : Z := fold_right Z.add 0 l.

(** [get_smoothed_position]: [int(s / n)] truncates the quotient towards
    zero, which is [Z.quot] on the exact quotient. *)
Definition get_smoothed_position (t : HandTracker) : option (Z * Z) :=
  match position_history t with
  | [] => None
  | positions =>
      let n := Z.of_nat (length positions) in
      Some (Z.quot (sum (map fst positions)) n, Z.quot (sum (map snd positions)) n)
  end.

Definition reset_history (t : HandTracker) : HandTracker :=
  mkHandTracker [] (is_hand_detected t) (last_valid_position t).

(** One [detect_hand] per frame. *)
Definition feed (cfg : GameConfig) (w h : Z) (tips : list (option (Z * Z)))
           (t : HandTracker) : HandTracker :=
  fold_left (fun t tip => fst (detect_hand cfg w h tip t)) tips t.

(** ** snake_game.py: the pause gesture *)

Record SnakeGameApp : Type := mkSnakeGameApp {
  game : SnakeGame;
  hand_tracker : HandTracker;
  running : bool;
  pause_gesture_cooldown : Z
}.

(** Lines 51 to 57 of [run]; the boolean tells whether [toggle_pause]
    was called. *)
Definition handle_pause_gesture (is_fist : bool) (app : SnakeGameApp)
  : SnakeGameApp * bool :=
  let '(app, toggled) :=
    if is_fist && (pause_gesture_cooldown app <=? 0) then
      (mkSnakeGameApp (toggle_pause (game app)) (hand_tracker app) (running app) 30,
       true)
    else (app, false) in
  let app :=
    if pause_gesture_cooldown app >? 0 then
      mkSnakeGameApp (game app) (hand_tracker app) (running app)
                     (pause_gesture_cooldown app - 1)
    else app in
  (app, toggled).

(** The pause handling of consecutive frames, numbered from [tick]; the
    list holds the numbers of the frames on which [toggle_pause] was
    called. *)
Fixpoint pause_run (tick : nat) (fists : list bool) (app : SnakeGameApp)
  : SnakeGameApp * list nat :=
  match fists with
  | [] => (app, [])
  | is_fist :: rest =>
      let '(app1, toggled) := handle_pause_gesture is_fist app in
      let '(app2, ticks) := pause_run (S tick) rest app1 in
      (app2, if toggled then tick :: ticks else ticks)
  end.

Definition toggle_ticks (fists : list bool) (app : SnakeGameApp) : list nat :=
  snd (pause_run 1 fists app).

(** ** Sequences of calls on the game *)

Inductive command : Type :=
| Start
| TogglePause
| UpdateDirection (hand_pos : option (Z * Z))
| Update.

Definition exec (cfg : GameConfig) (c : command) (g : SnakeGame) (rng : list Z)
  : result (SnakeGame * list Z) :=
  match c with
  | Start => Ok (start_game g, rng)
  | TogglePause => Ok (toggle_pause g, rng)
  | UpdateDirection hand_pos => Ok (update_direction cfg hand_pos g, rng)
  | Update => update cfg g rng
  end.

Fixpoint exec_all (cfg : GameConfig) (cs : list command) (g : SnakeGame)
         (rng : list Z) : result (SnakeGame * list Z) :=
  match cs with
  | [] => Ok (g, rng)
  | c :: cs' => '(g', rng') <- exec cfg c g rng ;; exec_all cfg cs' g' rng'
  end.

(** [n] calls of [update] in a row. *)
Definition update_n (cfg : GameConfig) (n : nat) (g : SnakeGame) (rng : list Z)
  : result (SnakeGame * list Z) :=
  exec_all cfg (repeat Update n) g rng.

(** States a game can be in: after a [reset_game] that returned, and
    after any call that returned from such a state, whatever the random
    draws were. *)
Inductive reachable (cfg : GameConfig) : SnakeGame -> Prop :=
| reachable_reset g0 rng g rng' :
    reset_game cfg g0 rng = Ok (g, rng') -> reachable cfg g
| reachable_exec g c rng g' rng' :
    reachable cfg g -> exec cfg c g rng = Ok (g', rng') -> reachable cfg g'.

(** The cells the loop of [_spawn_food] tries, in order. *)
Fixpoint draw_cells (grid_cols grid_rows : Z) (rng : list Z) : list Cell :=
  match rng with
  | rx :: ry :: rest =>
      (rx mod grid_cols, ry mod grid_rows) :: draw_cells grid_cols grid_rows rest
  | _ => []
  end.

Definition opposite (d : Direction) : Direction :=
  match d with
  | UP => DOWN
  | DOWN => UP
  | LEFT => RIGHT
  | RIGHT => LEFT
  end.

(** ** Vocabulary of the statements *)

(** The game at the point where [update] looks at the new head. *)
Definition advanced (g : SnakeGame) : SnakeGame :=
  commit_direction (set_frame_count (frame_count g + 1) g).

(** The cell the head moves to. *)
Definition target (g : SnakeGame) (head : Cell) : Cell :=
  new_head head (direction (advanced g)).

Inductive update_case (cfg : GameConfig) (g : SnakeGame) (rng : list Z)
  : SnakeGame -> list Z -> Prop :=
| case_idle :
    state g <> PLAYING -> update_case cfg g rng g rng
| case_collision head tl cols rows :
    state g = PLAYING ->
    snake g = head :: tl ->
    get_grid_dimensions cfg = Ok (cols, rows) ->
    hits_wall cols rows (target g head) = true \/ In (target g head) (snake g) ->
    update_case cfg g rng (_update_high_score (set_state GAME_OVER (advanced g))) rng
| case_eat head tl cols rows c rng' :
    state g = PLAYING ->
    snake g = head :: tl ->
    get_grid_dimensions cfg = Ok (cols, rows) ->
    hits_wall cols rows (target g head) = false ->
    ~ In (target g head) (snake g) ->
    target g head = food g ->
    _spawn_food cfg (target g head :: snake g) rng = Ok (c, rng') ->
    update_case cfg g rng
      (_increase_speed
         (set_food c
            (set_score (score g + FOOD_POINTS cfg)
               (set_snake (target g head :: snake g) (advanced g)))))
      rng'
| case_move head tl cols rows :
    state g = PLAYING ->
    snake g = head :: tl ->
    get_grid_dimensions cfg = Ok (cols, rows) ->
    hits_wall cols rows (target g head) = false ->
    ~ In (target g head) (snake g) ->
    target g head <> food g ->
    update_case cfg g rng
      (set_snake (removelast (target g head :: snake g)) (advanced g)) rng.

(** Whether this call of [update] moves the head onto the food. *)
Definition eats_food (cfg : GameConfig) (g : SnakeGame) : bool :=
  match snake g, get_grid_dimensions cfg with
  | head :: _, Ok (cols, rows) =>
      GameState_eqb (state g) PLAYING
      && negb (hits_wall cols rows (target g head))
      && negb (cell_in (target g head) (snake g))
      && Cell_eqb (target g head) (food g)
  | _, _ => false
  end.

(** The tape holds a draw that [_spawn_food] accepts for the snake [s]. *)
Definition offers_free_cell (cfg : GameConfig) (s : list Cell) (rng : list Z)
  : Prop :=
  exists cols rows c,
    get_grid_dimensions cfg = Ok (cols, rows) /\ 0 < cols /\ 0 < rows /\
    In c (draw_cells cols rows rng) /\ ~ In c s.

(** The snake [reset_game] lays out on a grid of the given size. *)
Definition start_snake (cols rows : Z) : list Cell :=
  [(cols / 2, rows / 2); (cols / 2 - 1, rows / 2); (cols / 2 - 2, rows / 2)].

(** The high score during a session that began with high score [H]. *)
Definition session_high_score (H : Z) (g : SnakeGame) : Prop :=
  (state g = GAME_OVER -> high_score g = Z.max (score g) H) /\
  (state g <> GAME_OVER -> high_score g = H).

(** The derivation of the intent in the words of the design: nothing
    within the threshold, else the dominant axis, the vertical one on a
    tie. *)
Definition spec_intent (threshold dx dy : Z) : option Direction :=
  if Z.max (Z.abs dx) (Z.abs dy) <=? threshold then None
  else if Z.abs dy <? Z.abs dx then Some (if 0 <? dx then RIGHT else LEFT)
  else Some (if 0 <? dy then DOWN else UP).

(** The last [capacity] items of a list, all of it if it is shorter. *)
Definition recent {A : Type} (capacity : nat) (l : list A) : list A :=
  skipn (length l - capacity) l.

(** The positions a run of frames pushes: one per frame with a hand. *)
Definition pushed (w h : Z) (tips : list (option (Z * Z))) : list (Z * Z) :=
  flat_map (fun tip => match tip with
                       | Some p => [clamp_to_frame w h p]
                       | None => []
                       end) tips.

Definition fresh_tracker : HandTracker := mkHandTracker [] false None.

(** Draws that land off row [y]. *)
Definition off_row (y : Z) (c : Cell) : bool := negb (snd c =? y).

Definition off_row_draws (cols rows : Z) (rng : list Z) : nat :=
  length (filter (off_row (rows / 2)) (draw_cells cols rows rng)).

(** The game [k] cells into the run: PLAYING, heading right, the head on
    the start row at column [cols / 2 + k], the body behind it. *)
Definition straight (cols rows : Z) (k : Z) (g : SnakeGame) : Prop :=
  state g = PLAYING /\ direction g = RIGHT /\ next_direction g = RIGHT /\
  (exists tl, snake g = (cols / 2 + k, rows / 2) :: tl) /\
  (forall c, In c (snake g) -> snd c = rows / 2 /\ fst c <= cols / 2 + k).

(** ** A game on the default grid

    The default grid is 40 by 30.  With the draws 21, 15, 3, 4 the first
    food lands right in front of the head and the second at (3, 4). *)

Definition blank_game : SnakeGame :=
  mkSnakeGame MENU 0 0 0 1%Q [] RIGHT RIGHT (0, 0).

Definition demo_draws : list Z := [21; 15; 3; 4].

(** After [reset_game]. *)
Definition demo_menu : SnakeGame :=
  mkSnakeGame MENU 0 0 0 1%Q [(20, 15); (19, 15); (18, 15)] RIGHT RIGHT (21, 15).

(** After [start_game]. *)
Definition demo_playing : SnakeGame :=
  mkSnakeGame PLAYING 0 0 0 1%Q [(20, 15); (19, 15); (18, 15)] RIGHT RIGHT
              (21, 15).

(** After one [update]: the food is eaten. *)
Definition demo_fed : SnakeGame :=
  mkSnakeGame PLAYING 10 0 1 (1 + inject_Z 4 * (5 # 100))%Q
              [(21, 15); (20, 15); (19, 15); (18, 15)] RIGHT RIGHT (3, 4).

(** After twenty: the head has left the grid on the right. *)
Definition demo_over : SnakeGame :=
  mkSnakeGame GAME_OVER 10 10 20 (1 + inject_Z 4 * (5 # 100))%Q
              [(39, 15); (38, 15); (37, 15); (36, 15)] RIGHT RIGHT (3, 4).

Definition demo_app : SnakeGameApp :=
  mkSnakeGameApp demo_playing fresh_tracker true 0.

(** ** config.py: cell rectangles *)

(** [get_cell_rect]: left, top, width and height, in pixels. *)
Definition get_cell_rect (cfg : GameConfig) (col row : Z) : Z * Z * Z * Z :=
  let x := col * GRID_SIZE cfg in
  let y := row * GRID_SIZE cfg in
  (x, y, GRID_SIZE cfg - 1, GRID_SIZE cfg - 1).

(** ** snake_game.py: keyboard and main loop *)

(** [GameState.value] *)
Definition GameState_value (s : GameState) : Z :=
  match s with
  | MENU => 0
  | PLAYING => 1
  | PAUSED => 2
  | GAME_OVER => 3
  end.

Definition set_game (g : SnakeGame) (app : SnakeGameApp) : SnakeGameApp :=
  mkSnakeGameApp g (hand_tracker app) (running app) (pause_gesture_cooldown app).

Definition set_hand_tracker (t : HandTracker) (app : SnakeGameApp)
  : SnakeGameApp :=
  mkSnakeGameApp (game app) t (running app) (pause_gesture_cooldown app).

Definition set_running (b : bool) (app : SnakeGameApp) : SnakeGameApp :=
  mkSnakeGameApp (game app) (hand_tracker app) b (pause_gesture_cooldown app).

(** [_handle_keyboard_input]; [waitKey] is what [cv2.waitKey(1)] returned,
    -1 when no key is down.  [ord('q')] is 113 and [ord(' ')] is 32. *)
Definition _handle_keyboard_input (cfg : GameConfig) (waitKey : Z)
           (app : SnakeGameApp) (rng : list Z)
  : result (SnakeGameApp * list Z) :=
  let key := Z.land waitKey 255 in
  if key =? 113 then Ok (set_running false app, rng)
  else if key =? 32 then
    if GameState_value (state (game app)) =? 0 then
      Ok (set_game (start_game (game app)) app, rng)
    else if GameState_value (state (game app)) =? 3 then
      '(g, rng') <- reset_game cfg (game app) rng ;;
      Ok (set_game (start_game g) app, rng')
    else Ok (app, rng)
  else Ok (app, rng).

(** What one pass of the loop of [run] gets from outside: whether the
    camera gave a frame, the size of the frame, the index finger tip the
    landmark model found in it, the verdict of [detect_fist_gesture],
    and the key. *)
Record Frame : Type := mkFrame {
  ret : bool;
  frame_w : Z;
  frame_h : Z;
  index_tip : option (Z * Z);
  is_fist : bool;
  waitKey : Z
}.

(** The body of the loop of [run] from line 41 on.  Drawing and display
    change nothing in the application. *)
Definition loop_body (cfg : GameConfig) (fr : Frame) (app : SnakeGameApp)
           (rng : list Z) : result (SnakeGameApp * list Z) :=
  let '(tracker, _) :=
    detect_hand cfg (frame_w fr) (frame_h fr) (index_tip fr) (hand_tracker app) in
  let app := set_hand_tracker tracker app in
  let smoothed_pos := get_smoothed_position (hand_tracker app) in
  let '(app, _) := handle_pause_gesture (is_fist fr) app in
  let app :=
    match smoothed_pos with
    | Some _ => set_game (update_direction cfg smoothed_pos (game app)) app
    | None => app
    end in
  '(g, rng) <- update cfg (game app) rng ;;
  let app := set_game g app in
  _handle_keyboard_input cfg (waitKey fr) app rng.

(** Why the loop of [run] was left, or [Pending] when the frames given
    are used up with the loop still going. *)
Inductive stop : Type :=
| Quit
| ReadFailed
| Crashed (e : exn)
| Hung
| Pending.

(** The loop of [run] over the frames the camera delivers.  An exception
    in the body is caught outside the loop, which ends it; the
    application returned is the one the last complete pass left. *)
Fixpoint run (cfg : GameConfig) (frames : list Frame) (app : SnakeGameApp)
         (rng : list Z) : SnakeGameApp * stop :=
  match frames with
  | [] => (app, if running app then Pending else Quit)
  | fr :: rest =>
      if negb (running app) then (app, Quit)
      else if negb (ret fr) then (app, ReadFailed)
      else match loop_body cfg fr app rng with
           | Ok (app', rng') => run cfg rest app' rng'
           | Raise e => (app, Crashed e)
           | Spin => (app, Hung)
           end
  end.

(** ** game.py: what is drawn of the game *)

(** The colour attributes of the configuration that the game elements
    are drawn in. *)
Inductive Color : Type := COLOR_SNAKE | COLOR_FOOD | COLOR_HEAD.

(** The [pygame.Rect] of a cell in [_draw_snake] and [_draw_food]: one
    pixel in from the cell on every side. *)
Definition element_rect (cfg : GameConfig) (c : Cell) : Z * Z * Z * Z :=
  let x := fst c * GRID_SIZE cfg in
  let y := snd c * GRID_SIZE cfg in
  (x + 1, y + 1, GRID_SIZE cfg - 2, GRID_SIZE cfg - 2).

(** The loop of [_draw_snake] from index [i] on: one [pygame.draw.rect]
    per segment, with its colour. *)
Fixpoint draw_segments (cfg : GameConfig) (i : nat) (segments : list Cell)
  : list (Color * (Z * Z * Z * Z)) :=
  match segments with
  | [] => []
  | segment :: rest =>
      ((if Nat.eqb i 0 then COLOR_HEAD else COLOR_SNAKE), element_rect cfg segment)
        :: draw_segments cfg (S i) rest
  end.

Definition _draw_snake (cfg : GameConfig) (g : SnakeGame)
  : list (Color * (Z * Z * Z * Z)) :=
  draw_segments cfg 0 (snake g).

Definition _draw_food (cfg : GameConfig) (g : SnakeGame)
  : list (Color * (Z * Z * Z * Z)) :=
  [(COLOR_FOOD, element_rect cfg (food g))].

(** Lines 195 to 197 of [draw]: the rectangles of the game elements, in
    the order they are painted. *)
Definition draw_game_elements (cfg : GameConfig) (g : SnakeGame)
  : list (Color * (Z * Z * Z * Z)) :=
  if negb (GameState_eqb (state g) MENU) then _draw_snake cfg g ++ _draw_food cfg g
  else [].

(** ** More vocabulary *)

Definition in_grid (cols rows : Z) (c : Cell) : Prop :=
  0 <= fst c < cols /\ 0 <= snd c < rows.

(** Two cells one step apart: the first is the second moved by a
    direction. *)
Definition adjacent (a b : Cell) : Prop :=
  exists d, a = new_head b d.

(** Every cell is one step from the next. *)
Fixpoint connected (s : list Cell) : Prop :=
  match s with
  | a :: (b :: _) as rest => adjacent a b /\ connected rest
  | _ => True
  end.

(** A rectangle [(x, y, w, h)] lies in a window of the given size. *)
Definition rect_in_window (W H : Z) (r : Z * Z * Z * Z) : Prop :=
  let '(x, y, w, h) := r in 0 <= x /\ x + w <= W /\ 0 <= y /\ y + h <= H.

(** The pixel [(px, py)] is covered by the rectangle. *)
Definition rect_covers (r : Z * Z * Z * Z) (px py : Z) : Prop :=
  let '(x, y, w, h) := r in x <= px < x + w /\ y <= py < y + h.

(** The transitions of the game state, each with the call that makes it. *)
Inductive transition : command -> GameState -> GameState -> Prop :=
| t_stay c s : transition c s s
| t_start : transition Start MENU PLAYING
| t_pause : transition TogglePause PLAYING PAUSED
| t_resume : transition TogglePause PAUSED PLAYING
| t_die : transition Update PLAYING GAME_OVER.

(** All positions of a list within the frame. *)
Definition in_frame (w h : Z) (p : Z * Z) : Prop :=
  0 <= fst p <= Z.max 0 (w - 1) /\ 0 <= snd p <= Z.max 0 (h - 1).

(** Frames sorted by number, any two at least [gap] apart. *)
Fixpoint spaced (gap : nat) (ticks : list nat) : Prop :=
  match ticks with
  | a :: (b :: _) as rest => (a + gap <= b)%nat /\ spaced gap rest
  | _ => True
  end.

(** The intent [update_direction] records for a hand position, given
    the snake and the state of the game. *)
Definition recorded_intent (cfg : GameConfig) (hand_pos : option (Z * Z))
           (s : list Cell) (st : GameState) : option Direction :=
  match hand_pos, s with
  | Some hand, head :: _ =>
      if GameState_eqb st PLAYING then
        direction_intent (DIRECTION_THRESHOLD cfg)
                         (fst hand - fst (head_screen cfg head))
                         (snd hand - snd (head_screen cfg head))
      else None
  | _, _ => None
  end.

(** ** More games and frames to try things on *)

(** Nineteen updates after the start: the head is on the last column. *)
Definition demo_edge : SnakeGame :=
  mkSnakeGame PLAYING 10 0 19 (1 + inject_Z 4 * (5 # 100))%Q
              [(39, 15); (38, 15); (37, 15); (36, 15)] RIGHT RIGHT (3, 4).

(** [demo_fed] one update later, with UP pending. *)
Definition demo_turned : SnakeGame :=
  mkSnakeGame PLAYING 10 0 2 (1 + inject_Z 4 * (5 # 100))%Q
              [(21, 14); (21, 15); (20, 15); (19, 15)] UP UP (3, 4).

(** A grid of two cells. *)
Definition tiny_config : GameConfig :=
  {| WINDOW_WIDTH := 2;
     WINDOW_HEIGHT := 1;
     GRID_SIZE := 1;
     FOOD_POINTS := 10;
     GESTURE_SMOOTHING_WINDOW := 5;
     DIRECTION_THRESHOLD := 30 |}.

(** A frame with a fist and no key down, and one with the key q. *)
Definition demo_frame : Frame := mkFrame true 640 480 (Some (100, 100)) true (-1).

Definition quit_frame : Frame := mkFrame true 640 480 None false 113.

Definition menu_app : SnakeGameApp :=
  mkSnakeGameApp demo_menu fresh_tracker true 0.

Definition busy_tracker : HandTracker :=
  mkHandTracker [(1, 1); (2, 2); (3, 3); (4, 4); (5, 5)] true (Some (5, 5)).

(** A snake of four cells about to enter the cell of its own tail. *)
Definition demo_loop : SnakeGame :=
  mkSnakeGame PLAYING 10 0 3 (1 + inject_Z 4 * (5 # 100))%Q
              [(20, 14); (21, 14); (21, 15); (20, 15)] LEFT DOWN (3, 4).

(** The application with its game over, and one with its game paused. *)
Definition over_app : SnakeGameApp :=
  mkSnakeGameApp demo_over fresh_tracker true 0.

Definition paused_app : SnakeGameApp :=
  mkSnakeGameApp (set_state PAUSED demo_fed) fresh_tracker true 0.

(** A snake of six cells about to enter its own fourth cell. *)
Definition demo_coil : SnakeGame :=
  mkSnakeGame PLAYING 30 0 9 (1 + inject_Z 6 * (5 # 100))%Q
              [(20, 14); (21, 14); (21, 15); (20, 15); (19, 15); (19, 14)]
              LEFT DOWN (3, 4).

(** * Properties *)

(** ** Booleans of the code and their meaning *)

Lemma GameState_eqb_eq (a b : GameState) : GameState_eqb a b = true <-> a = b.
Proof. destruct a, b; simpl; split; intro H; congruence. Qed.

Lemma GameState_eqb_refl (a : GameState) : GameState_eqb a a = true.
Proof. now destruct a. Qed.

Lemma GameState_eqb_neq (a b : GameState) : GameState_eqb a b = false <-> a <> b.
Proof.
  rewrite <- GameState_eqb_eq. destruct (GameState_eqb a b); split; congruence.
Qed.

Lemma Cell_eqb_eq (a b : Cell) : Cell_eqb a b = true <-> a = b.
Proof.
  destruct a as [ax ay], b as [bx b_y]. unfold Cell_eqb. simpl.
  rewrite andb_true_iff, !Z.eqb_eq. split.
  - intros [-> ->]. reflexivity.
  - intro H. inversion H. auto.
Qed.

Lemma Cell_eqb_neq (a b : Cell) : Cell_eqb a b = false <-> a <> b.
Proof.
  rewrite <- Cell_eqb_eq. destruct (Cell_eqb a b); split; congruence.
Qed.

Lemma cell_in_In (c : Cell) (s : list Cell) : cell_in c s = true <-> In c s.
Proof.
  unfold cell_in. rewrite existsb_exists. split.
  - intros [x [Hx He]]. apply Cell_eqb_eq in He. now subst.
  - intro H. exists c. split; [assumption | now apply Cell_eqb_eq].
Qed.

Lemma cell_in_not_In (c : Cell) (s : list Cell) : cell_in c s = false <-> ~ In c s.
Proof.
  rewrite <- cell_in_In. destruct (cell_in c s); split; congruence.
Qed.

(** ** Inversion of [bind] *)

Lemma bind_Ok {A B : Type} (c : result A) (k : A -> result B) (b : B) :
  bind c k = Ok b -> exists a, c = Ok a /\ k a = Ok b.
Proof. destruct c; simpl; intro H; try discriminate. now exists a. Qed.

Ltac inv_bind H :=
  let a := fresh "a" in
  let Ha := fresh "Hc" in
  apply bind_Ok in H; destruct H as [a [Ha H]].

(** ** The food loop *)

Lemma randint_zero (n : Z) (rng : list Z) :
  randint 0 (n - 1) rng =
  if n <=? 0 then Raise ValueError
  else match rng with [] => Spin | r :: rest => Ok (r mod n, rest) end.
Proof.
  unfold randint.
  destruct (Z.ltb_spec (n - 1) 0), (Z.leb_spec n 0); try lia; try reflexivity.
  destruct rng; [reflexivity |]. do 2 f_equal. simpl. f_equal. lia.
Qed.

(** What the loop returns is off the snake. *)
Lemma spawn_loop_free fuel cols rows s rng c rng' :
  spawn_loop fuel cols rows s rng = Ok (c, rng') -> ~ In c s.
Proof.
  revert rng. induction fuel as [| fuel IH]; intros rng H; simpl in H.
  - discriminate.
  - inv_bind H. destruct a as [x rng1]. inv_bind H. destruct a as [y rng2].
    destruct (cell_in (x, y) s) eqn:E; simpl in H.
    + eapply IH; eassumption.
    + inversion H; subst. now apply cell_in_not_In.
Qed.

Lemma _spawn_food_free cfg s rng c rng' :
  _spawn_food cfg s rng = Ok (c, rng') -> ~ In c s.
Proof.
  unfold _spawn_food. intro H. inv_bind H. destruct a as [cols rows].
  eapply spawn_loop_free; eassumption.
Qed.

(** If cells accepted by [p] are all off the snake and the tape offers
    one, the loop returns, and it uses up at most one of them. *)
Lemma spawn_loop_supply (p : Cell -> bool) fuel cols rows s rng :
  (forall c, p c = true -> ~ In c s) ->
  0 < cols -> 0 < rows ->
  (length rng < fuel)%nat ->
  (1 <= length (filter p (draw_cells cols rows rng)))%nat ->
  exists c rng',
    spawn_loop fuel cols rows s rng = Ok (c, rng') /\
    (length (filter p (draw_cells cols rows rng))
     <= S (length (filter p (draw_cells cols rows rng'))))%nat.
Proof.
  intros Hp Hc Hr. revert rng.
  induction fuel as [| fuel IH]; intros rng Hlen Hsup; [lia |].
  destruct rng as [| rx [| ry rest]]; simpl in Hsup; try lia.
  cbn [spawn_loop]. rewrite randint_zero.
  destruct (Z.leb_spec cols 0); [lia |]. cbn [bind].
  rewrite randint_zero. destruct (Z.leb_spec rows 0); [lia |]. cbn [bind].
  destruct (cell_in (rx mod cols, ry mod rows) s) eqn:E; cbn [negb].
  - assert (Hpf : p (rx mod cols, ry mod rows) = false).
    { destruct (p (rx mod cols, ry mod rows)) eqn:Ep; [| reflexivity].
      apply Hp in Ep. apply cell_in_In in E. contradiction. }
    cbn [draw_cells filter] in *. rewrite Hpf in *.
    apply IH; [simpl in Hlen; lia | assumption].
  - exists (rx mod cols, ry mod rows), rest. split; [reflexivity |].
    cbn [draw_cells filter].
    destruct (p (rx mod cols, ry mod rows)); simpl; lia.
Qed.

Lemma _spawn_food_supply (p : Cell -> bool) cfg cols rows s rng :
  get_grid_dimensions cfg = Ok (cols, rows) ->
  (forall c, p c = true -> ~ In c s) ->
  0 < cols -> 0 < rows ->
  (1 <= length (filter p (draw_cells cols rows rng)))%nat ->
  exists c rng',
    _spawn_food cfg s rng = Ok (c, rng') /\
    (length (filter p (draw_cells cols rows rng))
     <= S (length (filter p (draw_cells cols rows rng'))))%nat.
Proof.
  intros Hd Hp Hc Hr Hs. unfold _spawn_food. rewrite Hd. cbn [bind].
  apply spawn_loop_supply; auto.
Qed.

(** The loop returns as soon as one of the cells it will try is free. *)
Lemma _spawn_food_returns cfg cols rows s rng :
  get_grid_dimensions cfg = Ok (cols, rows) ->
  0 < cols -> 0 < rows ->
  (exists c, In c (draw_cells cols rows rng) /\ ~ In c s) ->
  exists c rng', _spawn_food cfg s rng = Ok (c, rng').
Proof.
  intros Hd Hc Hr [c [Hin Hfree]].
  destruct (_spawn_food_supply (fun c => negb (cell_in c s)) cfg cols rows s rng)
    as [c' [rng' [H _]]]; auto.
  - intros c0 H0. apply negb_true_iff in H0. now apply cell_in_not_In.
  - assert (Hf : In c (filter (fun c => negb (cell_in c s)) (draw_cells cols rows rng))).
    { apply filter_In. split; [assumption |].
      apply negb_true_iff. now apply cell_in_not_In. }
    destruct (filter _ _); [contradiction | simpl; lia].
  - eauto.
Qed.

(** ** The cases of [update] *)

Lemma snake_advanced g : snake (advanced g) = snake g.
Proof. unfold advanced, commit_direction. now destruct (negb _). Qed.

Lemma food_advanced g : food (advanced g) = food g.
Proof. unfold advanced, commit_direction. now destruct (negb _). Qed.

Lemma score_advanced g : score (advanced g) = score g.
Proof. unfold advanced, commit_direction. now destruct (negb _). Qed.

Lemma high_score_advanced g : high_score (advanced g) = high_score g.
Proof. unfold advanced, commit_direction. now destruct (negb _). Qed.

Lemma state_advanced g : state (advanced g) = state g.
Proof. unfold advanced, commit_direction. now destruct (negb _). Qed.

Lemma next_direction_advanced g : next_direction (advanced g) = next_direction g.
Proof. unfold advanced, commit_direction. now destruct (negb _). Qed.

Lemma update_cases cfg g rng g' rng' :
  update cfg g rng = Ok (g', rng') -> update_case cfg g rng g' rng'.
Proof.
  unfold update. intro H.
  destruct (GameState_eqb (state g) PLAYING) eqn:Es; cbn [negb] in H.
  2:{ inversion H; subst. constructor. now apply GameState_eqb_neq. }
  apply GameState_eqb_eq in Es.
  fold (advanced g) in H.
  destruct (snake (advanced g)) as [| head tl] eqn:Esn; [discriminate |].
  pose proof (snake_advanced g) as Hsn. rewrite Esn in Hsn. symmetry in Hsn.
  inv_bind H. destruct a as [cols rows].
  fold (target g head) in H.
  destruct (hits_wall cols rows (target g head)) eqn:Ew.
  { inversion H; subst. eapply case_collision; eauto. }
  destruct (cell_in (target g head) (head :: tl)) eqn:Ei.
  { inversion H; subst. eapply case_collision; eauto.
    right. rewrite Hsn. now apply cell_in_In. }
  apply cell_in_not_In in Ei. rewrite <- Hsn in Ei.
  cbn [set_snake food snake score] in H.
  rewrite food_advanced in H.
  destruct (Cell_eqb (target g head) (food g)) eqn:Ef.
  - apply Cell_eqb_eq in Ef.
    inv_bind H. destruct a as [c rng1]. inversion H; subst g' rng'.
    rewrite <- Hsn in Hc0.
    replace (score (advanced g)) with (score g) by (symmetry; apply score_advanced).
    pose proof (case_eat cfg g rng head tl cols rows c rng1 Es Hsn Hc Ew Ei Ef Hc0) as K.
    unfold set_score, set_snake in *. cbn in *.
    rewrite Hsn in K. exact K.
  - apply Cell_eqb_neq in Ef. inversion H; subst g' rng'.
    pose proof (case_move cfg g rng head tl cols rows Es Hsn Hc Ew Ei Ef) as K.
    unfold set_snake in *. cbn in *.
    rewrite Hsn in K. exact K.
Qed.

Lemma update_case_sound cfg g rng g' rng' :
  update_case cfg g rng g' rng' -> update cfg g rng = Ok (g', rng').
Proof.
  intro H. unfold update. fold (advanced g).
  destruct H as [Hs | head tl cols rows Hs Hsn Hd Hcol
                 | head tl cols rows c rng' Hs Hsn Hd Hw Hi Hf Hsp
                 | head tl cols rows Hs Hsn Hd Hw Hi Hf].
  - apply GameState_eqb_neq in Hs. now rewrite Hs.
  - rewrite Hs. cbn [GameState_eqb negb]. rewrite snake_advanced, Hsn, Hd.
    cbn [bind]. fold (target g head).
    destruct (hits_wall cols rows (target g head)) eqn:Ew; [reflexivity |].
    destruct Hcol as [Hcol | Hcol]; [discriminate |].
    rewrite Hsn in Hcol. apply cell_in_In in Hcol. now rewrite Hcol.
  - rewrite Hs. cbn [GameState_eqb negb]. rewrite snake_advanced, Hsn, Hd.
    cbn [bind]. fold (target g head). rewrite Hw.
    rewrite Hsn in Hi. apply cell_in_not_In in Hi. rewrite Hi.
    cbn [set_snake food snake score]. rewrite food_advanced.
    apply Cell_eqb_eq in Hf. rewrite Hf.
    rewrite Hsn in Hsp. rewrite score_advanced.
    change (snake (set_score (score g + FOOD_POINTS cfg)
                     (set_snake (target g head :: head :: tl) (advanced g))))
      with (target g head :: head :: tl).
    rewrite Hsp. reflexivity.
  - rewrite Hs. cbn [GameState_eqb negb]. rewrite snake_advanced, Hsn, Hd.
    cbn [bind]. fold (target g head). rewrite Hw.
    rewrite Hsn in Hi. apply cell_in_not_In in Hi. rewrite Hi.
    cbn [set_snake food snake score]. rewrite food_advanced.
    apply Cell_eqb_neq in Hf. rewrite Hf. reflexivity.
Qed.

Lemma offers_free_cell_returns cfg s rng :
  offers_free_cell cfg s rng -> exists c rng', _spawn_food cfg s rng = Ok (c, rng').
Proof.
  intros [cols [rows [c [Hd [Hc [Hr [Hin Hfree]]]]]]].
  eapply _spawn_food_returns; eauto.
Qed.

(** [update] returns on a game with a snake and a grid, provided the
    food loop gets a free cell when it is entered. *)
Lemma update_returns cfg g rng head tl :
  snake g = head :: tl ->
  GRID_SIZE cfg <> 0 ->
  (eats_food cfg g = true ->
   offers_free_cell cfg (target g head :: snake g) rng) ->
  exists g' rng', update cfg g rng = Ok (g', rng').
Proof.
  intros Hsn Hg Hfree.
  destruct (get_grid_dimensions cfg) as [[cols rows] | e |] eqn:Hd;
    try (unfold get_grid_dimensions in Hd;
         destruct (Z.eqb_spec (GRID_SIZE cfg) 0); [contradiction | discriminate]).
  destruct (GameState_eqb (state g) PLAYING) eqn:Es.
  2:{ exists g, rng. apply update_case_sound. constructor.
      now apply GameState_eqb_neq. }
  pose proof Es as Es'. apply GameState_eqb_eq in Es'.
  unfold eats_food in Hfree. rewrite Hsn, Hd, Es in Hfree. cbn [andb] in Hfree.
  destruct (hits_wall cols rows (target g head)) eqn:Ew.
  { eexists; eexists. apply update_case_sound. eapply case_collision; eauto. }
  destruct (cell_in (target g head) (head :: tl)) eqn:Ei.
  { eexists; eexists. apply update_case_sound. eapply case_collision; eauto.
    right. rewrite Hsn. now apply cell_in_In. }
  apply cell_in_not_In in Ei. rewrite <- Hsn in Ei.
  destruct (Cell_eqb (target g head) (food g)) eqn:Ef.
  - destruct (offers_free_cell_returns _ _ _ (Hfree eq_refl)) as [c [rng' Hsp]].
    apply Cell_eqb_eq in Ef. rewrite <- Hsn in Hsp.
    eexists; eexists. apply update_case_sound. eapply case_eat; eauto.
  - apply Cell_eqb_neq in Ef.
    eexists; eexists. apply update_case_sound. eapply case_move; eauto.
Qed.

Lemma eats_food_case cfg g rng g' rng' :
  update_case cfg g rng g' rng' ->
  (eats_food cfg g = true /\ length (snake g') = S (length (snake g))) \/
  (eats_food cfg g = false /\ length (snake g') = length (snake g)).
Proof.
  intro H.
  destruct H as [Hs | head tl cols rows Hs Hsn Hd Hcol
                 | head tl cols rows c rng' Hs Hsn Hd Hw Hi Hf Hsp
                 | head tl cols rows Hs Hsn Hd Hw Hi Hf].
  - right. split; [| reflexivity].
    unfold eats_food. apply GameState_eqb_neq in Hs. rewrite Hs.
    destruct (snake g); [reflexivity |].
    destruct (get_grid_dimensions cfg) as [[? ?] | |]; reflexivity.
  - right. split.
    + unfold eats_food. rewrite Hsn, Hd.
      destruct Hcol as [Hcol | Hcol].
      * rewrite Hcol. now rewrite andb_false_r.
      * rewrite Hsn in Hcol. apply cell_in_In in Hcol. rewrite Hcol.
        cbn [negb]. now rewrite andb_false_r.
    + unfold _update_high_score.
      destruct (_ >? _); cbn; now rewrite snake_advanced.
  - left. split.
    + unfold eats_food. rewrite Hsn, Hd, Hs, Hw.
      rewrite Hsn in Hi. apply cell_in_not_In in Hi. rewrite Hi.
      apply Cell_eqb_eq in Hf. now rewrite Hf.
    + reflexivity.
  - right. split.
    + unfold eats_food. rewrite Hsn, Hd, Hs, Hw.
      apply Cell_eqb_neq in Hf. rewrite Hf. now rewrite andb_false_r.
    + cbn [set_snake snake]. rewrite Hsn. cbn [removelast].
      clear. revert head. induction tl as [| a tl IH]; intro head.
      * reflexivity.
      * cbn [removelast length] in *. f_equal. apply IH.
Qed.

(** C6: a call of [update] on a game that is PLAYING leaves the snake as
    long as it was when the head does not land on the food (a collision
    included) and makes it one cell longer when it does; and the call
    returns on every game with a snake and a grid, needing a free cell
    from the draws only when the food is eaten. *)
Theorem update_length_same_or_plus_one cfg g rng :
  state g = PLAYING ->
  (forall g' rng',
      update cfg g rng = Ok (g', rng') ->
      (eats_food cfg g = false /\ length (snake g') = length (snake g)) \/
      (eats_food cfg g = true /\ length (snake g') = S (length (snake g)))) /\
  (forall head tl,
      snake g = head :: tl ->
      GRID_SIZE cfg <> 0 ->
      (eats_food cfg g = true ->
       offers_free_cell cfg (target g head :: snake g) rng) ->
      exists g' rng', update cfg g rng = Ok (g', rng')).
Proof.
  intros _. split.
  - intros g' rng' H. apply update_cases in H.
    destruct (eats_food_case _ _ _ _ _ H) as [K | K]; auto.
  - intros head tl. apply update_returns.
Qed.

(** ** What the other calls leave alone *)

Lemma reset_game_inv cfg g0 rng g rng' :
  reset_game cfg g0 rng = Ok (g, rng') ->
  exists cols rows c,
    get_grid_dimensions cfg = Ok (cols, rows) /\
    _spawn_food cfg (start_snake cols rows) rng = Ok (c, rng') /\
    g = mkSnakeGame MENU 0 (high_score g0) 0 1%Q (start_snake cols rows)
                    RIGHT RIGHT c.
Proof.
  unfold reset_game. intro H. inv_bind H. destruct a as [cols rows].
  cbn in H. inv_bind H. destruct a as [c rng1]. inversion H; subst.
  exists cols, rows, c. repeat split; assumption.
Qed.

Lemma reset_game_returns cfg g0 rng cols rows :
  get_grid_dimensions cfg = Ok (cols, rows) ->
  offers_free_cell cfg (start_snake cols rows) rng ->
  exists c rng',
    reset_game cfg g0 rng =
    Ok (mkSnakeGame MENU 0 (high_score g0) 0 1%Q (start_snake cols rows)
                    RIGHT RIGHT c, rng').
Proof.
  intros Hd Hfree.
  destruct (offers_free_cell_returns _ _ _ Hfree) as [c [rng' Hsp]].
  exists c, rng'. unfold reset_game. rewrite Hd. cbn.
  unfold start_snake in Hsp. now rewrite Hsp.
Qed.

Lemma start_game_fields g :
  snake (start_game g) = snake g /\ food (start_game g) = food g /\
  score (start_game g) = score g /\ high_score (start_game g) = high_score g /\
  direction (start_game g) = direction g /\
  next_direction (start_game g) = next_direction g.
Proof. unfold start_game. destruct (GameState_eqb _ _); cbn; auto 10. Qed.

Lemma toggle_pause_fields g :
  snake (toggle_pause g) = snake g /\ food (toggle_pause g) = food g /\
  score (toggle_pause g) = score g /\ high_score (toggle_pause g) = high_score g /\
  direction (toggle_pause g) = direction g /\
  next_direction (toggle_pause g) = next_direction g.
Proof.
  unfold toggle_pause.
  destruct (GameState_eqb _ PLAYING); [cbn; auto 10 |].
  destruct (GameState_eqb _ PAUSED); cbn; auto 10.
Qed.

Lemma update_direction_fields cfg hand g :
  snake (update_direction cfg hand g) = snake g /\
  food (update_direction cfg hand g) = food g /\
  score (update_direction cfg hand g) = score g /\
  high_score (update_direction cfg hand g) = high_score g /\
  direction (update_direction cfg hand g) = direction g /\
  state (update_direction cfg hand g) = state g.
Proof.
  unfold update_direction.
  destruct hand as [hand |]; [| auto 10].
  destruct (snake g) as [| head tl] eqn:E; [auto 10 |].
  destruct (negb _); [rewrite E; auto 10 |].
  destruct (direction_intent _ _ _); cbn; auto 10.
Qed.

(** The calls other than [update] touch neither snake, food, score nor
    high score, and use no draw. *)
Lemma exec_keeps cfg c g rng g' rng' :
  c <> Update ->
  exec cfg c g rng = Ok (g', rng') ->
  snake g' = snake g /\ food g' = food g /\ score g' = score g /\
  high_score g' = high_score g /\ direction g' = direction g /\ rng' = rng.
Proof.
  intros Hc H. destruct c; cbn in H; try congruence; inversion H; subst.
  - destruct (start_game_fields g) as (? & ? & ? & ? & ? & ?). auto 10.
  - destruct (toggle_pause_fields g) as (? & ? & ? & ? & ? & ?). auto 10.
  - destruct (update_direction_fields cfg hand_pos g) as (? & ? & ? & ? & ? & ?).
    auto 10.
Qed.

Lemma In_removelast {A : Type} (x : A) (l : list A) :
  In x (removelast l) -> In x l.
Proof.
  induction l as [| a l IH]; [auto |].
  destruct l as [| b l]; [contradiction |].
  cbn [removelast]. intros [H | H]; [now left | right; now apply IH].
Qed.

Lemma length_removelast_cons {A : Type} (a : A) (l : list A) :
  length (removelast (a :: l)) = length l.
Proof.
  revert a. induction l as [| b l IH]; intro a; [reflexivity |].
  cbn [removelast length] in *. f_equal. apply IH.
Qed.

(** ** Invariants of reachable games *)

(** C2: in every game reached from a [reset_game] by calls of
    [start_game], [toggle_pause], [update_direction] and [update] that
    returned, the food is on no cell of the snake. *)
Theorem food_never_on_snake cfg g :
  reachable cfg g -> ~ In (food g) (snake g).
Proof.
  induction 1 as [g0 rng g rng' Hr | g c rng g' rng' Hreach IH Hex].
  - apply reset_game_inv in Hr. destruct Hr as (cols & rows & c & _ & Hsp & ->).
    cbn [food snake]. eapply _spawn_food_free. eassumption.
  - destruct c;
      try (apply exec_keeps in Hex; [| discriminate];
           destruct Hex as (-> & -> & _); exact IH).
    cbn in Hex. apply update_cases in Hex.
    destruct Hex as [Hs | head tl cols rows Hs Hsn Hd Hcol
                     | head tl cols rows c rng' Hs Hsn Hd Hw Hi Hf Hsp
                     | head tl cols rows Hs Hsn Hd Hw Hi Hf].
    + exact IH.
    + unfold _update_high_score. destruct (_ >? _); cbn;
        now rewrite snake_advanced, food_advanced.
    + cbn [_increase_speed set_speed_multiplier set_food set_score set_snake
           food snake].
      eapply _spawn_food_free. eassumption.
    + cbn [set_snake snake food]. rewrite food_advanced.
      intro Hin. apply In_removelast in Hin. destruct Hin as [Hin | Hin].
      * now apply Hf.
      * now apply IH.
Qed.

(** C10: in every such game the score is [FOOD_POINTS] times the number
    of cells the snake has gained over its three initial ones, in
    GAME_OVER as in any other state. *)
Theorem score_counts_growth cfg g :
  reachable cfg g ->
  score g = FOOD_POINTS cfg * (Z.of_nat (length (snake g)) - 3).
Proof.
  induction 1 as [g0 rng g rng' Hr | g c rng g' rng' Hreach IH Hex].
  - apply reset_game_inv in Hr. destruct Hr as (cols & rows & c & _ & _ & ->).
    cbn. lia.
  - destruct c;
      try (apply exec_keeps in Hex; [| discriminate];
           destruct Hex as (-> & _ & -> & _); exact IH).
    cbn in Hex. apply update_cases in Hex.
    destruct Hex as [Hs | head tl cols rows Hs Hsn Hd Hcol
                     | head tl cols rows c rng' Hs Hsn Hd Hw Hi Hf Hsp
                     | head tl cols rows Hs Hsn Hd Hw Hi Hf].
    + exact IH.
    + unfold _update_high_score. destruct (_ >? _); cbn;
        now rewrite snake_advanced, score_advanced.
    + cbn [_increase_speed set_speed_multiplier set_food set_score set_snake
           score snake length]. rewrite IH. lia.
    + cbn [set_snake snake score]. rewrite score_advanced.
      rewrite length_removelast_cons. exact IH.
Qed.

(** ** GAME_OVER *)

Lemma exec_game_over cfg c g rng :
  state g = GAME_OVER -> exec cfg c g rng = Ok (g, rng).
Proof.
  intro Hs. destruct c; cbn.
  - unfold start_game. now rewrite Hs.
  - unfold toggle_pause. now rewrite Hs.
  - unfold update_direction. destruct hand_pos; [| reflexivity].
    destruct (snake g); [reflexivity |]. now rewrite Hs.
  - unfold update. now rewrite Hs.
Qed.

(** C9: a game in GAME_OVER is returned as it is by every sequence of
    [start_game], [toggle_pause], [update_direction] and [update];
    [update] returns a game that is not PLAYING as it is; and
    [reset_game], which returns when the draws offer a free cell, puts
    the game in MENU. *)
Theorem game_over_is_final cfg :
  (forall cs g rng,
      state g = GAME_OVER -> exec_all cfg cs g rng = Ok (g, rng)) /\
  (forall g rng, state g <> PLAYING -> update cfg g rng = Ok (g, rng)) /\
  (forall g rng g' rng',
      reset_game cfg g rng = Ok (g', rng') -> state g' = MENU) /\
  (forall g rng cols rows,
      state g = GAME_OVER ->
      get_grid_dimensions cfg = Ok (cols, rows) ->
      offers_free_cell cfg (start_snake cols rows) rng ->
      exists g' rng', reset_game cfg g rng = Ok (g', rng') /\ state g' = MENU).
Proof.
  repeat split.
  - intros cs. induction cs as [| c cs IH]; intros g rng Hs; [reflexivity |].
    cbn [exec_all]. rewrite exec_game_over by assumption. cbn [bind].
    now apply IH.
  - intros g rng Hs. apply update_case_sound. now constructor.
  - intros g rng g' rng' H. apply reset_game_inv in H.
    destruct H as (cols & rows & c & _ & _ & ->). reflexivity.
  - intros g rng cols rows _ Hd Hfree.
    destruct (reset_game_returns cfg g rng cols rows Hd Hfree) as [c [rng' H]].
    eexists; eexists. split; [exact H | reflexivity].
Qed.

(** ** High score *)

Lemma update_case_high_score cfg g rng g' rng' :
  update_case cfg g rng g' rng' ->
  (state g <> GAME_OVER /\ state g' = GAME_OVER /\ score g' = score g /\
   high_score g' = Z.max (score g) (high_score g)) \/
  ((state g' = GAME_OVER <-> state g = GAME_OVER) /\
   high_score g' = high_score g).
Proof.
  intro H.
  destruct H as [Hs | head tl cols rows Hs Hsn Hd Hcol
                 | head tl cols rows c rng' Hs Hsn Hd Hw Hi Hf Hsp
                 | head tl cols rows Hs Hsn Hd Hw Hi Hf].
  - right. split; reflexivity.
  - left. split; [congruence |].
    unfold _update_high_score. cbn [set_state score high_score].
    rewrite score_advanced, high_score_advanced.
    destruct (Z.gtb_spec (score g) (high_score g)); cbn;
      rewrite ?score_advanced, ?high_score_advanced; repeat split; lia.
  - right. cbn. rewrite state_advanced, high_score_advanced.
    split; [| reflexivity]. rewrite Hs. split; discriminate.
  - right. cbn. rewrite state_advanced, high_score_advanced.
    split; [| reflexivity]. rewrite Hs. split; discriminate.
Qed.

Lemma exec_state_game_over cfg c g rng g' rng' :
  c <> Update ->
  exec cfg c g rng = Ok (g', rng') ->
  (state g' = GAME_OVER <-> state g = GAME_OVER).
Proof.
  intros Hc H. destruct c; cbn in H; try congruence; inversion H; subst.
  - unfold start_game. destruct (GameState_eqb (state g) MENU) eqn:E;
      [| reflexivity].
    apply GameState_eqb_eq in E. cbn. rewrite E. split; discriminate.
  - unfold toggle_pause. destruct (GameState_eqb (state g) PLAYING) eqn:E.
    { apply GameState_eqb_eq in E. cbn. rewrite E. split; discriminate. }
    destruct (GameState_eqb (state g) PAUSED) eqn:E'; [| reflexivity].
    apply GameState_eqb_eq in E'. cbn. rewrite E'. split; discriminate.
  - destruct (update_direction_fields cfg hand_pos g) as (_ & _ & _ & _ & _ & ->).
    reflexivity.
Qed.

Lemma exec_session_high_score cfg H c g rng g' rng' :
  session_high_score H g ->
  exec cfg c g rng = Ok (g', rng') ->
  session_high_score H g'.
Proof.
  intros [Hover Hlive] Hex.
  assert (Hother : c <> Update -> session_high_score H g').
  { intro Hc. pose proof (exec_state_game_over _ _ _ _ _ _ Hc Hex) as Hst.
    apply exec_keeps in Hex; [| assumption].
    destruct Hex as (_ & _ & Hsc & Hhs & _). split; intro K.
    - rewrite Hhs, Hsc. apply Hover. now apply Hst.
    - rewrite Hhs. apply Hlive. intro K'. apply K. now apply Hst. }
  destruct c; try (apply Hother; discriminate).
  cbn in Hex. apply update_cases in Hex.
  pose proof Hex as Hcase.
  apply update_case_high_score in Hex.
  destruct Hex as [(Hpre & Hpost & Hsc & Hhs) | (Hst & Hhs)].
  - split; intro K; [| contradiction].
    rewrite Hhs, Hsc. now rewrite (Hlive Hpre).
  - destruct (GameState_eqb (state g) GAME_OVER) eqn:E.
    + apply GameState_eqb_eq in E.
      pose proof (exec_game_over cfg Update g rng E) as Hid.
      apply update_case_sound in Hcase. cbn in Hid. rewrite Hid in Hcase.
      inversion Hcase; subst. split; assumption.
    + apply GameState_eqb_neq in E. split; intro K.
      * apply Hst in K. contradiction.
      * rewrite Hhs. now apply Hlive.
Qed.

Lemma exec_all_session_high_score cfg H cs g rng g' rng' :
  session_high_score H g ->
  exec_all cfg cs g rng = Ok (g', rng') ->
  session_high_score H g'.
Proof.
  revert g rng. induction cs as [| c cs IH]; intros g rng Hinv Hex.
  - cbn in Hex. inversion Hex; subst. assumption.
  - cbn [exec_all] in Hex. inv_bind Hex. destruct a as [g1 rng1].
    eapply IH; [| eassumption].
    eapply exec_session_high_score; eassumption.
Qed.

(** C8: over a session, that is a [reset_game] on a game with high
    score [H] followed by calls that returned, the high score is [H]
    until the game is over and the larger of the final score and [H]
    once it is; no call lowers the high score, and [reset_game] keeps
    it. *)
Theorem high_score_is_max cfg :
  (forall g0 rng0 g rng cs g' rng',
      reset_game cfg g0 rng0 = Ok (g, rng) ->
      exec_all cfg cs g rng = Ok (g', rng') ->
      (state g' = GAME_OVER ->
       high_score g' = Z.max (score g') (high_score g0)) /\
      (state g' <> GAME_OVER -> high_score g' = high_score g0)) /\
  (forall c g rng g' rng',
      exec cfg c g rng = Ok (g', rng') -> high_score g <= high_score g') /\
  (forall g rng g' rng',
      reset_game cfg g rng = Ok (g', rng') -> high_score g' = high_score g).
Proof.
  split; [| split].
  - intros g0 rng0 g rng cs g' rng' Hr Hex.
    apply (exec_all_session_high_score cfg (high_score g0) cs g rng g' rng');
      [| assumption].
    apply reset_game_inv in Hr. destruct Hr as (cols & rows & c & _ & _ & ->).
    split; [discriminate | reflexivity].
  - intros c g rng g' rng' Hex. destruct c;
      try (apply exec_keeps in Hex; [| discriminate];
           destruct Hex as (_ & _ & _ & -> & _); lia).
    cbn in Hex. apply update_cases, update_case_high_score in Hex.
    destruct Hex as [(_ & _ & _ & ->) | (_ & ->)]; lia.
  - intros g rng g' rng' H. apply reset_game_inv in H.
    destruct H as (cols & rows & c & _ & _ & ->). reflexivity.
Qed.

(** ** Direction changes *)

(** The test of line 145 fails exactly on the opposite direction. *)
Lemma reverse_test (nd d : Direction) :
  Cell_eqb (fst (value nd) * -1, snd (value nd) * -1) (value d) = true
  <-> nd = opposite d.
Proof. destruct nd, d; cbn; split; intro H; congruence. Qed.

Lemma direction_advanced g :
  direction (advanced g) =
  if Cell_eqb (fst (value (next_direction g)) * -1,
               snd (value (next_direction g)) * -1) (value (direction g))
  then direction g else next_direction g.
Proof.
  unfold advanced, commit_direction. cbn [set_frame_count next_direction direction].
  now destruct (Cell_eqb _ _).
Qed.

Lemma direction_advanced_reverse g :
  next_direction g = opposite (direction g) ->
  direction (advanced g) = direction g.
Proof.
  intro H. rewrite direction_advanced. apply reverse_test in H. now rewrite H.
Qed.

(** Any other pending direction is committed. *)
Lemma direction_advanced_other g :
  next_direction g <> opposite (direction g) ->
  direction (advanced g) = next_direction g.
Proof.
  intro H. rewrite direction_advanced.
  destruct (Cell_eqb _ _) eqn:E; [| reflexivity].
  apply reverse_test in E. contradiction.
Qed.

Lemma update_case_direction cfg g rng g' rng' :
  state g = PLAYING ->
  update_case cfg g rng g' rng' ->
  direction g' = direction (advanced g).
Proof.
  intros Hp H.
  destruct H as [Hs | head tl cols rows Hs Hsn Hd Hcol
                 | head tl cols rows c rng' Hs Hsn Hd Hw Hi Hf Hsp
                 | head tl cols rows Hs Hsn Hd Hw Hi Hf];
    try contradiction; try reflexivity.
  unfold _update_high_score. now destruct (_ >? _).
Qed.

(** C3: when the game is PLAYING and [update_direction] leaves as
    pending direction the opposite of the committed one, the [update]
    that follows keeps the committed direction; that [update] returns on
    every game with a snake and a grid, needing a free cell from the
    draws only when the food is eaten. *)
Theorem reverse_intent_dropped cfg g hand rng :
  state g = PLAYING ->
  next_direction (update_direction cfg hand g) = opposite (direction g) ->
  (forall g' rng',
      update cfg (update_direction cfg hand g) rng = Ok (g', rng') ->
      direction g' = direction g) /\
  (forall head tl,
      snake g = head :: tl ->
      GRID_SIZE cfg <> 0 ->
      (eats_food cfg (update_direction cfg hand g) = true ->
       offers_free_cell cfg
         (target (update_direction cfg hand g) head :: snake g) rng) ->
      exists g' rng',
        update cfg (update_direction cfg hand g) rng = Ok (g', rng') /\
        direction g' = direction g).
Proof.
  intros Hs Hrev.
  destruct (update_direction_fields cfg hand g) as (Hsn & _ & _ & _ & Hdir & Hst).
  assert (Hkeep : forall g' rng',
             update cfg (update_direction cfg hand g) rng = Ok (g', rng') ->
             direction g' = direction g).
  { intros g' rng' H. apply update_cases in H.
    apply update_case_direction in H; [| congruence].
    rewrite H, direction_advanced_reverse; congruence. }
  split; [exact Hkeep |].
  intros head tl Hsnake Hg Hfree.
  destruct (update_returns cfg (update_direction cfg hand g) rng head tl)
    as [g' [rng' H]]; try assumption.
  - congruence.
  - now rewrite Hsn.
  - exists g', rng'. split; [exact H | eapply Hkeep; eassumption].
Qed.

(** Every direction can be asked for: some hand position makes
    [update_direction] record it. *)
Lemma every_intent_available cfg g head tl (i : Direction) :
  state g = PLAYING ->
  snake g = head :: tl ->
  exists hand, update_direction cfg (Some hand) g = set_next_direction i g.
Proof.
  intros Hs Hsn.
  set (m := Z.abs (DIRECTION_THRESHOLD cfg) + 1).
  set (hx := fst (head_screen cfg head)). set (hy := snd (head_screen cfg head)).
  exists (match i with
          | UP => (hx, hy - m) | DOWN => (hx, hy + m)
          | LEFT => (hx - m, hy) | RIGHT => (hx + m, hy)
          end).
  unfold update_direction. rewrite Hsn, Hs. cbn [GameState_eqb negb].
  fold hx hy.
  assert (Hm : DIRECTION_THRESHOLD cfg < m) by (unfold m; lia).
  assert (Hm0 : 0 < m) by (unfold m; lia).
  destruct i; cbn [fst snd]; unfold direction_intent.
  - replace (hx - hx) with 0 by lia. replace (hy - m - hy) with (- m) by lia.
    destruct (Z.gtb_spec (Z.abs 0) (DIRECTION_THRESHOLD cfg)),
             (Z.gtb_spec (Z.abs (- m)) (DIRECTION_THRESHOLD cfg)),
             (Z.gtb_spec (Z.abs 0) (Z.abs (- m))),
             (Z.gtb_spec (- m) 0); cbn; try lia; reflexivity.
  - replace (hx - hx) with 0 by lia. replace (hy + m - hy) with m by lia.
    destruct (Z.gtb_spec (Z.abs 0) (DIRECTION_THRESHOLD cfg)),
             (Z.gtb_spec (Z.abs m) (DIRECTION_THRESHOLD cfg)),
             (Z.gtb_spec (Z.abs 0) (Z.abs m)),
             (Z.gtb_spec m 0); cbn; try lia; reflexivity.
  - replace (hy - hy) with 0 by lia. replace (hx - m - hx) with (- m) by lia.
    destruct (Z.gtb_spec (Z.abs (- m)) (DIRECTION_THRESHOLD cfg)),
             (Z.gtb_spec (Z.abs 0) (DIRECTION_THRESHOLD cfg)),
             (Z.gtb_spec (Z.abs (- m)) (Z.abs 0)),
             (Z.gtb_spec (- m) 0); cbn; try lia; reflexivity.
  - replace (hy - hy) with 0 by lia. replace (hx + m - hx) with m by lia.
    destruct (Z.gtb_spec (Z.abs m) (DIRECTION_THRESHOLD cfg)),
             (Z.gtb_spec (Z.abs 0) (DIRECTION_THRESHOLD cfg)),
             (Z.gtb_spec (Z.abs m) (Z.abs 0)),
             (Z.gtb_spec m 0); cbn; try lia; reflexivity.
Qed.

Lemma direction_intent_spec threshold dx dy :
  direction_intent threshold dx dy = spec_intent threshold dx dy.
Proof.
  unfold direction_intent, spec_intent.
  destruct (Z.gtb_spec (Z.abs dx) threshold), (Z.gtb_spec (Z.abs dy) threshold),
           (Z.leb_spec (Z.max (Z.abs dx) (Z.abs dy)) threshold);
    cbn [orb]; try lia;
    destruct (Z.gtb_spec (Z.abs dx) (Z.abs dy)), (Z.ltb_spec (Z.abs dy) (Z.abs dx));
    try lia;
    destruct (Z.gtb_spec dx 0), (Z.ltb_spec 0 dx),
             (Z.gtb_spec dy 0), (Z.ltb_spec 0 dy); try lia; reflexivity.
Qed.

Lemma update_direction_by_axis cfg g hand head tl :
  state g = PLAYING ->
  snake g = head :: tl ->
  let dx := fst hand - fst (head_screen cfg head) in
  let dy := snd hand - snd (head_screen cfg head) in
  let T := DIRECTION_THRESHOLD cfg in
  update_direction cfg (Some hand) g =
    match spec_intent T dx dy with
    | Some d => set_next_direction d g
    | None => g
    end /\
  (Z.max (Z.abs dx) (Z.abs dy) <= T -> update_direction cfg (Some hand) g = g) /\
  (T < Z.max (Z.abs dx) (Z.abs dy) ->
   (Z.abs dy < Z.abs dx -> 0 < dx ->
    update_direction cfg (Some hand) g = set_next_direction RIGHT g) /\
   (Z.abs dy < Z.abs dx -> dx <= 0 ->
    update_direction cfg (Some hand) g = set_next_direction LEFT g) /\
   (Z.abs dx <= Z.abs dy -> 0 < dy ->
    update_direction cfg (Some hand) g = set_next_direction DOWN g) /\
   (Z.abs dx <= Z.abs dy -> dy <= 0 ->
    update_direction cfg (Some hand) g = set_next_direction UP g)).
Proof.
  intros Hs Hsn dx dy T.
  assert (E : update_direction cfg (Some hand) g =
              match spec_intent T dx dy with
              | Some d => set_next_direction d g
              | None => g
              end).
  { unfold update_direction. rewrite Hsn, Hs. cbn [GameState_eqb negb].
    fold dx dy T. now rewrite direction_intent_spec. }
  split; [exact E |]. rewrite E. unfold spec_intent.
  split; [| intro Hmax; repeat split]; intros;
    destruct (Z.leb_spec (Z.max (Z.abs dx) (Z.abs dy)) T); try lia;
    try reflexivity;
    destruct (Z.ltb_spec (Z.abs dy) (Z.abs dx)); try lia;
    destruct (Z.ltb_spec 0 dx); try lia;
    destruct (Z.ltb_spec 0 dy); try lia; reflexivity.
Qed.

(** C5: with [(dx, dy)] the offset of the hand from the centre of the
    head, [update_direction] on a game that is PLAYING records no intent
    when [max(|dx|, |dy|)] is at most the threshold, the pending
    direction staying what it was, and exactly one otherwise: the
    pending direction becomes RIGHT or LEFT by the sign of [dx] when
    [|dx| > |dy|], DOWN or UP by the sign of [dy] when [|dx| <= |dy|], a
    tie included.  Nothing but the pending direction changes. *)
Theorem intent_by_dominant_axis cfg g hand head tl :
  state g = PLAYING ->
  snake g = head :: tl ->
  let dx := fst hand - fst (head_screen cfg head) in
  let dy := snd hand - snd (head_screen cfg head) in
  let T := DIRECTION_THRESHOLD cfg in
  update_direction cfg (Some hand) g =
    match spec_intent T dx dy with
    | Some d => set_next_direction d g
    | None => g
    end /\
  (Z.max (Z.abs dx) (Z.abs dy) <= T -> update_direction cfg (Some hand) g = g) /\
  (T < Z.max (Z.abs dx) (Z.abs dy) ->
   (Z.abs dy < Z.abs dx -> 0 < dx ->
    update_direction cfg (Some hand) g = set_next_direction RIGHT g) /\
   (Z.abs dy < Z.abs dx -> dx <= 0 ->
    update_direction cfg (Some hand) g = set_next_direction LEFT g) /\
   (Z.abs dx <= Z.abs dy -> 0 < dy ->
    update_direction cfg (Some hand) g = set_next_direction DOWN g) /\
   (Z.abs dx <= Z.abs dy -> dy <= 0 ->
    update_direction cfg (Some hand) g = set_next_direction UP g)) /\
  (Z.max (Z.abs dx) (Z.abs dy) <= T ->
   next_direction (update_direction cfg (Some hand) g) = next_direction g) /\
  (T < Z.max (Z.abs dx) (Z.abs dy) ->
   (Z.abs dy < Z.abs dx -> 0 < dx ->
    next_direction (update_direction cfg (Some hand) g) = RIGHT) /\
   (Z.abs dy < Z.abs dx -> dx <= 0 ->
    next_direction (update_direction cfg (Some hand) g) = LEFT) /\
   (Z.abs dx <= Z.abs dy -> 0 < dy ->
    next_direction (update_direction cfg (Some hand) g) = DOWN) /\
   (Z.abs dx <= Z.abs dy -> dy <= 0 ->
    next_direction (update_direction cfg (Some hand) g) = UP)) /\
  (direction (update_direction cfg (Some hand) g) = direction g /\
   snake (update_direction cfg (Some hand) g) = snake g /\
   food (update_direction cfg (Some hand) g) = food g /\
   score (update_direction cfg (Some hand) g) = score g /\
   state (update_direction cfg (Some hand) g) = state g).
Proof.
  intros Hs Hsn dx dy T.
  pose proof (update_direction_by_axis cfg g hand head tl Hs Hsn) as H.
  cbv zeta in H. fold dx dy T in H. destruct H as (E & Hband & Hout).
  split; [exact E |]. split; [exact Hband |]. split; [exact Hout |].
  split; [| split].
  - intro Hmax. now rewrite (Hband Hmax).
  - intro Hmax. destruct (Hout Hmax) as (HR & HL & HD & HU).
    repeat split; intros Ha Hb.
    + now rewrite (HR Ha Hb).
    + now rewrite (HL Ha Hb).
    + now rewrite (HD Ha Hb).
    + now rewrite (HU Ha Hb).
  - destruct (update_direction_fields cfg (Some hand) g)
      as (Hsnake & Hfood & Hscore & _ & Hdir & Hstate).
    auto.
Qed.

(** ** Position smoothing *)

Lemma deque_append_recent {A : Type} (capacity : nat) (l : list A) (x : A) :
  deque_append (Z.of_nat capacity) (recent capacity l) x
  = recent capacity (l ++ [x]).
Proof.
  unfold deque_append, recent.
  rewrite !length_app, length_skipn. cbn [length].
  destruct (Z.ltb_spec (Z.of_nat capacity)
              (Z.of_nat (length l - (length l - capacity) + 1))) as [Hlt | Hge].
  - assert (Hc : (capacity <= length l)%nat) by lia.
    replace (length l + 1 - capacity)%nat with (S (length l - capacity)) by lia.
    remember (length l - capacity)%nat as k eqn:Ek.
    assert (Hk : (k <= length l)%nat) by lia.
    clear - Hk. revert k Hk.
    induction l as [| a l IH]; intros k Hk.
    + cbn in Hk. assert (k = 0)%nat by lia. subst. reflexivity.
    + destruct k as [| k]; [reflexivity |].
      cbn [app skipn]. cbn [length] in Hk.
      apply IH. lia.
  - assert (Hc : (length l < capacity)%nat) by lia.
    replace (length l - capacity)%nat with 0%nat by lia.
    replace (length l + 1 - capacity)%nat with 0%nat by lia.
    reflexivity.
Qed.

Lemma feed_app cfg w h tips tip t :
  feed cfg w h (tips ++ [tip]) t
  = fst (detect_hand cfg w h tip (feed cfg w h tips t)).
Proof. unfold feed. now rewrite fold_left_app. Qed.

Lemma feed_history cfg w h tips t :
  0 <= GESTURE_SMOOTHING_WINDOW cfg ->
  position_history t = [] ->
  position_history (feed cfg w h tips t)
  = recent (Z.to_nat (GESTURE_SMOOTHING_WINDOW cfg)) (pushed w h tips).
Proof.
  intros Hw Ht. induction tips as [| tip tips IH] using rev_ind.
  - exact Ht.
  - rewrite feed_app. unfold pushed. rewrite flat_map_app. fold (pushed w h tips).
    cbn [flat_map]. rewrite app_nil_r.
    destruct tip as [p |]; cbn [detect_hand fst position_history].
    + rewrite IH. rewrite <- deque_append_recent.
      now rewrite Z2Nat.id by assumption.
    + rewrite app_nil_r. exact IH.
Qed.

Lemma sum_nonneg (l : list Z) : Forall (fun x => 0 <= x) l -> 0 <= sum l.
Proof. unfold sum. induction 1; cbn [fold_right]; lia. Qed.

Lemma pushed_nonneg w h tips :
  Forall (fun p => 0 <= fst p /\ 0 <= snd p) (pushed w h tips).
Proof.
  unfold pushed. apply Forall_flat_map. apply Forall_forall. intros [p |] _.
  - constructor; [| constructor]. unfold clamp_to_frame. cbn. lia.
  - constructor.
Qed.

Lemma recent_nonneg capacity (l : list (Z * Z)) :
  Forall (fun p => 0 <= fst p /\ 0 <= snd p) l ->
  Forall (fun p => 0 <= fst p /\ 0 <= snd p) (recent capacity l).
Proof.
  intro H. unfold recent. rewrite Forall_forall in *.
  intros x Hx. apply H.
  rewrite <- (firstn_skipn (length l - capacity) l).
  apply in_or_app. now right.
Qed.

(** Truncation of a quotient of a non-negative sum. *)
Lemma quot_integer_part (s n : Z) :
  0 <= s -> 0 < n -> n * Z.quot s n <= s < n * (Z.quot s n + 1).
Proof.
  intros Hs Hn. rewrite Z.quot_div_nonneg by lia.
  pose proof (Z.mul_div_le s n Hn).
  pose proof (Z.mul_succ_div_gt s n Hn). lia.
Qed.

Lemma get_smoothed_position_nonempty t :
  position_history t <> [] ->
  get_smoothed_position t =
  Some (Z.quot (sum (map fst (position_history t)))
               (Z.of_nat (length (position_history t))),
        Z.quot (sum (map snd (position_history t)))
               (Z.of_nat (length (position_history t)))).
Proof.
  unfold get_smoothed_position.
  destruct (position_history t); [contradiction | reflexivity].
Qed.

(** C7: after any run of frames fed to a tracker just built, the history
    holds the most recent pushed positions, at most
    [GESTURE_SMOOTHING_WINDOW] of them; [get_smoothed_position] is
    [None] when it is empty and else the integer parts of the means of
    its columns and of its rows.  With a window of 5, the positions
    (0,0), (10,0), (20,0), (30,0), (40,0) give (20,0), and (50,0) pushed
    after them gives (30,0). *)
Theorem smoothed_position_is_truncated_mean :
  (forall cfg w h tips t0,
      init_tracker cfg = Ok t0 ->
      let t := feed cfg w h tips t0 in
      let window :=
        recent (Z.to_nat (GESTURE_SMOOTHING_WINDOW cfg)) (pushed w h tips) in
      let n := Z.of_nat (length window) in
      position_history t = window /\
      n <= GESTURE_SMOOTHING_WINDOW cfg /\
      (window = [] -> get_smoothed_position t = None) /\
      (window <> [] ->
       exists x y,
         get_smoothed_position t = Some (x, y) /\
         x = Z.quot (sum (map fst window)) n /\
         y = Z.quot (sum (map snd window)) n /\
         n * x <= sum (map fst window) < n * (x + 1) /\
         n * y <= sum (map snd window) < n * (y + 1))) /\
  get_smoothed_position
    (feed default_config 640 480
          [Some (0, 0); Some (10, 0); Some (20, 0); Some (30, 0); Some (40, 0)]
          fresh_tracker) = Some (20, 0) /\
  get_smoothed_position
    (feed default_config 640 480
          [Some (0, 0); Some (10, 0); Some (20, 0); Some (30, 0); Some (40, 0);
           Some (50, 0)]
          fresh_tracker) = Some (30, 0).
Proof.
  split; [| split; reflexivity].
  intros cfg w h tips t0 Hinit t window n.
  unfold init_tracker in Hinit.
  destruct (Z.ltb_spec (GESTURE_SMOOTHING_WINDOW cfg) 0) as [| Hw];
    [discriminate |].
  inversion Hinit; subst t0.
  assert (Hh : position_history t = window)
    by (apply feed_history; [assumption | reflexivity]).
  assert (Hpos : Forall (fun p => 0 <= fst p /\ 0 <= snd p) window)
    by (apply recent_nonneg, pushed_nonneg).
  split; [exact Hh |]. split.
  { unfold n, window, recent. rewrite length_skipn. lia. }
  split.
  - intro Hnil. unfold get_smoothed_position. now rewrite Hh, Hnil.
  - intro Hne.
    rewrite get_smoothed_position_nonempty by (rewrite Hh; exact Hne).
    rewrite Hh. fold n. eexists; eexists. split; [reflexivity |].
    assert (Hn : 0 < n).
    { unfold n. destruct window; [contradiction | cbn [length]; lia]. }
    split; [reflexivity |]. split; [reflexivity |].
    split; apply quot_integer_part; try assumption; apply sum_nonneg;
      apply Forall_map; eapply Forall_impl; try exact Hpos; cbn; tauto.
Qed.

(** ** The pause gesture *)

Lemma handle_pause_gesture_fire app :
  pause_gesture_cooldown app = 0 ->
  handle_pause_gesture true app =
  (mkSnakeGameApp (toggle_pause (game app)) (hand_tracker app) (running app) 29,
   true).
Proof. intro H. unfold handle_pause_gesture. rewrite H. reflexivity. Qed.

Lemma handle_pause_gesture_wait is_fist app :
  0 < pause_gesture_cooldown app ->
  handle_pause_gesture is_fist app =
  (mkSnakeGameApp (game app) (hand_tracker app) (running app)
                  (pause_gesture_cooldown app - 1),
   false).
Proof.
  intro H. unfold handle_pause_gesture.
  destruct (Z.leb_spec (pause_gesture_cooldown app) 0); [lia |].
  rewrite andb_false_r.
  destruct (Z.gtb_spec (pause_gesture_cooldown app) 0); [reflexivity | lia].
Qed.

Lemma handle_pause_gesture_open app :
  pause_gesture_cooldown app <= 0 ->
  handle_pause_gesture false app = (app, false).
Proof.
  intro H. unfold handle_pause_gesture. cbn [andb].
  destruct (Z.gtb_spec (pause_gesture_cooldown app) 0); [lia | reflexivity].
Qed.

Lemma div30_step (m : nat) : ((m + 30) / 30 = S (m / 30))%nat.
Proof.
  replace (m + 30)%nat with (m + 1 * 30)%nat by lia.
  rewrite Nat.div_add by lia. lia.
Qed.

(** A held fist from frame [t] on, with [c] frames of cooldown left:
    the calls fall on frame [t + c] and every 30th frame after it. *)
Lemma pause_run_held (n : nat) :
  forall (t c : nat) (app : SnakeGameApp),
    (c <= 29)%nat ->
    pause_gesture_cooldown app = Z.of_nat c ->
    snd (pause_run t (repeat true n) app)
    = map (fun k => (t + c + 30 * k)%nat) (seq 0 ((n + 29 - c) / 30)).
Proof.
  induction n as [| n IH]; intros t c app Hc Hcool.
  - cbn [repeat pause_run snd].
    rewrite Nat.div_small by lia. reflexivity.
  - cbn [repeat pause_run].
    destruct c as [| c].
    + rewrite handle_pause_gesture_fire by (rewrite Hcool; reflexivity).
      specialize (IH (S t) 29%nat
                     (mkSnakeGameApp (toggle_pause (game app)) (hand_tracker app)
                                     (running app) 29)
                     (le_n _) eq_refl).
      destruct (pause_run (S t) (repeat true n) _) as [app2 ticks].
      cbn [snd] in *. rewrite IH.
      replace (S n + 29 - 0)%nat with (n + 29 - 29 + 30)%nat by lia.
      rewrite div30_step. cbn [seq map]. f_equal; [lia |].
      rewrite <- seq_shift, map_map. apply map_ext. intro k. lia.
    + rewrite handle_pause_gesture_wait by lia.
      specialize (IH (S t) c
                     (mkSnakeGameApp (game app) (hand_tracker app) (running app)
                                     (pause_gesture_cooldown app - 1))).
      destruct (pause_run (S t) (repeat true n) _) as [app2 ticks].
      cbn [snd] in *. rewrite IH; [| lia | cbn; lia].
      replace (S n + 29 - S c)%nat with (n + 29 - c)%nat by lia.
      apply map_ext. intro k. lia.
Qed.

(** C1, as the code has it: with the fist held on [N] consecutive frames
    and no cooldown pending at the first, [toggle_pause] is called on
    the frames 1, 31, 61, ..., that is once every 30 frames and not once
    per frame, [ceil(N / 30)] times in all; 100 frames give four calls,
    on frames 1, 31, 61 and 91. *)
Theorem pause_toggles_every_30_frames (N : nat) (app : SnakeGameApp) :
  pause_gesture_cooldown app = 0 ->
  toggle_ticks (repeat true N) app
  = map (fun k => (1 + 30 * k)%nat) (seq 0 ((N + 29) / 30)) /\
  length (toggle_ticks (repeat true N) app) = ((N + 29) / 30)%nat /\
  (N = 100%nat ->
   toggle_ticks (repeat true N) app = [1; 31; 61; 91]%nat).
Proof.
  intro Hcool.
  assert (E : toggle_ticks (repeat true N) app
              = map (fun k => (1 + 30 * k)%nat) (seq 0 ((N + 29) / 30))).
  { unfold toggle_ticks. rewrite (pause_run_held N 1 0 app); [| lia | assumption].
    rewrite Nat.sub_0_r. apply map_ext. intro k. lia. }
  split; [exact E |]. split.
  - rewrite E, length_map, length_seq. reflexivity.
  - intros ->. rewrite E. reflexivity.
Qed.

(** ** The straight run to the right wall *)

Lemma spawn_loop_grid fuel cols rows s rng c rng' :
  spawn_loop fuel cols rows s rng = Ok (c, rng') -> 0 < cols /\ 0 < rows.
Proof.
  destruct fuel as [| fuel]; [discriminate |]. cbn [spawn_loop].
  rewrite randint_zero. destruct (Z.leb_spec cols 0); [discriminate |].
  destruct rng as [| rx rng]; [discriminate |]. cbn [bind].
  rewrite randint_zero. destruct (Z.leb_spec rows 0); [discriminate |].
  intros _. lia.
Qed.

Lemma reset_game_grid cfg g0 rng0 g rng cols rows :
  reset_game cfg g0 rng0 = Ok (g, rng) ->
  get_grid_dimensions cfg = Ok (cols, rows) ->
  0 < cols /\ 0 < rows /\ snake g = start_snake cols rows /\
  straight cols rows 0 (start_game g).
Proof.
  intros Hr Hd. apply reset_game_inv in Hr.
  destruct Hr as (cols' & rows' & c & Hd' & Hsp & ->).
  rewrite Hd in Hd'. inversion Hd'; subst cols' rows'.
  unfold _spawn_food in Hsp. rewrite Hd in Hsp. cbn [bind] in Hsp.
  apply spawn_loop_grid in Hsp. destruct Hsp as [Hc Hrw].
  repeat split; try assumption.
  - cbn. exists [(cols / 2 - 1, rows / 2); (cols / 2 - 2, rows / 2)].
    unfold start_snake. do 2 f_equal. lia.
  - cbn in H. destruct H as [<- | [<- | [<- | []]]]; reflexivity.
  - cbn in H. destruct H as [<- | [<- | [<- | []]]]; cbn; lia.
Qed.

Lemma advanced_straight cols rows k g :
  straight cols rows k g ->
  direction (advanced g) = RIGHT /\ next_direction (advanced g) = RIGHT /\
  state (advanced g) = PLAYING.
Proof.
  intros (Hs & Hd & Hn & _).
  rewrite next_direction_advanced, state_advanced.
  rewrite direction_advanced_other; rewrite ?Hn, ?Hd; auto; discriminate.
Qed.

(** One [update] along the run. *)
Lemma straight_step cfg cols rows k g rng :
  get_grid_dimensions cfg = Ok (cols, rows) ->
  0 < cols -> 0 < rows -> 0 <= k ->
  straight cols rows k g ->
  (forall g' rng',
      update cfg g rng = Ok (g', rng') ->
      (k + 1 < cols - cols / 2 -> straight cols rows (k + 1) g') /\
      (cols - cols / 2 <= k + 1 -> state g' = GAME_OVER) /\
      (off_row_draws cols rows rng <= S (off_row_draws cols rows rng'))%nat) /\
  ((1 <= off_row_draws cols rows rng)%nat ->
   exists g' rng', update cfg g rng = Ok (g', rng')).
Proof.
  intros Hd Hc Hr Hk Hst.
  pose proof (advanced_straight _ _ _ _ Hst) as (Hdir & Hnd & Hsta).
  destruct Hst as (Hs & _ & _ & [tl Hsn] & Hbody).
  assert (Htarget : target g (cols / 2 + k, rows / 2)
                    = (cols / 2 + (k + 1), rows / 2)).
  { unfold target, new_head. rewrite Hdir. cbn. f_equal; lia. }
  assert (Hrow : 0 <= rows / 2 < rows).
  { split; [apply Z.div_pos; lia | apply Z.div_lt_upper_bound; lia]. }
  assert (Hcol : 0 <= cols / 2) by (apply Z.div_pos; lia).
  assert (Hwall : hits_wall cols rows (cols / 2 + (k + 1), rows / 2)
                  = (cols - cols / 2 <=? k + 1)).
  { unfold hits_wall. cbn [fst snd].
    destruct (Z.ltb_spec (cols / 2 + (k + 1)) 0); [lia |].
    destruct (Z.ltb_spec (rows / 2) 0); [lia |].
    destruct (Z.geb_spec (rows / 2) rows); [lia |].
    destruct (Z.geb_spec (cols / 2 + (k + 1)) cols),
             (Z.leb_spec (cols - cols / 2) (k + 1)); cbn; try lia; reflexivity. }
  assert (Hnew : ~ In (cols / 2 + (k + 1), rows / 2) (snake g)).
  { intro Hin. apply Hbody in Hin. cbn in Hin. lia. }
  assert (Hfreerow : forall c,
             off_row (rows / 2) c = true ->
             ~ In c ((cols / 2 + (k + 1), rows / 2) :: snake g)).
  { intros c Hoff [<- | Hin].
    - unfold off_row in Hoff. cbn in Hoff. rewrite Z.eqb_refl in Hoff.
      discriminate.
    - apply Hbody in Hin. unfold off_row in Hoff. destruct Hin as [E _].
      rewrite E, Z.eqb_refl in Hoff. discriminate. }
  split.
  - intros g' rng' H. apply update_cases in H.
    destruct H as [Hs' | head tl' cols' rows' Hs' Hsn' Hd' Hcol'
                   | head tl' cols' rows' c rng' Hs' Hsn' Hd' Hw Hi Hf Hsp
                   | head tl' cols' rows' Hs' Hsn' Hd' Hw Hi Hf];
      try contradiction;
      rewrite Hd in Hd'; inversion Hd'; subst cols' rows'; clear Hd';
      rewrite Hsn in Hsn'; inversion Hsn'; subst head tl'; clear Hsn';
      rewrite Htarget in *.
    + destruct Hcol' as [Hw | Hin]; [| contradiction].
      rewrite Hwall in Hw. apply Z.leb_le in Hw.
      split; [lia |]. split; [| lia]. intros _.
      unfold _update_high_score. now destruct (_ >? _).
    + rewrite Hwall in Hw. apply Z.leb_gt in Hw.
      split; [| split; [lia |]].
      * intros _. unfold straight.
        cbn [_increase_speed set_speed_multiplier set_food set_score set_snake
             state direction next_direction snake].
        repeat split; try assumption.
        -- now exists (snake g).
        -- destruct H as [<- | Hin]; [reflexivity | now apply Hbody].
        -- destruct H as [<- | Hin]; [cbn; lia |]. apply Hbody in Hin. lia.
      * unfold _spawn_food in Hsp. rewrite Hd in Hsp. cbn [bind] in Hsp.
        destruct (Nat.le_gt_cases 1 (off_row_draws cols rows rng)) as [Hge | Hlt];
          [| lia].
        destruct (spawn_loop_supply (off_row (rows / 2)) _ cols rows _ rng
                    Hfreerow Hc Hr (Nat.lt_succ_diag_r _) Hge)
          as (c' & rng'' & Hsp' & Hcount).
        pose proof (eq_trans (eq_sym Hsp) Hsp') as E. inversion E; subst.
        exact Hcount.
    + rewrite Hwall in Hw. apply Z.leb_gt in Hw.
      split; [| split; [lia | lia]].
      intros _. unfold straight. cbn [set_snake state direction next_direction snake].
      repeat split; try assumption.
      * rewrite Hsn. cbn [removelast]. eexists. reflexivity.
      * apply In_removelast in H. destruct H as [<- | Hin];
          [reflexivity | now apply Hbody].
      * apply In_removelast in H. destruct H as [<- | Hin]; [cbn; lia |].
        apply Hbody in Hin. lia.
  - intro Hsup.
    apply (update_returns cfg g rng (cols / 2 + k, rows / 2) tl Hsn).
    + unfold get_grid_dimensions in Hd.
      destruct (Z.eqb_spec (GRID_SIZE cfg) 0); [discriminate | assumption].
    + intros _. rewrite Htarget.
      assert (Hin : exists c, In c (filter (off_row (rows / 2))
                                           (draw_cells cols rows rng))).
      { unfold off_row_draws in Hsup.
        destruct (filter _ _) as [| c l]; [cbn in Hsup; lia |].
        exists c. now left. }
      destruct Hin as [c Hin]. apply filter_In in Hin. destruct Hin as [Hin Hoff].
      exists cols, rows, c. repeat split; try assumption.
      now apply Hfreerow.
Qed.

Lemma update_n_game_over cfg n g rng :
  state g = GAME_OVER -> update_n cfg n g rng = Ok (g, rng).
Proof.
  intro Hs. unfold update_n. revert g rng Hs.
  induction n as [| n IH]; intros g rng Hs; [reflexivity |].
  cbn [repeat exec_all]. rewrite exec_game_over by assumption. cbn [bind].
  now apply IH.
Qed.

Lemma straight_run cfg cols rows :
  get_grid_dimensions cfg = Ok (cols, rows) ->
  0 < cols -> 0 < rows ->
  forall n k g rng,
    0 <= k -> k < cols - cols / 2 ->
    straight cols rows k g ->
    (forall g' rng',
        update_n cfg n g rng = Ok (g', rng') ->
        state g' = if k + Z.of_nat n <? cols - cols / 2 then PLAYING
                   else GAME_OVER) /\
    ((n <= off_row_draws cols rows rng)%nat ->
     exists g' rng', update_n cfg n g rng = Ok (g', rng')).
Proof.
  intros Hd Hc Hr. induction n as [| n IH]; intros k g rng Hk0 Hk Hst.
  - split.
    + intros g' rng' H. cbn in H. inversion H; subst.
      destruct (Z.ltb_spec (k + Z.of_nat 0) (cols - cols / 2)); [| lia].
      apply Hst.
    + intros _. exists g, rng. reflexivity.
  - destruct (straight_step cfg cols rows k g rng Hd Hc Hr Hk0 Hst)
      as [Hpart Htot].
    unfold update_n in *. cbn [repeat exec_all exec]. split.
    + intros g' rng' H. inv_bind H. destruct a as [g1 rng1].
      destruct (Hpart _ _ Hc0) as (Hgo & Hover & _).
      destruct (Z.ltb_spec (k + 1) (cols - cols / 2)) as [Hlt | Hge].
      * destruct (IH (k + 1) g1 rng1 ltac:(lia) Hlt (Hgo Hlt)) as [IH1 _].
        rewrite (IH1 _ _ H).
        replace (k + 1 + Z.of_nat n) with (k + Z.of_nat (S n)) by lia.
        reflexivity.
      * pose proof (update_n_game_over cfg n g1 rng1 (Hover Hge)) as Hid.
        unfold update_n in Hid. rewrite Hid in H. inversion H; subst.
        rewrite (Hover Hge).
        destruct (Z.ltb_spec (k + Z.of_nat (S n)) (cols - cols / 2)); [lia |].
        reflexivity.
    + intro Hsup. destruct (Htot ltac:(lia)) as (g1 & rng1 & Hup).
      rewrite Hup. cbn [bind].
      destruct (Hpart _ _ Hup) as (Hgo & Hover & Hcount).
      destruct (Z.ltb_spec (k + 1) (cols - cols / 2)) as [Hlt | Hge].
      * destruct (IH (k + 1) g1 rng1 ltac:(lia) Hlt (Hgo Hlt)) as [_ IH2].
        apply IH2. lia.
      * exists g1, rng1.
        apply (update_n_game_over cfg n g1 rng1 (Hover Hge)).
Qed.

(** C4: after a [reset_game] and [start_game] the snake has three
    cells in a row, the head rightmost on column [cols / 2], and goes
    RIGHT; [n] calls of [update] with no intent in between leave
    the game PLAYING as long as [n < cols - cols / 2] and in GAME_OVER
    from [n = cols - cols / 2] on; the calls all return when the draws
    left hold [n] cells off the row of the snake. *)
Theorem straight_run_hits_right_wall cfg g0 rng0 g rng cols rows (n : nat) :
  reset_game cfg g0 rng0 = Ok (g, rng) ->
  get_grid_dimensions cfg = Ok (cols, rows) ->
  (snake (start_game g) = start_snake cols rows /\
   direction (start_game g) = RIGHT /\ state (start_game g) = PLAYING) /\
  (forall g' rng',
      update_n cfg n (start_game g) rng = Ok (g', rng') ->
      state g' = if Z.of_nat n <? cols - cols / 2 then PLAYING else GAME_OVER) /\
  ((n <= off_row_draws cols rows rng)%nat ->
   exists g' rng', update_n cfg n (start_game g) rng = Ok (g', rng')).
Proof.
  intros Hreset Hd.
  destruct (reset_game_grid _ _ _ _ _ _ _ Hreset Hd) as (Hc & Hr & Hsn & Hst).
  split.
  - destruct (start_game_fields g) as (-> & _). split; [exact Hsn |].
    split; apply Hst.
  - assert (Hhalf : cols / 2 < cols) by (apply Z.div_lt_upper_bound; lia).
    apply (straight_run cfg cols rows Hd Hc Hr n 0 (start_game g) rng);
      [lia | lia | assumption].
Qed.

(** ** The theorems at work on the default grid *)

(** C1 as first stated, three calls in 100 frames on frames 1, 31 and
    61, fails: there is a fourth call, on frame 91. *)
Lemma pause_100_frames_not_three_toggles :
  pause_gesture_cooldown demo_app = 0 /\
  toggle_ticks (repeat true 100) demo_app <> [1; 31; 61]%nat /\
  length (toggle_ticks (repeat true 100) demo_app) <> 3%nat /\
  In 91%nat (toggle_ticks (repeat true 100) demo_app).
Proof.
  split; [reflexivity |]. split; [| split].
  - vm_compute. discriminate.
  - vm_compute. discriminate.
  - vm_compute. auto.
Qed.

Lemma pause_toggles_every_30_frames_witness :
  toggle_ticks (repeat true 100) demo_app = [1; 31; 61; 91]%nat.
Proof.
  apply (pause_toggles_every_30_frames 100 demo_app); reflexivity.
Defined.

Lemma food_never_on_snake_witness : ~ In (food demo_fed) (snake demo_fed).
Proof.
  apply (food_never_on_snake default_config demo_fed).
  apply (reachable_exec default_config demo_playing Update [3; 4] demo_fed []);
    [| reflexivity].
  apply (reachable_exec default_config demo_menu Start [3; 4] demo_playing [3; 4]);
    [| reflexivity].
  apply (reachable_reset default_config blank_game demo_draws demo_menu [3; 4]).
  reflexivity.
Defined.

Lemma score_counts_growth_witness :
  score demo_fed = 10 * (Z.of_nat (length (snake demo_fed)) - 3).
Proof.
  apply (score_counts_growth default_config demo_fed).
  apply (reachable_exec default_config demo_playing Update [3; 4] demo_fed []);
    [| reflexivity].
  apply (reachable_exec default_config demo_menu Start [3; 4] demo_playing [3; 4]);
    [| reflexivity].
  apply (reachable_reset default_config blank_game demo_draws demo_menu [3; 4]).
  reflexivity.
Defined.

(** The hand 31 pixels to the left of the head asks for LEFT while the
    snake goes RIGHT. *)
Lemma reverse_intent_dropped_witness :
  next_direction (update_direction default_config (Some (399, 310)) demo_fed)
  = LEFT /\
  exists g' rng',
    update default_config
           (update_direction default_config (Some (399, 310)) demo_fed) []
    = Ok (g', rng') /\
    direction g' = RIGHT.
Proof.
  split; [reflexivity |].
  apply (proj2 (reverse_intent_dropped default_config demo_fed (Some (399, 310)) []
                  eq_refl eq_refl)
               (21, 15) [(20, 15); (19, 15); (18, 15)]).
  - reflexivity.
  - vm_compute. discriminate.
  - intro H. vm_compute in H. discriminate.
Defined.

Lemma straight_run_hits_right_wall_witness :
  update_n default_config 19 (start_game demo_menu) [3; 4]
  = Ok (set_state PLAYING
          (set_high_score 0
             (set_frame_count 19
                (set_snake [(39, 15); (38, 15); (37, 15); (36, 15)] demo_over))),
        []) /\
  update_n default_config 20 (start_game demo_menu) [3; 4] = Ok (demo_over, []) /\
  state demo_over = GAME_OVER /\
  exists g' rng',
    update_n default_config 1 (start_game demo_menu) [3; 4] = Ok (g', rng').
Proof.
  split; [reflexivity |]. split; [reflexivity |]. split.
  - apply (proj1 (proj2 (straight_run_hits_right_wall default_config blank_game
                           demo_draws demo_menu [3; 4] 40 30 20 eq_refl eq_refl))
                 demo_over []).
    reflexivity.
  - apply (proj2 (proj2 (straight_run_hits_right_wall default_config blank_game
                           demo_draws demo_menu [3; 4] 40 30 1 eq_refl eq_refl))).
    vm_compute. lia.
Defined.

(** A tie: the hand 31 pixels right of and 31 pixels below the head. *)
Lemma intent_by_dominant_axis_witness :
  update_direction default_config (Some (461, 341)) demo_fed
  = set_next_direction DOWN demo_fed /\
  next_direction demo_fed = RIGHT /\
  next_direction (update_direction default_config (Some (461, 341)) demo_fed)
  = DOWN /\
  next_direction (update_direction default_config (Some (460, 340)) demo_fed)
  = RIGHT /\
  direction (update_direction default_config (Some (461, 341)) demo_fed) = RIGHT.
Proof.
  pose proof (intent_by_dominant_axis default_config demo_fed (461, 341) (21, 15)
                [(20, 15); (19, 15); (18, 15)] eq_refl eq_refl) as H.
  pose proof (intent_by_dominant_axis default_config demo_fed (460, 340) (21, 15)
                [(20, 15); (19, 15); (18, 15)] eq_refl eq_refl) as H0.
  cbv zeta in H, H0.
  destruct H as (_ & _ & Hset & _ & Hnext & Hdir & _).
  destruct H0 as (_ & _ & _ & Hband & _).
  split; [apply Hset; vm_compute; congruence |].
  split; [reflexivity |].
  split; [apply Hnext; vm_compute; congruence |].
  split; [apply Hband; vm_compute; congruence | exact Hdir].
Defined.

Lemma update_length_same_or_plus_one_witness :
  length (snake demo_fed) = S (length (snake demo_playing)) /\
  exists g' rng', update default_config demo_playing [3; 4] = Ok (g', rng').
Proof.
  split.
  - destruct (proj1 (update_length_same_or_plus_one default_config demo_playing
                       [3; 4] eq_refl) demo_fed [] eq_refl) as [[H _] | [_ H]].
    + vm_compute in H. discriminate.
    + exact H.
  - apply (proj2 (update_length_same_or_plus_one default_config demo_playing
                    [3; 4] eq_refl) (20, 15) [(19, 15); (18, 15)]).
    + reflexivity.
    + vm_compute. discriminate.
    + intros _. exists 40, 30, (3, 4). repeat split; try reflexivity.
      * now left.
      * vm_compute. intuition discriminate.
Defined.

(** Six frames, one of them without a hand, on a 640 by 480 frame. *)
Lemma smoothed_position_is_truncated_mean_witness :
  position_history
    (feed default_config 640 480
          [Some (0, 0); Some (10, 0); None; Some (20, 0); Some (30, 0);
           Some (40, 0); Some (50, 0)] fresh_tracker)
  = [(10, 0); (20, 0); (30, 0); (40, 0); (50, 0)].
Proof.
  apply (proj1 smoothed_position_is_truncated_mean default_config 640 480
               [Some (0, 0); Some (10, 0); None; Some (20, 0); Some (30, 0);
                Some (40, 0); Some (50, 0)] fresh_tracker eq_refl).
Defined.

(** A session that starts with a high score of 5 and ends with 10
    points, and one that starts with a high score of 50. *)
Lemma high_score_is_max_witness :
  (exists g' rng',
      exec_all default_config (Start :: repeat Update 20)
               (set_high_score 5 demo_menu) [3; 4] = Ok (g', rng') /\
      state g' = GAME_OVER /\ score g' = 10 /\ high_score g' = 10) /\
  (exists g' rng',
      exec_all default_config (Start :: repeat Update 20)
               (set_high_score 50 demo_menu) [3; 4] = Ok (g', rng') /\
      state g' = GAME_OVER /\ score g' = 10 /\ high_score g' = 50).
Proof.
  split.
  - exists (set_high_score 10 demo_over), []. split; [reflexivity |].
    split; [reflexivity |]. split; [reflexivity |].
    apply (proj1 (proj1 (high_score_is_max default_config)
                        (set_high_score 5 demo_over) demo_draws
                        (set_high_score 5 demo_menu) [3; 4]
                        (Start :: repeat Update 20)
                        (set_high_score 10 demo_over) [] eq_refl eq_refl)).
    reflexivity.
  - exists (set_high_score 50 demo_over), []. split; [reflexivity |].
    split; [reflexivity |]. split; [reflexivity |].
    apply (proj1 (proj1 (high_score_is_max default_config)
                        (set_high_score 50 blank_game) demo_draws
                        (set_high_score 50 demo_menu) [3; 4]
                        (Start :: repeat Update 20)
                        (set_high_score 50 demo_over) [] eq_refl eq_refl)).
    reflexivity.
Defined.

Lemma game_over_is_final_witness :
  exec_all default_config
           [Start; TogglePause; UpdateDirection (Some (0, 0)); Update; Start]
           demo_over [1; 2]
  = Ok (demo_over, [1; 2]) /\
  exists g' rng',
    reset_game default_config demo_over [7; 7] = Ok (g', rng') /\ state g' = MENU.
Proof.
  split.
  - apply (proj1 (game_over_is_final default_config)). reflexivity.
  - apply (proj2 (proj2 (proj2 (game_over_is_final default_config)))
                 demo_over [7; 7] 40 30).
    + reflexivity.
    + reflexivity.
    + exists 40, 30, (7, 7). repeat split; try reflexivity.
      * now left.
      * vm_compute. intuition discriminate.
Defined.

(** * Further properties of the game engine *)

(** ** Grids on which a game exists *)

Lemma hits_wall_in_grid cols rows c :
  hits_wall cols rows c = false <-> in_grid cols rows c.
Proof.
  unfold hits_wall, in_grid.
  destruct (Z.ltb_spec (fst c) 0), (Z.geb_spec (fst c) cols),
           (Z.ltb_spec (snd c) 0), (Z.geb_spec (snd c) rows);
    cbn; split; intro; try discriminate; try lia; reflexivity.
Qed.

Lemma spawn_loop_in_grid fuel cols rows s rng c rng' :
  spawn_loop fuel cols rows s rng = Ok (c, rng') -> in_grid cols rows c.
Proof.
  revert rng. induction fuel as [| fuel IH]; intros rng H; [discriminate |].
  pose proof (spawn_loop_grid _ _ _ _ _ _ _ H) as [Hc Hr].
  cbn [spawn_loop] in H. rewrite randint_zero in H.
  destruct (Z.leb_spec cols 0); [lia |].
  destruct rng as [| rx rng]; [discriminate |]. cbn [bind] in H.
  rewrite randint_zero in H. destruct (Z.leb_spec rows 0); [lia |].
  destruct rng as [| ry rng]; [discriminate |]. cbn [bind] in H.
  destruct (cell_in (rx mod cols, ry mod rows) s); cbn [negb] in H.
  - eapply IH; eassumption.
  - inversion H; subst. unfold in_grid. cbn [fst snd].
    pose proof (Z.mod_pos_bound rx cols). pose proof (Z.mod_pos_bound ry rows).
    lia.
Qed.

Lemma spawn_loop_no_raise fuel cols rows s rng e :
  0 < cols -> 0 < rows -> spawn_loop fuel cols rows s rng <> Raise e.
Proof.
  intros Hc Hr. revert rng.
  induction fuel as [| fuel IH]; intros rng; [discriminate |].
  cbn [spawn_loop]. rewrite randint_zero.
  destruct (Z.leb_spec cols 0); [lia |].
  destruct rng as [| rx rng]; [discriminate |]. cbn [bind].
  rewrite randint_zero. destruct (Z.leb_spec rows 0); [lia |].
  destruct rng as [| ry rng]; [discriminate |]. cbn [bind].
  destruct (cell_in (rx mod cols, ry mod rows) s); cbn [negb];
    [apply IH | discriminate].
Qed.

(** A game exists only on a grid with a column and a row. *)
Lemma reachable_grid cfg g :
  reachable cfg g ->
  exists cols rows,
    get_grid_dimensions cfg = Ok (cols, rows) /\ 0 < cols /\ 0 < rows.
Proof.
  induction 1 as [g0 rng g rng' Hr | g c rng g' rng' _ IH _]; [| exact IH].
  pose proof Hr as Hr'. apply reset_game_inv in Hr'.
  destruct Hr' as (cols & rows & c & Hd & _ & _).
  destruct (reset_game_grid _ _ _ _ _ _ _ Hr Hd) as (Hc & Hrw & _).
  eauto.
Qed.

Lemma GRID_SIZE_nonzero cfg cols rows :
  get_grid_dimensions cfg = Ok (cols, rows) -> GRID_SIZE cfg <> 0.
Proof.
  unfold get_grid_dimensions.
  destruct (Z.eqb_spec (GRID_SIZE cfg) 0); [discriminate | auto].
Qed.

(** ** Shape of the snake *)

Lemma NoDup_removelast {A : Type} (l : list A) : NoDup l -> NoDup (removelast l).
Proof.
  intro H. destruct l as [| a l]; [exact H |].
  rewrite (app_removelast_last a (l := a :: l)) in H by discriminate.
  eapply NoDup_app_remove_r. exact H.
Qed.

Lemma connected_removelast (s : list Cell) : connected s -> connected (removelast s).
Proof.
  induction s as [| a s IH]; [auto |].
  destruct s as [| b s]; [auto |].
  intros [Hab Hrest]. specialize (IH Hrest).
  destruct s as [| c s]; [exact I |].
  cbn [removelast] in *. split; assumption.
Qed.

Lemma start_snake_NoDup cols rows : NoDup (start_snake cols rows).
Proof.
  unfold start_snake. repeat constructor; cbn; intro H;
    repeat (destruct H as [H | H]; [inversion H; lia |]); exact H.
Qed.

Lemma start_snake_connected cols rows : connected (start_snake cols rows).
Proof.
  unfold start_snake. cbn. repeat split; exists RIGHT; unfold new_head; cbn;
    f_equal; lia.
Qed.

(** X1: in every game reached from a [reset_game], no cell occurs twice
    in the snake. *)
Theorem snake_cells_distinct cfg g : reachable cfg g -> NoDup (snake g).
Proof.
  induction 1 as [g0 rng g rng' Hr | g c rng g' rng' Hreach IH Hex].
  - apply reset_game_inv in Hr. destruct Hr as (cols & rows & c & _ & _ & ->).
    apply start_snake_NoDup.
  - destruct c;
      try (apply exec_keeps in Hex; [| discriminate];
           destruct Hex as (-> & _); exact IH).
    cbn in Hex. apply update_cases in Hex.
    destruct Hex as [Hs | head tl cols rows Hs Hsn Hd Hcol
                     | head tl cols rows c rng' Hs Hsn Hd Hw Hi Hf Hsp
                     | head tl cols rows Hs Hsn Hd Hw Hi Hf].
    + exact IH.
    + unfold _update_high_score. destruct (_ >? _); cbn;
        now rewrite snake_advanced.
    + cbn [_increase_speed set_speed_multiplier set_food set_score set_snake
           snake]. now constructor.
    + cbn [set_snake snake]. apply NoDup_removelast. now constructor.
Qed.

Lemma reachable_connected cfg g : reachable cfg g -> connected (snake g).
Proof.
  induction 1 as [g0 rng g rng' Hr | g c rng g' rng' Hreach IH Hex].
  - apply reset_game_inv in Hr. destruct Hr as (cols & rows & c & _ & _ & ->).
    apply start_snake_connected.
  - destruct c;
      try (apply exec_keeps in Hex; [| discriminate];
           destruct Hex as (-> & _); exact IH).
    cbn in Hex. apply update_cases in Hex.
    destruct Hex as [Hs | head tl cols rows Hs Hsn Hd Hcol
                     | head tl cols rows c rng' Hs Hsn Hd Hw Hi Hf Hsp
                     | head tl cols rows Hs Hsn Hd Hw Hi Hf].
    + exact IH.
    + unfold _update_high_score. destruct (_ >? _); cbn;
        now rewrite snake_advanced.
    + cbn [_increase_speed set_speed_multiplier set_food set_score set_snake
           snake]. rewrite Hsn in *. split; [| exact IH].
      exists (direction (advanced g)). reflexivity.
    + cbn [set_snake snake]. apply connected_removelast.
      rewrite Hsn in *. split; [| exact IH].
      exists (direction (advanced g)). reflexivity.
Qed.

(** X2: in every such game each cell of the snake is one step, in one of
    the four directions, from the cell behind it. *)
Theorem snake_cells_connected cfg g : reachable cfg g -> connected (snake g).
Proof. apply reachable_connected. Qed.

Lemma Forall_removelast {A : Type} (P : A -> Prop) (l : list A) :
  Forall P l -> Forall P (removelast l).
Proof.
  rewrite !Forall_forall. intros H x Hx. apply H. now apply In_removelast.
Qed.

Lemma on_grid_invariant cfg cols rows :
  get_grid_dimensions cfg = Ok (cols, rows) ->
  (forall g,
      reachable cfg g ->
      in_grid cols rows (food g) /\
      (exists head tl, snake g = head :: tl /\ in_grid cols rows head) /\
      (4 <= cols -> Forall (in_grid cols rows) (snake g))) /\
  (forall g0 rng g rng',
      reset_game cfg g0 rng = Ok (g, rng') ->
      (Forall (in_grid cols rows) (snake g) <-> 4 <= cols)).
Proof.
  intro Hd.
  assert (Hreset : forall g0 rng g rng',
             reset_game cfg g0 rng = Ok (g, rng') ->
             0 < cols /\ 0 < rows /\ snake g = start_snake cols rows /\
             in_grid cols rows (food g)).
  { intros g0 rng g rng' Hr.
    destruct (reset_game_grid _ _ _ _ _ _ _ Hr Hd) as (Hc & Hrw & Hsn & _).
    repeat split; try assumption; try lia;
      apply reset_game_inv in Hr;
      destruct Hr as (cols' & rows' & c & Hd' & Hsp & ->);
      rewrite Hd in Hd'; inversion Hd'; subst cols' rows';
      unfold _spawn_food in Hsp; rewrite Hd in Hsp; cbn [bind] in Hsp;
      apply spawn_loop_in_grid in Hsp; cbn [food]; apply Hsp. }
  assert (Hhalf : forall n, 0 < n -> 0 <= n / 2 < n).
  { intros n Hn. split; [apply Z.div_pos; lia | apply Z.div_lt_upper_bound; lia]. }
  split.
  - induction 1 as [g0 rng g rng' Hr | g c rng g' rng' Hreach IH Hex].
    + destruct (Hreset _ _ _ _ Hr) as (Hc & Hrw & Hsn & Hfood).
      split; [exact Hfood |]. rewrite Hsn. unfold start_snake. split.
      * eexists; eexists. split; [reflexivity |].
        unfold in_grid. cbn [fst snd].
        pose proof (Hhalf cols Hc). pose proof (Hhalf rows Hrw). lia.
      * intro H4. assert (2 <= cols / 2) by (apply Z.div_le_lower_bound; lia).
        pose proof (Hhalf cols Hc). pose proof (Hhalf rows Hrw).
        repeat constructor; cbn [fst snd]; lia.
    + destruct IH as (Hfood & (head0 & tl0 & Hsn0 & Hhead) & Hall).
      destruct c;
        try (apply exec_keeps in Hex; [| discriminate];
             destruct Hex as (-> & -> & _); eauto 10).
      cbn in Hex. apply update_cases in Hex.
      destruct Hex as [Hs | head tl cols' rows' Hs Hsn Hd' Hcol
                       | head tl cols' rows' c rng' Hs Hsn Hd' Hw Hi Hf Hsp
                       | head tl cols' rows' Hs Hsn Hd' Hw Hi Hf];
        try (rewrite Hd in Hd'; inversion Hd'; subst cols' rows'; clear Hd').
      * eauto 10.
      * unfold _update_high_score. destruct (_ >? _); cbn;
          rewrite snake_advanced, food_advanced; eauto 10.
      * cbn [_increase_speed set_speed_multiplier set_food set_score set_snake
             snake food].
        apply hits_wall_in_grid in Hw.
        unfold _spawn_food in Hsp. rewrite Hd in Hsp. cbn [bind] in Hsp.
        apply spawn_loop_in_grid in Hsp.
        split; [exact Hsp |]. split; [eauto |].
        intro H4. constructor; auto.
      * cbn [set_snake snake food]. rewrite food_advanced.
        apply hits_wall_in_grid in Hw.
        split; [exact Hfood |]. split.
        -- rewrite Hsn. cbn [removelast]. eauto.
        -- intro H4. apply Forall_removelast. constructor; auto.
  - intros g0 rng g rng' Hr.
    destruct (Hreset _ _ _ _ Hr) as (Hc & Hrw & Hsn & _).
    rewrite Hsn. unfold start_snake.
    pose proof (Hhalf cols Hc). pose proof (Hhalf rows Hrw). split.
    + intro Hall. inversion Hall as [| ? ? _ H1]; subst.
      inversion H1 as [| ? ? _ H2]; subst.
      inversion H2 as [| ? ? [Hx _] _]; subst. cbn [fst] in Hx.
      destruct (Z.le_gt_cases 4 cols) as [| Hlt]; [assumption |].
      assert (cols / 2 < 2) by (apply Z.div_lt_upper_bound; lia). lia.
    + intro H4. assert (2 <= cols / 2) by (apply Z.div_le_lower_bound; lia).
      repeat constructor; cbn [fst snd]; lia.
Qed.

(** X3: in every such game the food and the head of the snake are on
    the grid, and on a grid of four columns or more so is the whole
    snake; [reset_game] lays the snake fully on the grid exactly when
    the grid has four columns or more. *)
Theorem food_and_snake_on_grid cfg cols rows :
  get_grid_dimensions cfg = Ok (cols, rows) ->
  (forall g,
      reachable cfg g ->
      in_grid cols rows (food g) /\
      (exists head tl, snake g = head :: tl /\ in_grid cols rows head) /\
      (4 <= cols -> Forall (in_grid cols rows) (snake g))) /\
  (forall g0 rng g rng',
      reset_game cfg g0 rng = Ok (g, rng') ->
      (Forall (in_grid cols rows) (snake g) <-> 4 <= cols)).
Proof. apply on_grid_invariant. Qed.

(** ** Calls that return *)

Lemma reachable_length cfg g : reachable cfg g -> (3 <= length (snake g))%nat.
Proof.
  induction 1 as [g0 rng g rng' Hr | g c rng g' rng' Hreach IH Hex].
  - apply reset_game_inv in Hr. destruct Hr as (cols & rows & c & _ & _ & ->).
    cbn. lia.
  - destruct c;
      try (apply exec_keeps in Hex; [| discriminate];
           destruct Hex as (-> & _); exact IH).
    cbn in Hex. apply update_cases, eats_food_case in Hex.
    destruct Hex as [[_ ->] | [_ ->]]; lia.
Qed.

(** Away from the food [update] returns and uses no draw. *)
Lemma update_without_food cfg g rng head tl :
  snake g = head :: tl ->
  GRID_SIZE cfg <> 0 ->
  eats_food cfg g = false ->
  exists g', update cfg g rng = Ok (g', rng).
Proof.
  intros Hsn Hg He.
  destruct (update_returns cfg g rng head tl Hsn Hg) as (g' & rng' & H).
  { intro K. congruence. }
  exists g'. pose proof H as Hcase. apply update_cases in Hcase.
  destruct Hcase as [Hs | ? ? ? ? Hs Hsn' Hd Hcol
                     | ? ? ? ? c rng1 Hs Hsn' Hd Hw Hi Hf Hsp
                     | ? ? ? ? Hs Hsn' Hd Hw Hi Hf]; try exact H.
  exfalso.
  assert (K : update_case cfg g rng
                (_increase_speed
                   (set_food c
                      (set_score (score g + FOOD_POINTS cfg)
                         (set_snake (target g head0 :: snake g) (advanced g)))))
                rng1) by (eapply case_eat; eauto).
  apply eats_food_case in K. destruct K as [[K _] | [_ K]]; [congruence |].
  cbn in K. lia.
Qed.

(** On the food [update] is the food loop followed by assignments. *)
Lemma update_on_food cfg g rng head tl :
  snake g = head :: tl ->
  eats_food cfg g = true ->
  update cfg g rng =
  ('(c, rng') <- _spawn_food cfg (target g head :: snake g) rng ;;
   Ok (_increase_speed
         (set_food c
            (set_score (score g + FOOD_POINTS cfg)
               (set_snake (target g head :: snake g) (advanced g)))),
       rng')).
Proof.
  intros Hsn He. unfold eats_food in He. rewrite Hsn in He.
  destruct (get_grid_dimensions cfg) as [[cols rows] | |] eqn:Hd;
    try discriminate.
  apply andb_true_iff in He. destruct He as [He Hf].
  apply andb_true_iff in He. destruct He as [He Hi].
  apply andb_true_iff in He. destruct He as [Hs Hw].
  apply negb_true_iff in Hw, Hi.
  unfold update. rewrite Hs. cbn [negb]. fold (advanced g).
  rewrite snake_advanced, Hsn, Hd. cbn [bind]. fold (target g head).
  rewrite Hw, Hi. cbn [set_snake food snake score]. rewrite food_advanced, Hf.
  rewrite score_advanced. reflexivity.
Qed.

(** X4: on a game reached from a [reset_game], [update] never raises;
    it fails to return only inside the food loop, that is only when the
    head lands on the food, and otherwise returns without using a
    draw. *)
Theorem update_never_raises cfg g rng :
  reachable cfg g ->
  (forall e, update cfg g rng <> Raise e) /\
  (update cfg g rng = Spin -> eats_food cfg g = true) /\
  (eats_food cfg g = false -> exists g', update cfg g rng = Ok (g', rng)).
Proof.
  intro Hreach.
  destruct (reachable_grid _ _ Hreach) as (cols & rows & Hd & Hc & Hr).
  pose proof (GRID_SIZE_nonzero _ _ _ Hd) as Hg.
  pose proof (reachable_length _ _ Hreach) as Hlen.
  destruct (snake g) as [| head tl] eqn:Hsn; [cbn in Hlen; lia |].
  assert (Hquiet : eats_food cfg g = false ->
                   exists g', update cfg g rng = Ok (g', rng)).
  { intro He. rewrite <- Hsn in *.
    eapply update_without_food; eauto. }
  split; [| split].
  - intros e H. destruct (eats_food cfg g) eqn:He.
    + rewrite (update_on_food cfg g rng head tl Hsn He) in H.
      unfold _spawn_food in H. rewrite Hd in H. cbn [bind] in H.
      destruct (spawn_loop _ cols rows _ rng) as [[c rng'] | e' |] eqn:E;
        cbn in H; try discriminate.
      exact (spawn_loop_no_raise _ _ _ _ _ _ Hc Hr E).
    + destruct (Hquiet eq_refl) as [g' K]. congruence.
  - intro H. destruct (eats_food cfg g) eqn:He; [reflexivity |].
    destruct (Hquiet eq_refl) as [g' K]. congruence.
  - exact Hquiet.
Qed.

Lemma exec_keeps_frame_count cfg c g rng g' rng' :
  c <> Update ->
  exec cfg c g rng = Ok (g', rng') ->
  frame_count g' = frame_count g.
Proof.
  intros Hc H. destruct c; cbn in H; try congruence; inversion H; subst.
  - unfold start_game. now destruct (GameState_eqb _ _).
  - unfold toggle_pause. destruct (GameState_eqb _ PLAYING); [reflexivity |].
    now destruct (GameState_eqb _ PAUSED).
  - unfold update_direction. destruct hand_pos; [| reflexivity].
    destruct (snake g); [reflexivity |]. destruct (negb _); [reflexivity |].
    now destruct (direction_intent _ _ _).
Qed.

Lemma frame_count_advanced g : frame_count (advanced g) = frame_count g + 1.
Proof. unfold advanced, commit_direction. now destruct (negb _). Qed.

Lemma update_case_counters cfg g rng g' rng' :
  update_case cfg g rng g' rng' ->
  (frame_count g' = frame_count g /\ state g <> PLAYING \/
   frame_count g' = frame_count g + 1 /\ state g = PLAYING) /\
  (score g' = score g \/ score g' = score g + FOOD_POINTS cfg).
Proof.
  intro H.
  destruct H as [Hs | head tl cols rows Hs Hsn Hd Hcol
                 | head tl cols rows c rng' Hs Hsn Hd Hw Hi Hf Hsp
                 | head tl cols rows Hs Hsn Hd Hw Hi Hf].
  - auto.
  - unfold _update_high_score. destruct (_ >? _); cbn;
      rewrite frame_count_advanced, score_advanced; auto.
  - cbn. rewrite frame_count_advanced. auto.
  - cbn. rewrite frame_count_advanced, score_advanced. auto.
Qed.

(** X5: no call shortens the snake or turns the frame counter back, and
    with non-negative [FOOD_POINTS] none lowers the score; [update] adds
    one to the frame counter exactly when the game is PLAYING; the snake
    of a game reached from a [reset_game] has three cells or more. *)
Theorem progress_is_monotone cfg :
  (forall c g rng g' rng',
      exec cfg c g rng = Ok (g', rng') ->
      (length (snake g) <= length (snake g'))%nat /\
      frame_count g <= frame_count g' /\
      (0 <= FOOD_POINTS cfg -> score g <= score g')) /\
  (forall g rng g' rng',
      update cfg g rng = Ok (g', rng') ->
      frame_count g' = frame_count g + (if GameState_eqb (state g) PLAYING
                                        then 1 else 0)) /\
  (forall g, reachable cfg g -> (3 <= length (snake g))%nat).
Proof.
  split; [| split].
  - intros c g rng g' rng' Hex.
    destruct c;
      try (assert (Hfc : frame_count g' = frame_count g)
             by (eapply exec_keeps_frame_count; [| exact Hex]; discriminate);
           apply exec_keeps in Hex; [| discriminate];
           destruct Hex as (-> & _ & -> & _); rewrite Hfc; lia).
    cbn in Hex. apply update_cases in Hex.
    pose proof (eats_food_case _ _ _ _ _ Hex) as Hlen.
    pose proof (update_case_counters _ _ _ _ _ Hex) as [Hfc Hsc].
    split; [destruct Hlen as [[_ ->] | [_ ->]]; lia |].
    split; [destruct Hfc as [[-> _] | [-> _]]; lia |].
    intro Hfp. destruct Hsc as [-> | ->]; lia.
  - intros g rng g' rng' Hex. apply update_cases in Hex.
    apply update_case_counters in Hex. destruct Hex as [Hfc _].
    destruct Hfc as [[-> Hs] | [-> Hs]].
    + apply GameState_eqb_neq in Hs. rewrite Hs. lia.
    + rewrite Hs. reflexivity.
  - apply reachable_length.
Qed.

(** ** Turns *)

Lemma opposite_irreflexive d : d <> opposite d.
Proof. destruct d; discriminate. Qed.

(** X6: an [update] of a game that is PLAYING never turns the snake
    round: the committed direction afterwards is not the opposite of the
    one before; a pending direction that is not the opposite is always
    committed, and the pending direction itself is left as it was. *)
Theorem update_never_reverses cfg g rng g' rng' :
  state g = PLAYING ->
  update cfg g rng = Ok (g', rng') ->
  direction g' <> opposite (direction g) /\
  (next_direction g <> opposite (direction g) ->
   direction g' = next_direction g) /\
  next_direction g' = next_direction g.
Proof.
  intros Hs H. apply update_cases in H.
  pose proof (update_case_direction _ _ _ _ _ Hs H) as Hdir.
  assert (Hnd : next_direction g' = next_direction g).
  { destruct H as [Hs' | head tl cols rows Hs' Hsn Hd Hcol
                   | head tl cols rows c rng' Hs' Hsn Hd Hw Hi Hf Hsp
                   | head tl cols rows Hs' Hsn Hd Hw Hi Hf];
      try reflexivity; try (cbn; apply next_direction_advanced).
    unfold _update_high_score. destruct (_ >? _); cbn;
      apply next_direction_advanced. }
  rewrite Hdir. split; [| split; [| exact Hnd]].
  - rewrite direction_advanced. destruct (Cell_eqb _ _) eqn:E.
    + apply opposite_irreflexive.
    + intro K. apply reverse_test in K. congruence.
  - apply direction_advanced_other.
Qed.

Lemma new_head_back (n : Cell) (d d' : Direction) :
  new_head (new_head n d) d' = n -> d' = opposite d.
Proof.
  destruct n as [x y]. unfold new_head.
  destruct d, d'; cbn; intro H; inversion H; try lia; reflexivity.
Qed.

(** The committed direction is the one of the last step, while the
    game is not over. *)
Lemma reachable_neck cfg g :
  reachable cfg g ->
  state g <> GAME_OVER ->
  forall h n tl, snake g = h :: n :: tl -> h = new_head n (direction g).
Proof.
  induction 1 as [g0 rng g rng' Hr | g c rng g' rng' Hreach IH Hex].
  - apply reset_game_inv in Hr. destruct Hr as (cols & rows & c & _ & _ & ->).
    intros _ h n tl Hsn. cbn in Hsn. unfold start_snake in Hsn.
    inversion Hsn; subst. unfold new_head. cbn. f_equal; lia.
  - intros Hlive h n tl Hsn.
    destruct c;
      try (assert (Hst : state g' = GAME_OVER <-> state g = GAME_OVER)
             by (eapply exec_state_game_over; [| exact Hex]; discriminate);
           apply exec_keeps in Hex; [| discriminate];
           destruct Hex as (Hs1 & _ & _ & _ & Hd1 & _);
           rewrite Hd1; rewrite Hs1 in Hsn;
           apply (IH ltac:(intro K; apply Hlive, Hst, K) h n tl Hsn)).
    cbn in Hex. apply update_cases in Hex.
    destruct Hex as [Hs | head tl' cols rows Hs Hsn' Hd Hcol
                     | head tl' cols rows c rng' Hs Hsn' Hd Hw Hi Hf Hsp
                     | head tl' cols rows Hs Hsn' Hd Hw Hi Hf].
    + now apply (IH Hlive h n tl).
    + exfalso. apply Hlive. unfold _update_high_score.
      now destruct (_ >? _).
    + cbn [_increase_speed set_speed_multiplier set_food set_score set_snake
           snake direction] in *.
      rewrite Hsn' in Hsn. inversion Hsn; subst. reflexivity.
    + cbn [set_snake snake direction] in *.
      rewrite Hsn' in Hsn. cbn [removelast] in Hsn.
      destruct tl' as [| x tl']; [discriminate |].
      inversion Hsn; subst. reflexivity.
Qed.

(** X7: while a game reached from a [reset_game] is not over, the head
    is one step in the committed direction from the cell behind it, and
    the cell [update] moves the head to is never that cell: the snake
    cannot turn back into its own neck. *)
Theorem head_never_enters_neck cfg g h n tl :
  reachable cfg g ->
  state g <> GAME_OVER ->
  snake g = h :: n :: tl ->
  h = new_head n (direction g) /\ target g h <> n.
Proof.
  intros Hreach Hlive Hsn.
  pose proof (reachable_neck cfg g Hreach Hlive h n tl Hsn) as Hh.
  split; [exact Hh |].
  unfold target. rewrite Hh at 1. intro K. apply new_head_back in K.
  rewrite direction_advanced in K. destruct (Cell_eqb _ _) eqn:E.
  - now apply (opposite_irreflexive (direction g)).
  - apply reverse_test in K. congruence.
Qed.

(** ** The state machine *)

(** X8: a call changes the game state only along the four arrows of the
    machine, each made by one kind of call: [start_game] from MENU to
    PLAYING, [toggle_pause] between PLAYING and PAUSED, [update] from
    PLAYING to GAME_OVER; [update_direction] never changes it. *)
Theorem state_changes_by_transition cfg c g rng g' rng' :
  exec cfg c g rng = Ok (g', rng') ->
  transition c (state g) (state g').
Proof.
  intro Hex. destruct c; cbn in Hex.
  - inversion Hex; subst. unfold start_game.
    destruct (state g) eqn:E; cbn; rewrite ?E; constructor.
  - inversion Hex; subst. unfold toggle_pause.
    destruct (state g) eqn:E; cbn; rewrite ?E; constructor.
  - inversion Hex; subst.
    destruct (update_direction_fields cfg hand_pos g) as (_ & _ & _ & _ & _ & ->).
    constructor.
  - apply update_cases in Hex.
    destruct Hex as [Hs | head tl cols rows Hs Hsn Hd Hcol
                     | head tl cols rows c rng' Hs Hsn Hd Hw Hi Hf Hsp
                     | head tl cols rows Hs Hsn Hd Hw Hi Hf].
    + constructor.
    + rewrite Hs. unfold _update_high_score. destruct (_ >? _); cbn; constructor.
    + cbn. rewrite state_advanced. constructor.
    + cbn. rewrite state_advanced. constructor.
Qed.

(** X9: pausing and resuming gives back the very game that was paused:
    [toggle_pause] twice is the identity on every game, and a second
    [start_game] changes nothing. *)
Theorem pause_resume_round_trip g :
  toggle_pause (toggle_pause g) = g /\
  start_game (start_game g) = start_game g.
Proof.
  destruct g as [st sc hs fc sp sn d nd fd].
  split; destruct st; reflexivity.
Qed.

(** ** Intents *)

Lemma update_direction_recorded cfg hand g :
  update_direction cfg hand g =
  match recorded_intent cfg hand (snake g) (state g) with
  | Some d => set_next_direction d g
  | None => g
  end.
Proof.
  unfold update_direction, recorded_intent.
  destruct hand as [hand |]; [| reflexivity].
  destruct (snake g) as [| head tl]; [reflexivity |].
  destruct (GameState_eqb (state g) PLAYING); reflexivity.
Qed.

Lemma update_direction_twice cfg h1 h2 g :
  (update_direction cfg h2 (update_direction cfg h1 g)
   = update_direction cfg h2 g \/
   (update_direction cfg h2 (update_direction cfg h1 g)
    = update_direction cfg h1 g /\
    update_direction cfg h2 g = g)) /\
  update_direction cfg h1 (update_direction cfg h1 g)
  = update_direction cfg h1 g /\
  direction (update_direction cfg h2 (update_direction cfg h1 g)) = direction g.
Proof.
  destruct (update_direction_fields cfg h1 g) as (Hsn1 & _ & _ & _ & Hd1 & Hst1).
  assert (Hcomp : forall h,
             update_direction cfg h (update_direction cfg h1 g) =
             match recorded_intent cfg h (snake g) (state g) with
             | Some d => set_next_direction d g
             | None => update_direction cfg h1 g
             end).
  { intro h. rewrite (update_direction_recorded cfg h (update_direction cfg h1 g)).
    rewrite Hsn1, Hst1.
    destruct (recorded_intent cfg h (snake g) (state g)); [| reflexivity].
    rewrite (update_direction_recorded cfg h1 g).
    destruct (recorded_intent cfg h1 (snake g) (state g)); reflexivity. }
  split; [| split].
  - rewrite Hcomp, (update_direction_recorded cfg h2 g).
    destruct (recorded_intent cfg h2 (snake g) (state g)); auto.
  - rewrite Hcomp, (update_direction_recorded cfg h1 g).
    destruct (recorded_intent cfg h1 (snake g) (state g)); reflexivity.
  - destruct (update_direction_fields cfg h2 (update_direction cfg h1 g))
      as (_ & _ & _ & _ & -> & _).
    exact Hd1.
Qed.

(** X10: of two calls of [update_direction] in a row the later one
    decides whenever it records an intent, and else the earlier one
    stands.  On a game that is PLAYING, a later hand within the
    threshold of the head leaves the game as the earlier call made it,
    pending direction included, and a later hand beyond the threshold
    makes the pending direction that of its own dominant axis, whatever
    the earlier call recorded; a later call without a hand, or on a game
    that is not PLAYING, leaves the game as the earlier call made it.
    The outcome is always that of one of the two calls alone, a call
    repeated changes nothing more, and no call touches the committed
    direction. *)
Theorem later_intent_wins cfg h1 h2 g :
  (update_direction cfg h2 (update_direction cfg h1 g)
   = update_direction cfg h2 g \/
   (update_direction cfg h2 (update_direction cfg h1 g)
    = update_direction cfg h1 g /\
    update_direction cfg h2 g = g)) /\
  update_direction cfg h1 (update_direction cfg h1 g)
  = update_direction cfg h1 g /\
  direction (update_direction cfg h2 (update_direction cfg h1 g)) = direction g /\
  (forall hand2 head tl,
      h2 = Some hand2 ->
      state g = PLAYING ->
      snake g = head :: tl ->
      let dx := fst hand2 - fst (head_screen cfg head) in
      let dy := snd hand2 - snd (head_screen cfg head) in
      let T := DIRECTION_THRESHOLD cfg in
      (Z.max (Z.abs dx) (Z.abs dy) <= T ->
       update_direction cfg h2 (update_direction cfg h1 g)
       = update_direction cfg h1 g /\
       next_direction (update_direction cfg h2 (update_direction cfg h1 g))
       = next_direction (update_direction cfg h1 g)) /\
      (T < Z.max (Z.abs dx) (Z.abs dy) ->
       (Z.abs dy < Z.abs dx -> 0 < dx ->
        next_direction (update_direction cfg h2 (update_direction cfg h1 g))
        = RIGHT) /\
       (Z.abs dy < Z.abs dx -> dx <= 0 ->
        next_direction (update_direction cfg h2 (update_direction cfg h1 g))
        = LEFT) /\
       (Z.abs dx <= Z.abs dy -> 0 < dy ->
        next_direction (update_direction cfg h2 (update_direction cfg h1 g))
        = DOWN) /\
       (Z.abs dx <= Z.abs dy -> dy <= 0 ->
        next_direction (update_direction cfg h2 (update_direction cfg h1 g))
        = UP))) /\
  (h2 = None \/ state g <> PLAYING \/ snake g = [] ->
   update_direction cfg h2 (update_direction cfg h1 g)
   = update_direction cfg h1 g).
Proof.
  destruct (update_direction_twice cfg h1 h2 g) as (Hone & Hidem & Hdir).
  destruct (update_direction_fields cfg h1 g) as (Hsn1 & _ & _ & _ & _ & Hst1).
  split; [exact Hone |]. split; [exact Hidem |]. split; [exact Hdir |].
  split.
  - intros hand2 head tl -> Hs Hsn dx dy T.
    pose proof (update_direction_by_axis cfg (update_direction cfg h1 g) hand2
                  head tl ltac:(congruence) ltac:(congruence)) as H.
    cbv zeta in H. fold dx dy T in H. destruct H as (_ & Hband & Hout).
    split.
    + intro Hmax. rewrite (Hband Hmax). split; reflexivity.
    + intro Hmax. destruct (Hout Hmax) as (HR & HL & HD & HU).
      repeat split; intros Ha Hb.
      * now rewrite (HR Ha Hb).
      * now rewrite (HL Ha Hb).
      * now rewrite (HD Ha Hb).
      * now rewrite (HU Ha Hb).
  - intros [-> | [Hs | Hsn]].
    + reflexivity.
    + unfold update_direction at 1. destruct h2 as [hand2 |]; [| reflexivity].
      destruct (snake (update_direction cfg h1 g)); [reflexivity |].
      rewrite Hst1. apply GameState_eqb_neq in Hs. now rewrite Hs.
    + unfold update_direction at 1. destruct h2 as [hand2 |]; [| reflexivity].
      now rewrite Hsn1, Hsn.
Qed.

(** ** The food loop, draw by draw *)

Lemma draw_cells_cons cols rows rx ry rest :
  draw_cells cols rows (rx :: ry :: rest)
  = (rx mod cols, ry mod rows) :: draw_cells cols rows rest.
Proof. reflexivity. Qed.

(** With fuel to spare the loop returns the first drawn cell that is
    off the snake, with the draws after it, and spins when there is
    none. *)
Lemma spawn_loop_first_free fuel cols rows s rng :
  0 < cols -> 0 < rows ->
  (length rng < fuel)%nat ->
  match spawn_loop fuel cols rows s rng with
  | Ok (c, rng') =>
      exists k,
        nth_error (draw_cells cols rows rng) k = Some c /\
        ~ In c s /\
        Forall (fun c' => In c' s) (firstn k (draw_cells cols rows rng)) /\
        rng' = skipn (2 * S k) rng
  | Raise _ => False
  | Spin => Forall (fun c' => In c' s) (draw_cells cols rows rng)
  end.
Proof.
  intros Hc Hr. revert rng.
  induction fuel as [| fuel IH]; intros rng Hlen; [lia |].
  cbn [spawn_loop]. rewrite randint_zero.
  destruct (Z.leb_spec cols 0); [lia |].
  destruct rng as [| rx rng]; [constructor |]. cbn [bind].
  rewrite randint_zero. destruct (Z.leb_spec rows 0); [lia |].
  destruct rng as [| ry rng]; [constructor |]. cbn [bind].
  rewrite draw_cells_cons.
  destruct (cell_in (rx mod cols, ry mod rows) s) eqn:E; cbn [negb].
  - apply cell_in_In in E.
    specialize (IH rng ltac:(cbn [length] in Hlen; lia)).
    destruct (spawn_loop fuel cols rows s rng) as [[c rng'] | e |].
    + destruct IH as (k & Hk & Hfree & Hbefore & Hrest).
      exists (S k). repeat split; try assumption.
      * cbn [firstn]. now constructor.
      * rewrite Hrest. replace (2 * S (S k))%nat with (S (S (2 * S k))) by lia.
        reflexivity.
    + exact IH.
    + now constructor.
  - apply cell_in_not_In in E. exists 0%nat. repeat split; try assumption.
    constructor.
Qed.

(** X11: on a grid with a column and a row, [_spawn_food] never raises;
    when it returns, the cell is on the grid and is the first of the
    drawn cells that is off the snake, and the draws left are those
    after it; it fails to return exactly when every drawn cell is on
    the snake. *)
Theorem spawn_food_is_first_free_draw cfg cols rows s rng :
  get_grid_dimensions cfg = Ok (cols, rows) ->
  0 < cols -> 0 < rows ->
  match _spawn_food cfg s rng with
  | Ok (c, rng') =>
      in_grid cols rows c /\
      exists k,
        nth_error (draw_cells cols rows rng) k = Some c /\
        ~ In c s /\
        Forall (fun c' => In c' s) (firstn k (draw_cells cols rows rng)) /\
        rng' = skipn (2 * S k) rng
  | Raise _ => False
  | Spin => Forall (fun c' => In c' s) (draw_cells cols rows rng)
  end.
Proof.
  intros Hd Hc Hr. unfold _spawn_food. rewrite Hd. cbn [bind].
  pose proof (spawn_loop_first_free (S (length rng)) cols rows s rng Hc Hr
                (Nat.lt_succ_diag_r _)) as H.
  destruct (spawn_loop (S (length rng)) cols rows s rng) as [[c rng'] | e |] eqn:E;
    try exact H.
  split; [| exact H]. eapply spawn_loop_in_grid. exact E.
Qed.

(** X12: when the snake covers the whole grid, [_spawn_food] does not
    return, whatever the draws. *)
Theorem spawn_food_spins_on_full_grid cfg cols rows s rng :
  get_grid_dimensions cfg = Ok (cols, rows) ->
  0 < cols -> 0 < rows ->
  (forall c, in_grid cols rows c -> In c s) ->
  _spawn_food cfg s rng = Spin.
Proof.
  intros Hd Hc Hr Hfull. unfold _spawn_food. rewrite Hd. cbn [bind].
  destruct (spawn_loop (S (length rng)) cols rows s rng) as [[c rng'] | e |] eqn:E.
  - exfalso. apply (spawn_loop_free _ _ _ _ _ _ _ E).
    apply Hfull. eapply spawn_loop_in_grid. exact E.
  - exfalso. exact (spawn_loop_no_raise _ _ _ _ _ _ Hc Hr E).
  - reflexivity.
Qed.

(** * Further properties of the hand tracker *)

Lemma clamp_to_frame_in_frame w h p : in_frame w h (clamp_to_frame w h p).
Proof. unfold in_frame, clamp_to_frame. cbn [fst snd]. lia. Qed.

Lemma deque_append_Forall {A : Type} (P : A -> Prop) maxlen (q : list A) x :
  Forall P q -> P x -> Forall P (deque_append maxlen q x).
Proof.
  intros Hq Hx. unfold deque_append.
  assert (H : Forall P (q ++ [x])) by (apply Forall_app; auto).
  destruct (_ <? _); [| exact H].
  destruct (q ++ [x]); [exact H | now inversion H].
Qed.

Lemma feed_in_frame cfg w h tips t :
  Forall (in_frame w h) (position_history t) ->
  Forall (in_frame w h) (position_history (feed cfg w h tips t)).
Proof.
  intro Ht. induction tips as [| tip tips IH] using rev_ind; [exact Ht |].
  rewrite feed_app. destruct tip as [p |]; cbn [detect_hand fst position_history].
  - apply deque_append_Forall; [exact IH | apply clamp_to_frame_in_frame].
  - exact IH.
Qed.

Lemma sum_bounds (M : Z) (l : list Z) :
  Forall (fun x => 0 <= x <= M) l ->
  0 <= sum l <= Z.of_nat (length l) * M.
Proof.
  unfold sum. induction 1 as [| x l Hx _ IH]; cbn [fold_right length]; [lia |].
  rewrite Nat2Z.inj_succ. lia.
Qed.

(** The truncated mean of numbers between 0 and [M] is between 0 and
    [M]. *)
Lemma mean_bounds (M : Z) (l : list Z) :
  l <> [] ->
  Forall (fun x => 0 <= x <= M) l ->
  0 <= Z.quot (sum l) (Z.of_nat (length l)) <= M.
Proof.
  intros Hne Hl. pose proof (sum_bounds M l Hl) as Hs.
  assert (Hn : 0 < Z.of_nat (length l))
    by (destruct l; [contradiction | cbn [length]; lia]).
  rewrite Z.quot_div_nonneg by lia. split.
  - apply Z.div_pos; lia.
  - apply Z.div_le_upper_bound; lia.
Qed.

Lemma mean_bounds_map {A : Type} (f : A -> Z) (M : Z) (l : list A) :
  l <> [] ->
  Forall (fun a => 0 <= f a <= M) l ->
  0 <= Z.quot (sum (map f l)) (Z.of_nat (length l)) <= M.
Proof.
  intros Hne Hl. rewrite <- (length_map f l). apply mean_bounds.
  - destruct l; [contradiction | discriminate].
  - now apply Forall_map.
Qed.

(** X13: on frames of one size, every position [detect_hand] returns
    and, once the history holds only positions within the frame, every
    smoothed position lies within the frame: between 0 and the width
    less one across, between 0 and the height less one down. *)
Theorem positions_stay_in_frame cfg w h tips t :
  Forall (in_frame w h) (position_history t) ->
  (forall p, get_smoothed_position (feed cfg w h tips t) = Some p ->
             in_frame w h p) /\
  (forall tip p, fst (snd (detect_hand cfg w h tip (feed cfg w h tips t))) = Some p ->
                 in_frame w h p) /\
  Forall (in_frame w h) (position_history (feed cfg w h tips t)).
Proof.
  intro Ht. pose proof (feed_in_frame cfg w h tips t Ht) as Hfed.
  split; [| split; [| exact Hfed]].
  - intros p Hp.
    destruct (position_history (feed cfg w h tips t)) as [| q l] eqn:E.
    + unfold get_smoothed_position in Hp. rewrite E in Hp. discriminate.
    + rewrite get_smoothed_position_nonempty in Hp by (rewrite E; discriminate).
      inversion Hp; subst p. rewrite <- E in *. clear Hp.
      assert (Hne : position_history (feed cfg w h tips t) <> [])
        by (rewrite E; discriminate).
      split; cbn [fst snd]; apply mean_bounds_map; try exact Hne;
        (eapply Forall_impl; [| exact Hfed]); intros a Ha; apply Ha.
  - intros tip p Hp. destruct tip as [q |]; cbn in Hp; [| discriminate].
    inversion Hp; subst. apply clamp_to_frame_in_frame.
Qed.

Lemma recent_short {A : Type} (capacity : nat) (l : list A) :
  (length l <= capacity)%nat -> recent capacity l = l.
Proof.
  intro H. unfold recent. replace (length l - capacity)%nat with 0%nat by lia.
  reflexivity.
Qed.

(** The history after more frames, from any tracker whose history fits
    the window. *)
Lemma feed_history_from cfg w h tips t :
  0 <= GESTURE_SMOOTHING_WINDOW cfg ->
  Z.of_nat (length (position_history t)) <= GESTURE_SMOOTHING_WINDOW cfg ->
  position_history (feed cfg w h tips t)
  = recent (Z.to_nat (GESTURE_SMOOTHING_WINDOW cfg))
           (position_history t ++ pushed w h tips).
Proof.
  intros Hw Ht. induction tips as [| tip tips IH] using rev_ind.
  - cbn [feed fold_left pushed flat_map]. rewrite app_nil_r.
    symmetry. apply recent_short. lia.
  - rewrite feed_app. unfold pushed. rewrite flat_map_app. fold (pushed w h tips).
    cbn [flat_map]. rewrite app_nil_r.
    destruct tip as [p |]; cbn [detect_hand fst position_history].
    + rewrite IH, app_assoc. rewrite <- deque_append_recent.
      now rewrite Z2Nat.id by assumption.
    + rewrite app_nil_r. exact IH.
Qed.

Lemma recent_app_long {A : Type} (capacity : nat) (a b : list A) :
  (capacity <= length b)%nat -> recent capacity (a ++ b) = recent capacity b.
Proof.
  intro H. unfold recent. rewrite skipn_app, length_app.
  rewrite skipn_all2 by lia. cbn [app]. f_equal. lia.
Qed.

Lemma recent_repeat {A : Type} (capacity k : nat) (x : A) :
  (capacity <= k)%nat -> recent capacity (repeat x k) = repeat x capacity.
Proof.
  intro H. unfold recent. rewrite repeat_length.
  replace k with ((k - capacity) + capacity)%nat at 2 by lia.
  rewrite repeat_app, skipn_app, repeat_length.
  rewrite skipn_all2 by (rewrite repeat_length; lia).
  replace (k - capacity - (k - capacity))%nat with 0%nat by lia.
  reflexivity.
Qed.

Lemma pushed_repeat w h p k :
  pushed w h (repeat (Some p) k) = repeat (clamp_to_frame w h p) k.
Proof. induction k as [| k IH]; [reflexivity |]. cbn. now rewrite <- IH. Qed.

Lemma sum_repeat (a : Z) (n : nat) : sum (repeat a n) = Z.of_nat n * a.
Proof.
  unfold sum. induction n as [| n IH]; [reflexivity |].
  cbn [repeat fold_right]. rewrite IH. lia.
Qed.

(** X14: a steady hand is found after one window: once the tip has been
    seen at the same pixel on as many frames in a row as the window is
    long (one at least), the smoothed position is exactly that pixel,
    clamped to the frame, whatever the history held before. *)
Theorem steady_hand_is_tracked_exactly cfg w h p (k : nat) t :
  1 <= GESTURE_SMOOTHING_WINDOW cfg ->
  Z.of_nat (length (position_history t)) <= GESTURE_SMOOTHING_WINDOW cfg ->
  GESTURE_SMOOTHING_WINDOW cfg <= Z.of_nat k ->
  get_smoothed_position (feed cfg w h (repeat (Some p) k) t)
  = Some (clamp_to_frame w h p).
Proof.
  intros Hw Ht Hk.
  set (W := Z.to_nat (GESTURE_SMOOTHING_WINDOW cfg)).
  assert (HW : (1 <= W)%nat) by (unfold W; lia).
  assert (Hh : position_history (feed cfg w h (repeat (Some p) k) t)
               = repeat (clamp_to_frame w h p) W).
  { rewrite feed_history_from by lia. fold W. rewrite pushed_repeat.
    rewrite recent_app_long by (rewrite repeat_length; unfold W; lia).
    apply recent_repeat. unfold W. lia. }
  rewrite get_smoothed_position_nonempty
    by (rewrite Hh; destruct W; [lia | discriminate]).
  rewrite Hh, !map_repeat, !sum_repeat, repeat_length.
  rewrite !(Z.mul_comm (Z.of_nat W)), !Z.quot_mul by lia.
  now destruct (clamp_to_frame w h p).
Qed.

(** * Further properties of the application loop *)

(** ** Debounce, for any gestures *)

(** What one pass of the pause handling does to the cooldown. *)
Lemma handle_pause_gesture_step is_fist app :
  let '(app', toggled) := handle_pause_gesture is_fist app in
  hand_tracker app' = hand_tracker app /\ running app' = running app /\
  (toggled = true ->
   is_fist = true /\ pause_gesture_cooldown app <= 0 /\
   pause_gesture_cooldown app' = 29 /\
   game app' = toggle_pause (game app)) /\
  (toggled = false ->
   game app' = game app /\
   (is_fist = false \/ 0 < pause_gesture_cooldown app) /\
   pause_gesture_cooldown app'
   = (if 0 <? pause_gesture_cooldown app then pause_gesture_cooldown app - 1
      else pause_gesture_cooldown app)).
Proof.
  unfold handle_pause_gesture.
  destruct is_fist; cbn [andb].
  - destruct (Z.leb_spec (pause_gesture_cooldown app) 0) as [Hle | Hgt].
    + cbn. repeat split; auto; discriminate.
    + destruct (Z.gtb_spec (pause_gesture_cooldown app) 0); [| lia].
      destruct (Z.ltb_spec 0 (pause_gesture_cooldown app)); [| lia].
      cbn. repeat split; auto; discriminate.
  - destruct (Z.gtb_spec (pause_gesture_cooldown app) 0),
             (Z.ltb_spec 0 (pause_gesture_cooldown app)); try lia;
      cbn; repeat split; auto; discriminate.
Qed.

Lemma spaced_cons gap a ticks :
  Forall (fun t => (a + gap <= t)%nat) ticks ->
  spaced gap ticks -> spaced gap (a :: ticks).
Proof.
  intros Hall Hsp. destruct ticks as [| b ticks]; [exact I |].
  split; [now inversion Hall | exact Hsp].
Qed.

Lemma pause_run_spaced fists :
  forall (t : nat) (app : SnakeGameApp),
    let ticks := snd (pause_run t fists app) in
    spaced 30 ticks /\
    Forall (fun k => (t + Z.to_nat (pause_gesture_cooldown app) <= k
                      < t + length fists)%nat /\
                     nth_error fists (k - t) = Some true) ticks.
Proof.
  induction fists as [| f fists IH]; intros t app; cbn zeta.
  - cbn. split; [exact I | constructor].
  - cbn [pause_run].
    pose proof (handle_pause_gesture_step f app) as Hstep.
    destruct (handle_pause_gesture f app) as [app1 toggled].
    destruct Hstep as (_ & _ & Hon & Hoff).
    specialize (IH (S t) app1). cbn zeta in IH.
    destruct (pause_run (S t) fists app1) as [app2 ticks]. cbn [snd] in *.
    destruct IH as [Hsp Hall]. destruct toggled.
    + destruct (Hon eq_refl) as (-> & Hle & Hcd & _). rewrite Hcd in Hall.
      split.
      * apply spaced_cons; [| exact Hsp].
        eapply Forall_impl; [| exact Hall]. cbn. intros k [Hk _].
        change (Z.to_nat 29) with 29%nat in Hk. lia.
      * constructor.
        -- replace (Z.to_nat (pause_gesture_cooldown app)) with 0%nat by lia.
           cbn [length]. replace (t - t)%nat with 0%nat by lia.
           split; [lia | reflexivity].
        -- eapply Forall_impl; [| exact Hall]. cbn. intros k [Hk Hnth].
           change (Z.to_nat 29) with 29%nat in Hk. split; [lia |].
           replace (k - t)%nat with (S (k - S t)) by lia. exact Hnth.
    + destruct (Hoff eq_refl) as (_ & _ & Hcd). split; [exact Hsp |].
      eapply Forall_impl; [| exact Hall]. cbn. intros k [Hk Hnth].
      rewrite Hcd in Hk.
      destruct (Z.ltb_spec 0 (pause_gesture_cooldown app)).
      * split; [lia |].
        replace (k - t)%nat with (S (k - S t)) by lia. exact Hnth.
      * split; [lia |].
        replace (k - t)%nat with (S (k - S t)) by lia. exact Hnth.
Qed.

(** X15: whatever the fist verdicts of a run of frames, two calls of
    [toggle_pause] are never less than 30 frames apart; a call falls
    only on a frame with a fist, and none falls before the cooldown
    pending at the start has run out. *)
Theorem pause_toggles_are_spaced (fists : list bool) (app : SnakeGameApp) :
  spaced 30 (toggle_ticks fists app) /\
  Forall (fun k => (1 + Z.to_nat (pause_gesture_cooldown app) <= k
                    <= length fists)%nat /\
                   nth_error fists (k - 1) = Some true)
         (toggle_ticks fists app).
Proof.
  unfold toggle_ticks.
  destruct (pause_run_spaced fists 1 app) as [Hsp Hall]. split; [exact Hsp |].
  eapply Forall_impl; [| exact Hall]. cbn. intros k [Hk Hnth].
  split; [lia | exact Hnth].
Qed.

(** ** Keys *)

Lemma reset_then_start cfg g rng g' rng' :
  reset_game cfg g rng = Ok (g', rng') ->
  exists cols rows c,
    get_grid_dimensions cfg = Ok (cols, rows) /\
    start_game g' = mkSnakeGame PLAYING 0 (high_score g) 0 1%Q
                                (start_snake cols rows) RIGHT RIGHT c.
Proof.
  intro H. apply reset_game_inv in H.
  destruct H as (cols & rows & c & Hd & _ & ->). exists cols, rows, c.
  split; [exact Hd | reflexivity].
Qed.

Lemma keyboard_by_key cfg k app rng :
  (Z.land k 255 = 32 ->
   (state (game app) = MENU ->
    _handle_keyboard_input cfg k app rng
    = Ok (set_game (set_state PLAYING (game app)) app, rng)) /\
   (state (game app) = GAME_OVER ->
    forall app' rng',
      _handle_keyboard_input cfg k app rng = Ok (app', rng') ->
      exists cols rows c,
        get_grid_dimensions cfg = Ok (cols, rows) /\
        app' = set_game (mkSnakeGame PLAYING 0 (high_score (game app)) 0 1%Q
                                     (start_snake cols rows) RIGHT RIGHT c) app) /\
   (state (game app) = PLAYING \/ state (game app) = PAUSED ->
    _handle_keyboard_input cfg k app rng = Ok (app, rng))) /\
  (Z.land k 255 = 113 ->
   _handle_keyboard_input cfg k app rng = Ok (set_running false app, rng)) /\
  (Z.land k 255 <> 32 -> Z.land k 255 <> 113 ->
   _handle_keyboard_input cfg k app rng = Ok (app, rng)) /\
  _handle_keyboard_input cfg (k mod 256) app rng
  = _handle_keyboard_input cfg k app rng.
Proof.
  unfold _handle_keyboard_input. repeat split.
  - intros Hs. rewrite H, Hs. cbn. unfold start_game. now rewrite Hs.
  - intros Hs app' rng' Hk. rewrite H, Hs in Hk. cbn in Hk.
    inv_bind Hk. destruct a as [g1 rng1]. inversion Hk; subst.
    destruct (reset_then_start _ _ _ _ _ Hc) as (cols & rows & c & Hd & ->).
    eauto.
  - intros [Hs | Hs]; rewrite H, Hs; reflexivity.
  - intros ->. reflexivity.
  - intros H32 H113.
    destruct (Z.eqb_spec (Z.land k 255) 113); [contradiction |].
    destruct (Z.eqb_spec (Z.land k 255) 32); [contradiction |]. reflexivity.
  - replace (Z.land (k mod 256) 255) with (Z.land k 255); [reflexivity |].
    change 255 with (Z.ones 8). rewrite !Z.land_ones by lia.
    change (2 ^ 8) with 256. now rewrite Z.mod_mod by lia.
Qed.

(** X16: what the keys do.  The space bar starts a game from MENU: the
    state becomes PLAYING and nothing else changes.  From GAME_OVER it
    starts a fresh game, and does return when the draws offer a free
    cell: the state is PLAYING, the score 0, the frame counter 0, the
    snake the three initial cells heading RIGHT, the food off the snake,
    the high score kept.  On a game PLAYING or PAUSED it does nothing.
    The key q clears [running] and leaves the game alone.  Any other
    key, and no key, changes nothing.  Only the low eight bits of what
    [cv2.waitKey] returns count. *)
Theorem keys_start_restart_quit cfg k app rng :
  ((Z.land k 255 = 32 ->
    (state (game app) = MENU ->
     _handle_keyboard_input cfg k app rng
     = Ok (set_game (set_state PLAYING (game app)) app, rng)) /\
    (state (game app) = GAME_OVER ->
     forall app' rng',
       _handle_keyboard_input cfg k app rng = Ok (app', rng') ->
       exists cols rows c,
         get_grid_dimensions cfg = Ok (cols, rows) /\
         app' = set_game (mkSnakeGame PLAYING 0 (high_score (game app)) 0 1%Q
                                      (start_snake cols rows) RIGHT RIGHT c) app) /\
    (state (game app) = PLAYING \/ state (game app) = PAUSED ->
     _handle_keyboard_input cfg k app rng = Ok (app, rng))) /\
   (Z.land k 255 = 113 ->
    _handle_keyboard_input cfg k app rng = Ok (set_running false app, rng)) /\
   (Z.land k 255 <> 32 -> Z.land k 255 <> 113 ->
    _handle_keyboard_input cfg k app rng = Ok (app, rng)) /\
   _handle_keyboard_input cfg (k mod 256) app rng
   = _handle_keyboard_input cfg k app rng) /\
  (Z.land k 255 = 32 ->
   state (game app) = MENU ->
   exists app',
     _handle_keyboard_input cfg k app rng = Ok (app', rng) /\
     state (game app') = PLAYING /\
     snake (game app') = snake (game app) /\
     food (game app') = food (game app) /\
     score (game app') = score (game app) /\
     high_score (game app') = high_score (game app) /\
     direction (game app') = direction (game app) /\
     running app' = running app /\
     pause_gesture_cooldown app' = pause_gesture_cooldown app /\
     hand_tracker app' = hand_tracker app) /\
  (Z.land k 255 = 32 ->
   state (game app) = GAME_OVER ->
   (forall app' rng',
       _handle_keyboard_input cfg k app rng = Ok (app', rng') ->
       state (game app') = PLAYING /\
       score (game app') = 0 /\
       frame_count (game app') = 0 /\
       high_score (game app') = high_score (game app) /\
       direction (game app') = RIGHT /\
       next_direction (game app') = RIGHT /\
       (exists cols rows,
           get_grid_dimensions cfg = Ok (cols, rows) /\
           snake (game app') = start_snake cols rows) /\
       ~ In (food (game app')) (snake (game app')) /\
       running app' = running app /\
       pause_gesture_cooldown app' = pause_gesture_cooldown app /\
       hand_tracker app' = hand_tracker app) /\
   (forall cols rows,
       get_grid_dimensions cfg = Ok (cols, rows) ->
       offers_free_cell cfg (start_snake cols rows) rng ->
       exists app' rng',
         _handle_keyboard_input cfg k app rng = Ok (app', rng') /\
         state (game app') = PLAYING /\
         score (game app') = 0 /\
         high_score (game app') = high_score (game app) /\
         snake (game app') = start_snake cols rows)) /\
  (Z.land k 255 = 113 ->
   exists app',
     _handle_keyboard_input cfg k app rng = Ok (app', rng) /\
     running app' = false /\
     game app' = game app /\
     pause_gesture_cooldown app' = pause_gesture_cooldown app /\
     hand_tracker app' = hand_tracker app).
Proof.
  split; [apply keyboard_by_key |].
  split; [| split].
  - intros Hk Hs. eexists. split.
    + unfold _handle_keyboard_input. rewrite Hk, Hs. reflexivity.
    + unfold start_game. rewrite Hs. cbn. auto 12.
  - intros Hk Hs.
    assert (Hrun : _handle_keyboard_input cfg k app rng =
                   ('(g, rng') <- reset_game cfg (game app) rng ;;
                    Ok (set_game (start_game g) app, rng'))).
    { unfold _handle_keyboard_input. rewrite Hk, Hs. reflexivity. }
    split.
    + intros app' rng' H. rewrite Hrun in H. inv_bind H.
      destruct a as [g1 rng1]. inversion H; subst app' rng'. clear H.
      pose proof Hc as Hinv. apply reset_game_inv in Hinv.
      destruct Hinv as (cols & rows & c & Hd & Hsp & ->).
      apply _spawn_food_free in Hsp.
      cbn. repeat split; try reflexivity; [eauto | exact Hsp].
    + intros cols rows Hd Hfree.
      destruct (reset_game_returns cfg (game app) rng cols rows Hd Hfree)
        as (c & rng' & Hreset).
      eexists; eexists. split.
      * rewrite Hrun, Hreset. reflexivity.
      * cbn. auto.
  - intros Hk. eexists. split.
    + unfold _handle_keyboard_input. rewrite Hk. reflexivity.
    + cbn. auto.
Qed.

(** ** One pass of the loop *)

(** The body of the loop, stage by stage. *)
Lemma loop_body_stages cfg fr app rng :
  loop_body cfg fr app rng =
  (let tracker :=
     fst (detect_hand cfg (frame_w fr) (frame_h fr) (index_tip fr)
                      (hand_tracker app)) in
   let app1 :=
     fst (handle_pause_gesture (is_fist fr) (set_hand_tracker tracker app)) in
   let g1 :=
     update_direction cfg (get_smoothed_position tracker) (game app1) in
   '(g, rng') <- update cfg g1 rng ;;
   _handle_keyboard_input cfg (waitKey fr) (set_game g app1) rng').
Proof.
  unfold loop_body.
  destruct (detect_hand cfg (frame_w fr) (frame_h fr) (index_tip fr)
                        (hand_tracker app)) as [tracker out].
  cbn [fst]. cbn [set_hand_tracker hand_tracker].
  destruct (handle_pause_gesture (is_fist fr) _) as [app1 toggled]. cbn [fst].
  destruct (get_smoothed_position tracker); reflexivity.
Qed.

Lemma keyboard_keeps cfg k app rng app' rng' :
  _handle_keyboard_input cfg k app rng = Ok (app', rng') ->
  pause_gesture_cooldown app' = pause_gesture_cooldown app /\
  hand_tracker app' = hand_tracker app /\
  (Z.land k 255 <> 32 -> game app' = game app /\ rng' = rng).
Proof.
  unfold _handle_keyboard_input. intro H.
  destruct (Z.eqb_spec (Z.land k 255) 113).
  { inversion H; subst. cbn. auto. }
  destruct (Z.eqb_spec (Z.land k 255) 32).
  2:{ inversion H; subst. auto. }
  destruct (GameState_value (state (game app)) =? 0).
  { inversion H; subst. cbn. repeat split; try reflexivity; contradiction. }
  destruct (GameState_value (state (game app)) =? 3).
  - inv_bind H. destruct a as [g1 rng1]. inversion H; subst. cbn.
    repeat split; try reflexivity; contradiction.
  - inversion H; subst. repeat split; try reflexivity; contradiction.
Qed.

Lemma keyboard_not_space cfg k app rng :
  Z.land k 255 <> 32 ->
  exists app', _handle_keyboard_input cfg k app rng = Ok (app', rng) /\
               game app' = game app /\
               pause_gesture_cooldown app' = pause_gesture_cooldown app.
Proof.
  intro Hk. unfold _handle_keyboard_input.
  destruct (Z.eqb_spec (Z.land k 255) 113).
  { eexists. split; [reflexivity |]. auto. }
  destruct (Z.eqb_spec (Z.land k 255) 32); [contradiction |].
  eexists. split; [reflexivity |]. auto.
Qed.

Lemma pause_then_step cfg fr app rng :
  is_fist fr = true ->
  pause_gesture_cooldown app <= 0 ->
  (state (game app) = PLAYING ->
   exists app',
     loop_body cfg fr app rng = Ok (app', rng) /\
     game app' = set_state PAUSED (game app) /\
     pause_gesture_cooldown app' = 29) /\
  (state (game app) = PAUSED ->
   Z.land (waitKey fr) 255 <> 32 ->
   forall app' rng',
     loop_body cfg fr app rng = Ok (app', rng') ->
     frame_count (game app') = frame_count (game app) + 1 /\
     pause_gesture_cooldown app' = 29).
Proof.
  intros Hf Hcd. rewrite loop_body_stages. cbn zeta.
  set (tracker := fst (detect_hand cfg (frame_w fr) (frame_h fr) (index_tip fr)
                                   (hand_tracker app))).
  pose proof (handle_pause_gesture_step (is_fist fr)
                (set_hand_tracker tracker app)) as Hstep.
  destruct (handle_pause_gesture (is_fist fr) (set_hand_tracker tracker app))
    as [app1 toggled].
  destruct Hstep as (_ & _ & Hon & Hoff). cbn [fst].
  assert (Htog : toggled = true).
  { destruct toggled; [reflexivity |].
    destruct (Hoff eq_refl) as (_ & [K | K] & _); cbn in K; [congruence | lia]. }
  destruct (Hon Htog) as (_ & _ & Hcd1 & Hg1). cbn [set_hand_tracker game] in Hg1.
  split.
  - intro Hs.
    assert (Hpaused : game app1 = set_state PAUSED (game app))
      by (rewrite Hg1; unfold toggle_pause; now rewrite Hs).
    assert (Hud : update_direction cfg (get_smoothed_position tracker) (game app1)
                  = game app1).
    { rewrite update_direction_recorded, Hpaused. unfold recorded_intent.
      cbn [state set_state snake].
      destruct (get_smoothed_position tracker); [| reflexivity].
      now destruct (snake (game app)). }
    rewrite Hud.
    assert (Hup : update cfg (game app1) rng = Ok (game app1, rng))
      by (unfold update; now rewrite Hpaused).
    rewrite Hup. cbn [bind].
    assert (Hsame : set_game (game app1) app1 = app1) by now destruct app1.
    rewrite Hsame. unfold _handle_keyboard_input.
    rewrite Hpaused. cbn [state set_state GameState_value].
    destruct (Z.land (waitKey fr) 255 =? 113).
    + eexists. split; [reflexivity |]. cbn. auto.
    + destruct (Z.land (waitKey fr) 255 =? 32); cbn;
        eexists; (split; [reflexivity |]); auto.
  - intros Hs Hkey app' rng' H. inv_bind H. destruct a as [g2 rng2].
    apply keyboard_keeps in H. destruct H as (Hcd' & _ & Hgame).
    destruct (Hgame Hkey) as [Hg' _]. cbn in Hcd', Hg'.
    rewrite Hcd', Hg'. split; [| exact Hcd1].
    assert (Hplaying : game app1 = set_state PLAYING (game app))
      by (rewrite Hg1; unfold toggle_pause; now rewrite Hs).
    apply update_cases, update_case_counters in Hc.
    destruct (update_direction_fields cfg (get_smoothed_position tracker)
                                      (game app1)) as (_ & _ & _ & _ & _ & Hst).
    destruct Hc as [[[_ Hno] | [Hfc _]] _].
    + exfalso. apply Hno. rewrite Hst, Hplaying. reflexivity.
    + rewrite Hfc, update_direction_recorded.
      destruct (recorded_intent _ _ _ _); rewrite Hplaying; reflexivity.
Qed.

(** The game a pass of the loop hands to [update] when its fist resumes
    a game PAUSED: resumed, with the intent of the smoothed position. *)
Lemma resumed_pass cfg fr app rng :
  is_fist fr = true ->
  pause_gesture_cooldown app <= 0 ->
  state (game app) = PAUSED ->
  loop_body cfg fr app rng =
  ('(g, rng') <-
     update cfg
       (update_direction cfg
          (get_smoothed_position
             (fst (detect_hand cfg (frame_w fr) (frame_h fr) (index_tip fr)
                               (hand_tracker app))))
          (toggle_pause (game app))) rng ;;
   _handle_keyboard_input cfg (waitKey fr)
     (mkSnakeGameApp g
        (fst (detect_hand cfg (frame_w fr) (frame_h fr) (index_tip fr)
                          (hand_tracker app)))
        (running app) 29) rng').
Proof.
  intros Hf Hcd Hs. rewrite loop_body_stages. cbn zeta.
  unfold handle_pause_gesture. rewrite Hf. cbn [andb set_hand_tracker
    pause_gesture_cooldown].
  destruct (Z.leb_spec (pause_gesture_cooldown app) 0); [| lia].
  cbn. reflexivity.
Qed.

(** X17: the pause gesture acts before the step.  On a frame with a
    fist and no cooldown pending, a game PLAYING is PAUSED by the pass
    and is otherwise exactly as it was: the snake has not moved.  A game
    PAUSED is resumed and stepped in that same pass: unless the space
    bar is down the pass returns, on every game with a snake and a grid
    and given a free cell from the draws when the food is eaten, with
    the frame counter one up, the state PLAYING or GAME_OVER, and the
    snake moved or grown exactly as [update] moves the resumed game. *)
Theorem pause_takes_effect_before_step cfg fr app rng :
  is_fist fr = true ->
  pause_gesture_cooldown app <= 0 ->
  ((state (game app) = PLAYING ->
    exists app',
      loop_body cfg fr app rng = Ok (app', rng) /\
      game app' = set_state PAUSED (game app) /\
      pause_gesture_cooldown app' = 29) /\
   (state (game app) = PAUSED ->
    Z.land (waitKey fr) 255 <> 32 ->
    forall app' rng',
      loop_body cfg fr app rng = Ok (app', rng') ->
      frame_count (game app') = frame_count (game app) + 1 /\
      pause_gesture_cooldown app' = 29)) /\
  (state (game app) = PLAYING ->
   exists app',
     loop_body cfg fr app rng = Ok (app', rng) /\
     state (game app') = PAUSED /\
     snake (game app') = snake (game app) /\
     frame_count (game app') = frame_count (game app) /\
     score (game app') = score (game app) /\
     direction (game app') = direction (game app)) /\
  (state (game app) = PAUSED ->
   Z.land (waitKey fr) 255 <> 32 ->
   forall head tl,
     snake (game app) = head :: tl ->
     GRID_SIZE cfg <> 0 ->
     let resumed :=
       update_direction cfg
         (get_smoothed_position
            (fst (detect_hand cfg (frame_w fr) (frame_h fr) (index_tip fr)
                              (hand_tracker app))))
         (toggle_pause (game app)) in
     (eats_food cfg resumed = true ->
      offers_free_cell cfg (target resumed head :: snake (game app)) rng) ->
     state resumed = PLAYING /\
     exists app' rng' g',
       loop_body cfg fr app rng = Ok (app', rng') /\
       update cfg resumed rng = Ok (g', rng') /\
       game app' = g' /\
       frame_count (game app') = frame_count (game app) + 1 /\
       (state (game app') = PLAYING \/ state (game app') = GAME_OVER) /\
       (state (game app') = PLAYING ->
        hd_error (snake (game app')) = Some (target resumed head)) /\
       pause_gesture_cooldown app' = 29).
Proof.
  intros Hf Hcd.
  pose proof (pause_then_step cfg fr app rng Hf Hcd) as [Hpause Hresume].
  split; [split; assumption |]. split.
  - intro Hs. destruct (Hpause Hs) as (app' & Hbody & Hg & _).
    exists app'. split; [exact Hbody |]. rewrite Hg. cbn. auto.
  - intros Hs Hkey head tl Hsn Hgrid resumed Hfree.
    assert (Htoggle : toggle_pause (game app) = set_state PLAYING (game app))
      by (unfold toggle_pause; now rewrite Hs).
    destruct (update_direction_fields cfg
                (get_smoothed_position
                   (fst (detect_hand cfg (frame_w fr) (frame_h fr) (index_tip fr)
                                     (hand_tracker app))))
                (toggle_pause (game app)))
      as (Hsnake & _ & _ & _ & _ & Hstate).
    fold resumed in Hsnake, Hstate. rewrite Htoggle in Hsnake, Hstate.
    cbn [snake state set_state] in Hsnake, Hstate.
    split; [exact Hstate |].
    destruct (update_returns cfg resumed rng head tl) as (g' & rng' & Hup);
      [congruence | exact Hgrid | now rewrite Hsnake |].
    destruct (keyboard_not_space cfg (waitKey fr)
                (mkSnakeGameApp g'
                   (fst (detect_hand cfg (frame_w fr) (frame_h fr) (index_tip fr)
                                     (hand_tracker app)))
                   (running app) 29) rng' Hkey)
      as (app' & Hkbd & Hgame & Hcool).
    cbn [game pause_gesture_cooldown] in Hgame, Hcool.
    exists app', rng', g'. split.
    { rewrite (resumed_pass cfg fr app rng Hf Hcd Hs). fold resumed.
      rewrite Hup. cbn [bind]. exact Hkbd. }
    split; [exact Hup |]. split; [exact Hgame |]. rewrite Hgame.
    pose proof Hup as Hcase. apply update_cases in Hcase.
    pose proof (update_case_counters _ _ _ _ _ Hcase) as [Hfc _].
    split.
    { destruct Hfc as [[_ Hno] | [-> _]]; [congruence |].
      unfold resumed. rewrite update_direction_recorded.
      destruct (recorded_intent _ _ _ _); rewrite Htoggle; reflexivity. }
    split; [| split; [| exact Hcool]].
    + destruct Hcase as [Hs' | head' tl' cols rows Hs' Hsn' Hd Hcol
                         | head' tl' cols rows c rng1 Hs' Hsn' Hd Hw Hi Hf' Hsp
                         | head' tl' cols rows Hs' Hsn' Hd Hw Hi Hf'].
      * congruence.
      * right. unfold _update_high_score. now destruct (_ >? _).
      * left. cbn. now rewrite state_advanced.
      * left. cbn. now rewrite state_advanced.
    + intro Hplay.
      destruct Hcase as [Hs' | head' tl' cols rows Hs' Hsn' Hd Hcol
                         | head' tl' cols rows c rng1 Hs' Hsn' Hd Hw Hi Hf' Hsp
                         | head' tl' cols rows Hs' Hsn' Hd Hw Hi Hf'].
      * congruence.
      * exfalso. revert Hplay. unfold _update_high_score.
        destruct (_ >? _); cbn; discriminate.
      * rewrite Hsnake, Hsn in Hsn'. inversion Hsn'; subst head' tl'.
        reflexivity.
      * rewrite Hsnake, Hsn in Hsn'. inversion Hsn'; subst head' tl'.
        cbn [set_snake snake]. rewrite Hsnake, Hsn. reflexivity.
Qed.

(** X18: gestures neither start nor restart a game.  Unless the space
    bar is down, a pass of the loop returns a game in MENU or in
    GAME_OVER exactly as it was, whatever the hand does, and so it
    does a game PAUSED on a frame without a fist or with cooldown
    pending. *)
Theorem gestures_do_not_start_games cfg fr app rng :
  Z.land (waitKey fr) 255 <> 32 ->
  state (game app) = MENU \/ state (game app) = GAME_OVER \/
  (state (game app) = PAUSED /\
   (is_fist fr = false \/ 0 < pause_gesture_cooldown app)) ->
  exists app',
    loop_body cfg fr app rng = Ok (app', rng) /\ game app' = game app.
Proof.
  intros Hkey Hidle. rewrite loop_body_stages. cbn zeta.
  set (tracker := fst (detect_hand cfg (frame_w fr) (frame_h fr) (index_tip fr)
                                   (hand_tracker app))).
  pose proof (handle_pause_gesture_step (is_fist fr)
                (set_hand_tracker tracker app)) as Hstep.
  destruct (handle_pause_gesture (is_fist fr) (set_hand_tracker tracker app))
    as [app1 toggled].
  destruct Hstep as (_ & _ & Hon & Hoff). cbn [fst].
  assert (Hg1 : game app1 = game app /\ state (game app) <> PLAYING).
  { destruct toggled.
    - destruct (Hon eq_refl) as (Hf & Hcd & _ & Hg). cbn in Hg, Hcd.
      rewrite Hg. unfold toggle_pause.
      destruct Hidle as [Hs | [Hs | [Hs [Hno | Hno]]]];
        try (rewrite Hs; split; [reflexivity | discriminate]);
        [congruence | lia].
    - destruct (Hoff eq_refl) as (Hg & _). cbn in Hg. split; [exact Hg |].
      destruct Hidle as [Hs | [Hs | [Hs _]]]; rewrite Hs; discriminate. }
  destruct Hg1 as [Hg1 Hidle']. apply GameState_eqb_neq in Hidle'.
  assert (Hud : update_direction cfg (get_smoothed_position tracker) (game app1)
                = game app).
  { rewrite update_direction_recorded, Hg1. unfold recorded_intent.
    rewrite Hidle'. destruct (get_smoothed_position tracker); [| reflexivity].
    now destruct (snake (game app)). }
  rewrite Hud. unfold update at 1. rewrite Hidle'. cbn [negb bind].
  destruct (keyboard_not_space cfg (waitKey fr) (set_game (game app) app1) rng Hkey)
    as (app' & Hk & Hgame & _).
  exists app'. split; [exact Hk | exact Hgame].
Qed.

(** ** The loop as a whole *)

Lemma loop_body_cooldown cfg fr app rng app' rng' :
  loop_body cfg fr app rng = Ok (app', rng') ->
  (0 <= pause_gesture_cooldown app -> 0 <= pause_gesture_cooldown app') /\
  (pause_gesture_cooldown app <= 29 -> pause_gesture_cooldown app' <= 29).
Proof.
  rewrite loop_body_stages. cbn zeta. intro H.
  inv_bind H. destruct a as [g2 rng2].
  apply keyboard_keeps in H. destruct H as (Hcd & _). cbn in Hcd. rewrite Hcd.
  match goal with
  | |- context [handle_pause_gesture ?f ?a] =>
      pose proof (handle_pause_gesture_step f a) as Hstep;
      destruct (handle_pause_gesture f a) as [app1 toggled]
  end.
  destruct Hstep as (_ & _ & Hon & Hoff). cbn [fst].
  destruct toggled.
  - destruct (Hon eq_refl) as (_ & _ & -> & _). lia.
  - destruct (Hoff eq_refl) as (_ & _ & ->). cbn.
    destruct (Z.ltb_spec 0 (pause_gesture_cooldown app)); lia.
Qed.

(** X19: the cooldown never leaves its range.  Over any run of the loop
    a cooldown that is not negative stays so, and one that is at most 29
    stays so; from the initial 0 it is always between 0 and 29 when a
    pass ends. *)
Theorem cooldown_stays_in_range cfg frames app rng :
  (0 <= pause_gesture_cooldown app ->
   0 <= pause_gesture_cooldown (fst (run cfg frames app rng))) /\
  (pause_gesture_cooldown app <= 29 ->
   pause_gesture_cooldown (fst (run cfg frames app rng)) <= 29).
Proof.
  revert app rng. induction frames as [| fr frames IH]; intros app rng.
  - cbn. auto.
  - cbn [run]. destruct (negb (running app)); [cbn; auto |].
    destruct (negb (ret fr)); [cbn; auto |].
    destruct (loop_body cfg fr app rng) as [[app' rng'] | e |] eqn:E;
      [| cbn; auto | cbn; auto].
    destruct (loop_body_cooldown _ _ _ _ _ _ E) as [Hlo Hhi].
    destruct (IH app' rng') as [IHlo IHhi]. split; auto.
Qed.

(** X20: a loop that has stopped stays stopped.  If [run] over some
    frames ends by a quit, a failed read, an exception or a food loop
    that does not return, the frames that follow are never looked at. *)
Theorem run_stops_for_good cfg frames more app rng :
  snd (run cfg frames app rng) <> Pending ->
  run cfg (frames ++ more) app rng = run cfg frames app rng.
Proof.
  revert app rng. induction frames as [| fr frames IH]; intros app rng Hstop.
  - cbn in Hstop. cbn [List.app run].
    destruct (running app) eqn:Hrun; [contradiction |].
    destruct more; cbn [run]; rewrite Hrun; reflexivity.
  - cbn [List.app run] in *. destruct (negb (running app)); [reflexivity |].
    destruct (negb (ret fr)); [reflexivity |].
    destruct (loop_body cfg fr app rng) as [[app' rng'] | e |];
      [| reflexivity | reflexivity].
    now apply IH.
Qed.

Lemma reachable_update_no_raise cfg g rng e :
  reachable cfg g -> update cfg g rng <> Raise e.
Proof.
  intros Hreach H.
  destruct (reachable_grid _ _ Hreach) as (cols & rows & Hd & Hc & Hr).
  pose proof (GRID_SIZE_nonzero _ _ _ Hd) as Hg.
  pose proof (reachable_length _ _ Hreach) as Hlen.
  destruct (snake g) as [| head tl] eqn:Hsn; [cbn in Hlen; lia |].
  destruct (eats_food cfg g) eqn:He.
  - rewrite (update_on_food cfg g rng head tl Hsn He) in H.
    unfold _spawn_food in H. rewrite Hd in H. cbn [bind] in H.
    destruct (spawn_loop _ cols rows _ rng) as [[c rng'] | e' |] eqn:E;
      cbn in H; try discriminate.
    exact (spawn_loop_no_raise _ _ _ _ _ _ Hc Hr E).
  - destruct (update_without_food cfg g rng head tl Hsn Hg He) as [g' K].
    congruence.
Qed.

Lemma reachable_reset_no_raise cfg g g0 rng e :
  reachable cfg g -> reset_game cfg g0 rng <> Raise e.
Proof.
  intros Hreach H.
  destruct (reachable_grid _ _ Hreach) as (cols & rows & Hd & Hc & Hr).
  unfold reset_game in H. rewrite Hd in H. cbn [bind] in H.
  unfold _spawn_food in H. rewrite Hd in H. cbn [bind] in H.
  destruct (spawn_loop _ cols rows _ rng) as [[c rng'] | e' |] eqn:E;
    cbn in H; try discriminate.
  exact (spawn_loop_no_raise _ _ _ _ _ _ Hc Hr E).
Qed.

Lemma handle_pause_gesture_reachable cfg is_fist app :
  reachable cfg (game app) ->
  reachable cfg (game (fst (handle_pause_gesture is_fist app))).
Proof.
  intro Hreach. pose proof (handle_pause_gesture_step is_fist app) as Hstep.
  destruct (handle_pause_gesture is_fist app) as [app1 toggled].
  destruct Hstep as (_ & _ & Hon & Hoff). cbn [fst]. destruct toggled.
  - destruct (Hon eq_refl) as (_ & _ & _ & ->).
    now apply (reachable_exec cfg (game app) TogglePause [] _ []).
  - destruct (Hoff eq_refl) as (-> & _). exact Hreach.
Qed.

Lemma keyboard_reachable cfg k app rng :
  reachable cfg (game app) ->
  match _handle_keyboard_input cfg k app rng with
  | Ok (app', _) => reachable cfg (game app')
  | Raise _ => False
  | Spin => True
  end.
Proof.
  intro Hreach. unfold _handle_keyboard_input.
  destruct (Z.land k 255 =? 113); [exact Hreach |].
  destruct (Z.land k 255 =? 32); [| exact Hreach].
  destruct (GameState_value (state (game app)) =? 0).
  { cbn. now apply (reachable_exec cfg (game app) Start [] _ []). }
  destruct (GameState_value (state (game app)) =? 3); [| exact Hreach].
  destruct (reset_game cfg (game app) rng) as [[g1 rng1] | e |] eqn:E; cbn.
  - apply (reachable_exec cfg g1 Start [] _ []); [| reflexivity].
    eapply reachable_reset. exact E.
  - exact (reachable_reset_no_raise _ _ _ _ _ Hreach E).
  - exact I.
Qed.

Lemma loop_body_reachable cfg fr app rng :
  reachable cfg (game app) ->
  match loop_body cfg fr app rng with
  | Ok (app', _) => reachable cfg (game app')
  | Raise _ => False
  | Spin => True
  end.
Proof.
  intro Hreach. rewrite loop_body_stages. cbn zeta.
  match goal with
  | |- context [handle_pause_gesture ?f ?a] =>
      pose proof (handle_pause_gesture_reachable cfg f a Hreach) as H1;
      set (app1 := fst (handle_pause_gesture f a)) in *
  end.
  match goal with
  | |- context [update_direction cfg ?h (game app1)] =>
      assert (H2 : reachable cfg (update_direction cfg h (game app1)))
        by (now apply (reachable_exec cfg (game app1) (UpdateDirection h) [] _ []));
      set (g1 := update_direction cfg h (game app1)) in *
  end.
  destruct (update cfg g1 rng) as [[g2 rng2] | e |] eqn:E; cbn [bind].
  - apply keyboard_reachable. cbn.
    now apply (reachable_exec cfg g1 Update rng g2 rng2).
  - exact (reachable_update_no_raise _ _ _ _ H2 E).
  - exact I.
Qed.

(** X21: the game logic never crashes the loop.  Started on a game
    reached from a [reset_game], [run] over any frames never ends by an
    exception, and the game it leaves is again such a game. *)
Theorem run_never_crashes cfg frames app rng :
  reachable cfg (game app) ->
  (forall e, snd (run cfg frames app rng) <> Crashed e) /\
  reachable cfg (game (fst (run cfg frames app rng))).
Proof.
  revert app rng. induction frames as [| fr frames IH]; intros app rng Hreach.
  - cbn. split; [| exact Hreach]. intro e. destruct (running app); discriminate.
  - cbn [run]. destruct (negb (running app)).
    { cbn. split; [discriminate | exact Hreach]. }
    destruct (negb (ret fr)).
    { cbn. split; [discriminate | exact Hreach]. }
    pose proof (loop_body_reachable cfg fr app rng Hreach) as Hbody.
    destruct (loop_body cfg fr app rng) as [[app' rng'] | e |].
    + now apply IH.
    + contradiction.
    + cbn. split; [discriminate | exact Hreach].
Qed.

(** * Cell rectangles *)

(** X22: for a positive [GRID_SIZE], the rectangle of a cell of the
    grid lies inside the window; a pixel it covers belongs to that cell
    alone, column and row being the pixel's coordinates divided by
    [GRID_SIZE]; and from a [GRID_SIZE] of 3 on the point that
    [update_direction] measures the hand from is a pixel of the head's
    rectangle. *)
Theorem cell_rects_tile_the_window cfg cols rows :
  get_grid_dimensions cfg = Ok (cols, rows) ->
  0 < GRID_SIZE cfg ->
  (forall col row,
      in_grid cols rows (col, row) ->
      rect_in_window (WINDOW_WIDTH cfg) (WINDOW_HEIGHT cfg)
                     (get_cell_rect cfg col row)) /\
  (forall col row px py,
      rect_covers (get_cell_rect cfg col row) px py ->
      px / GRID_SIZE cfg = col /\ py / GRID_SIZE cfg = row) /\
  (3 <= GRID_SIZE cfg ->
   forall col row,
     rect_covers (get_cell_rect cfg col row)
                 (fst (head_screen cfg (col, row)))
                 (snd (head_screen cfg (col, row)))).
Proof.
  intros Hd Hg. unfold get_grid_dimensions in Hd.
  destruct (Z.eqb_spec (GRID_SIZE cfg) 0); [lia |]. inversion Hd; subst.
  set (G := GRID_SIZE cfg) in *.
  pose proof (Z.mul_div_le (WINDOW_WIDTH cfg) G Hg) as HW.
  pose proof (Z.mul_div_le (WINDOW_HEIGHT cfg) G Hg) as HH.
  split; [| split].
  - intros col row [[Hc0 Hc1] [Hr0 Hr1]]. cbn [fst snd] in *.
    unfold rect_in_window, get_cell_rect. fold G. nia.
  - intros col row px py. unfold rect_covers, get_cell_rect. fold G.
    intros [Hx Hy]. split; symmetry.
    + apply Z.div_unique with (r := px - col * G); lia.
    + apply Z.div_unique with (r := py - row * G); lia.
  - intros HG col row. unfold rect_covers, get_cell_rect, head_screen. fold G.
    cbn [fst snd].
    assert (0 <= G / 2) by (apply Z.div_pos; lia).
    assert (G / 2 < G - 1) by (apply Z.div_lt_upper_bound; lia).
    lia.
Qed.

(** * The further theorems at work *)

Ltac reach_demo_fed :=
  apply (reachable_exec default_config demo_playing Update [3; 4] demo_fed []);
  [ apply (reachable_exec default_config demo_menu Start [3; 4] demo_playing [3; 4]);
    [ apply (reachable_reset default_config blank_game demo_draws demo_menu [3; 4]);
      reflexivity
    | reflexivity ]
  | reflexivity ].

Ltac reach_demo_playing :=
  apply (reachable_exec default_config demo_menu Start [3; 4] demo_playing [3; 4]);
  [ apply (reachable_reset default_config blank_game demo_draws demo_menu [3; 4]);
    reflexivity
  | reflexivity ].

Lemma snake_cells_distinct_witness : NoDup (snake demo_fed).
Proof. apply (snake_cells_distinct default_config demo_fed). reach_demo_fed. Defined.

Lemma snake_cells_connected_witness : connected (snake demo_fed).
Proof. apply (snake_cells_connected default_config demo_fed). reach_demo_fed. Defined.

Lemma food_and_snake_on_grid_witness :
  in_grid 40 30 (food demo_fed) /\ Forall (in_grid 40 30) (snake demo_fed).
Proof.
  destruct (proj1 (food_and_snake_on_grid default_config 40 30 eq_refl) demo_fed)
    as (Hfood & _ & Hall).
  - reach_demo_fed.
  - split; [exact Hfood | apply Hall; lia].
Defined.

Lemma update_never_raises_witness :
  update default_config demo_fed [] <> Raise IndexError /\
  exists g', update default_config demo_fed [] = Ok (g', []).
Proof.
  assert (Hreach : reachable default_config demo_fed) by reach_demo_fed.
  destruct (update_never_raises default_config demo_fed [] Hreach)
    as (Hno & _ & Hquiet).
  split; [apply Hno | apply Hquiet; reflexivity].
Defined.

Lemma progress_is_monotone_witness :
  (length (snake demo_playing) <= length (snake demo_fed))%nat /\
  frame_count demo_playing <= frame_count demo_fed /\
  score demo_playing <= score demo_fed.
Proof.
  destruct (proj1 (progress_is_monotone default_config)
                  Update demo_playing [3; 4] demo_fed [] eq_refl)
    as (Hlen & Hfc & Hsc).
  split; [exact Hlen |]. split; [exact Hfc |]. apply Hsc. cbn. lia.
Defined.

Lemma update_never_reverses_witness :
  direction demo_turned <> LEFT /\ direction demo_turned = UP.
Proof.
  destruct (update_never_reverses default_config (set_next_direction UP demo_fed)
              [] demo_turned [] eq_refl eq_refl) as (Hno & Hcommit & _).
  split; [exact Hno |]. apply Hcommit. cbn. discriminate.
Defined.

Lemma head_never_enters_neck_witness :
  (21, 15) = new_head (20, 15) RIGHT /\ target demo_fed (21, 15) <> (20, 15).
Proof.
  apply (head_never_enters_neck default_config demo_fed (21, 15) (20, 15)
           [(19, 15); (18, 15)]).
  - reach_demo_fed.
  - cbn. discriminate.
  - reflexivity.
Defined.

Lemma state_changes_by_transition_witness : transition Update PLAYING GAME_OVER.
Proof.
  apply (state_changes_by_transition default_config Update demo_edge []
           demo_over []).
  reflexivity.
Defined.

(** The first draw, (20, 15), is on the snake; the second is free. *)
Lemma spawn_food_is_first_free_draw_witness :
  in_grid 40 30 (21, 15) /\
  exists k,
    nth_error (draw_cells 40 30 [20; 15; 21; 15; 3; 4]) k = Some (21, 15) /\
    ~ In (21, 15) (snake demo_menu) /\
    Forall (fun c' => In c' (snake demo_menu))
           (firstn k (draw_cells 40 30 [20; 15; 21; 15; 3; 4])) /\
    [3; 4] = skipn (2 * S k) [20; 15; 21; 15; 3; 4].
Proof.
  pose proof (spawn_food_is_first_free_draw default_config 40 30 (snake demo_menu)
                [20; 15; 21; 15; 3; 4] eq_refl eq_refl eq_refl) as H.
  change (_spawn_food default_config (snake demo_menu) [20; 15; 21; 15; 3; 4])
    with (@Ok (Cell * list Z) ((21, 15), [3; 4])) in H.
  exact H.
Defined.

Lemma spawn_food_spins_on_full_grid_witness :
  _spawn_food tiny_config [(0, 0); (1, 0)] [0; 0; 1; 0; 5; 7] = Spin.
Proof.
  apply (spawn_food_spins_on_full_grid tiny_config 2 1).
  - reflexivity.
  - lia.
  - lia.
  - intros [x y] [[Hx0 Hx1] [Hy0 Hy1]]. cbn [fst snd] in *.
    assert (Hy : y = 0) by lia. subst y.
    assert (Hx : x = 0 \/ x = 1) by lia.
    destruct Hx as [-> | ->]; cbn; auto.
Defined.

(** Two tips outside the frame are pulled to its corners. *)
Lemma positions_stay_in_frame_witness : in_frame 640 480 (319, 239).
Proof.
  apply (proj1 (positions_stay_in_frame default_config 640 480
                  [Some (1000, -5); Some (-3, 700)] fresh_tracker
                  (Forall_nil _))).
  reflexivity.
Defined.

Lemma steady_hand_is_tracked_exactly_witness :
  get_smoothed_position
    (feed default_config 640 480 (repeat (Some (700, 100)) 5) busy_tracker)
  = Some (639, 100).
Proof.
  apply (steady_hand_is_tracked_exactly default_config 640 480 (700, 100) 5
           busy_tracker); cbn; lia.
Defined.

Lemma keys_start_restart_quit_witness :
  _handle_keyboard_input default_config (-1) demo_app [] = Ok (demo_app, []) /\
  (exists app',
      _handle_keyboard_input default_config 32 menu_app [] = Ok (app', []) /\
      state (game menu_app) = MENU /\ state (game app') = PLAYING) /\
  (exists app' rng',
      _handle_keyboard_input default_config 32 over_app [7; 7] = Ok (app', rng') /\
      state (game over_app) = GAME_OVER /\
      state (game app') = PLAYING /\
      score (game app') = 0 /\
      high_score (game app') = 10 /\
      snake (game app') = [(20, 15); (19, 15); (18, 15)]) /\
  (exists app',
      _handle_keyboard_input default_config 113 demo_app [] = Ok (app', []) /\
      running demo_app = true /\ running app' = false /\
      game app' = demo_playing).
Proof.
  split; [| split; [| split]].
  - apply (proj1 (proj2 (proj2 (proj1 (keys_start_restart_quit default_config (-1)
                                         demo_app []))))); vm_compute; discriminate.
  - destruct (proj1 (proj2 (keys_start_restart_quit default_config 32 menu_app []))
                    eq_refl eq_refl) as (app' & Hk & Hs & _).
    exists app'. split; [exact Hk |]. split; [reflexivity | exact Hs].
  - destruct (proj2 (proj1 (proj2 (proj2 (keys_start_restart_quit default_config 32
                                            over_app [7; 7]))) eq_refl eq_refl)
                    40 30 eq_refl)
      as (app' & rng' & Hk & Hs & Hsc & Hhs & Hsn).
    + exists 40, 30, (7, 7). repeat split; try reflexivity.
      * now left.
      * vm_compute. intuition discriminate.
    + exists app', rng'. split; [exact Hk |]. split; [reflexivity |].
      split; [exact Hs |]. split; [exact Hsc |]. split; [exact Hhs | exact Hsn].
  - destruct (proj2 (proj2 (proj2 (keys_start_restart_quit default_config 113
                                     demo_app []))) eq_refl)
      as (app' & Hk & Hrun & Hg & _).
    exists app'. split; [exact Hk |]. split; [reflexivity |].
    split; [exact Hrun | exact Hg].
Defined.

Lemma pause_takes_effect_before_step_witness :
  (exists app',
      loop_body default_config demo_frame demo_app [] = Ok (app', []) /\
      game app' = set_state PAUSED demo_playing /\
      pause_gesture_cooldown app' = 29) /\
  (exists app',
      loop_body default_config demo_frame demo_app [] = Ok (app', []) /\
      state (game demo_app) = PLAYING /\
      state (game app') = PAUSED /\
      snake (game app') = [(20, 15); (19, 15); (18, 15)] /\
      frame_count (game app') = 0) /\
  (exists app' rng',
      loop_body default_config demo_frame paused_app [] = Ok (app', rng') /\
      state (game paused_app) = PAUSED /\
      frame_count (game paused_app) = 1 /\
      frame_count (game app') = 2 /\
      state (game app') = PLAYING /\
      hd_error (snake (game app')) = Some (22, 15)).
Proof.
  split; [| split].
  - apply (proj1 (proj1 (pause_takes_effect_before_step default_config demo_frame
                           demo_app [] eq_refl ltac:(cbn; lia)))).
    reflexivity.
  - destruct (proj1 (proj2 (pause_takes_effect_before_step default_config
                              demo_frame demo_app [] eq_refl ltac:(cbn; lia)))
                    eq_refl)
      as (app' & Hbody & Hs & Hsn & Hfc & _).
    exists app'. split; [exact Hbody |]. split; [reflexivity |].
    split; [exact Hs |]. split; [exact Hsn | exact Hfc].
  - pose proof (proj2 (proj2 (pause_takes_effect_before_step default_config
                                demo_frame paused_app [] eq_refl
                                ltac:(cbn; lia)))
                      eq_refl ltac:(vm_compute; discriminate)
                      (21, 15) [(20, 15); (19, 15); (18, 15)] eq_refl
                      ltac:(vm_compute; discriminate)) as H.
    cbv zeta in H.
    destruct H as (_ & app' & rng' & g' & Hbody & Hup & Hg & Hfc & _ & Hhd & _).
    { intro He. vm_compute in He. discriminate. }
    assert (Hg' : g' = set_snake [(22, 15); (21, 15); (20, 15); (19, 15)]
                         (set_frame_count 2
                            (set_next_direction LEFT demo_fed))).
    { assert (E : Ok (g', rng') =
                  Ok (set_snake [(22, 15); (21, 15); (20, 15); (19, 15)]
                        (set_frame_count 2 (set_next_direction LEFT demo_fed)),
                      @nil Z))
        by (rewrite <- Hup; reflexivity).
      now inversion E. }
    exists app', rng'. split; [exact Hbody |]. split; [reflexivity |].
    split; [reflexivity |]. split; [exact Hfc |].
    assert (Hplay : state (game app') = PLAYING) by (rewrite Hg, Hg'; reflexivity).
    split; [exact Hplay | exact (Hhd Hplay)].
Defined.

Lemma gestures_do_not_start_games_witness :
  exists app',
    loop_body default_config demo_frame menu_app [] = Ok (app', []) /\
    game app' = demo_menu.
Proof.
  apply (gestures_do_not_start_games default_config demo_frame menu_app []).
  - vm_compute. discriminate.
  - left. reflexivity.
Defined.

Lemma cooldown_stays_in_range_witness :
  0 <= pause_gesture_cooldown
         (fst (run default_config [demo_frame; demo_frame] demo_app [3; 4])) <= 29.
Proof.
  split;
    apply (cooldown_stays_in_range default_config [demo_frame; demo_frame]
             demo_app [3; 4]); cbn; lia.
Defined.

Lemma run_stops_for_good_witness :
  run default_config ([quit_frame] ++ [demo_frame; demo_frame]) demo_app [3; 4]
  = run default_config [quit_frame] demo_app [3; 4].
Proof.
  apply (run_stops_for_good default_config [quit_frame] [demo_frame; demo_frame]
           demo_app [3; 4]).
  vm_compute. discriminate.
Defined.

Lemma run_never_crashes_witness :
  snd (run default_config [demo_frame; demo_frame; quit_frame] demo_app [3; 4])
  <> Crashed IndexError.
Proof.
  apply (proj1 (run_never_crashes default_config
                  [demo_frame; demo_frame; quit_frame] demo_app [3; 4]
                  ltac:(cbn; reach_demo_playing))).
Defined.

Lemma cell_rects_tile_the_window_witness :
  rect_in_window 800 600 (get_cell_rect default_config 39 29) /\
  rect_covers (get_cell_rect default_config 21 15) 430 310.
Proof.
  destruct (cell_rects_tile_the_window default_config 40 30 eq_refl
              ltac:(cbn; lia)) as (Hin & _ & Hcentre).
  split.
  - apply (Hin 39 29). unfold in_grid. cbn. lia.
  - apply (Hcentre ltac:(cbn; lia) 21 15).
Defined.

(** * Biting and drawing *)

Lemma last_In {A : Type} (l : list A) (d : A) : l <> [] -> In (last l d) l.
Proof.
  induction l as [| a l IH]; [contradiction |]. intros _.
  destruct l as [| b l]; [now left |].
  right. apply IH. discriminate.
Qed.

(** X23: biting any cell is fatal, and the cell the tail is about to
    leave still counts.  When the head of a game that is PLAYING moves
    onto any cell of the snake as it is before the move, the last one
    included, [update] returns with the game over and nothing moved:
    snake, score and food are as before. *)
Theorem entering_the_tail_cell_is_fatal cfg g rng head tl cols rows :
  state g = PLAYING ->
  snake g = head :: tl ->
  get_grid_dimensions cfg = Ok (cols, rows) ->
  (In (target g head) (snake g) ->
   exists g',
     update cfg g rng = Ok (g', rng) /\
     state g' = GAME_OVER /\ snake g' = snake g /\ score g' = score g /\
     food g' = food g) /\
  (target g head = last (snake g) head ->
   exists g',
     update cfg g rng = Ok (g', rng) /\
     state g' = GAME_OVER /\ snake g' = snake g /\ score g' = score g /\
     food g' = food g).
Proof.
  intros Hs Hsn Hd.
  assert (Hbite : In (target g head) (snake g) ->
                  exists g',
                    update cfg g rng = Ok (g', rng) /\
                    state g' = GAME_OVER /\ snake g' = snake g /\
                    score g' = score g /\ food g' = food g).
  { intro Hin. eexists. split.
    - apply update_case_sound. eapply case_collision; eauto.
    - unfold _update_high_score. destruct (_ >? _); cbn;
        rewrite snake_advanced, score_advanced, food_advanced; auto. }
  split; [exact Hbite |].
  intro Htail. apply Hbite. rewrite Htail. apply last_In.
  rewrite Hsn. discriminate.
Qed.

Lemma three_steps_never_close (t : Cell) (d2 d d' : Direction) :
  new_head (new_head (new_head t d2) d) d' <> t.
Proof.
  destruct t as [x y]. unfold new_head.
  destruct d2, d, d'; cbn; intro H; inversion H; lia.
Qed.

Lemma new_head_moves (c : Cell) (d : Direction) : new_head c d <> c.
Proof.
  destruct c as [x y]. unfold new_head.
  destruct d; cbn; intro H; inversion H; lia.
Qed.

(** X24: a snake of three cells cannot bite itself.  In a game reached
    from a [reset_game] that is PLAYING with its three initial cells,
    the cell the head moves to is never a cell of the snake, so an
    [update] that ends such a game has run into the wall. *)
Theorem short_snake_never_bites_itself cfg g head tl :
  reachable cfg g ->
  state g = PLAYING ->
  snake g = head :: tl ->
  length (snake g) = 3%nat ->
  ~ In (target g head) (snake g) /\
  (forall rng g' rng' cols rows,
      update cfg g rng = Ok (g', rng') ->
      state g' = GAME_OVER ->
      get_grid_dimensions cfg = Ok (cols, rows) ->
      ~ in_grid cols rows (target g head)).
Proof.
  intros Hreach Hs Hsn Hlen.
  assert (Hfree : ~ In (target g head) (snake g)).
  { rewrite Hsn in Hlen. destruct tl as [| n [| t [| x tl]]]; try discriminate.
    pose proof (reachable_neck cfg g Hreach ltac:(congruence) head n [t] Hsn)
      as Hh.
    pose proof (reachable_connected cfg g Hreach) as Hconn.
    rewrite Hsn in Hconn. destruct Hconn as (_ & [d2 Hn] & _).
    assert (Hdir : direction (advanced g) <> opposite (direction g)).
    { rewrite direction_advanced. destruct (Cell_eqb _ _) eqn:E.
      - apply opposite_irreflexive.
      - intro K. apply reverse_test in K. congruence. }
    rewrite Hsn. unfold target. intros [K | [K | [K | []]]].
    - symmetry in K. now apply new_head_moves in K.
    - rewrite Hh in K. symmetry in K. apply new_head_back in K.
      contradiction.
    - rewrite Hh, Hn in K. symmetry in K.
      now apply three_steps_never_close in K. }
  split; [exact Hfree |].
  intros rng g' rng' cols rows Hup Hover Hd. apply update_cases in Hup.
  destruct Hup as [Hs' | head' tl' cols' rows' Hs' Hsn' Hd' Hcol
                   | head' tl' cols' rows' c rng1 Hs' Hsn' Hd' Hw Hi Hf Hsp
                   | head' tl' cols' rows' Hs' Hsn' Hd' Hw Hi Hf].
  - congruence.
  - rewrite Hsn in Hsn'. inversion Hsn'; subst head' tl'.
    rewrite Hd in Hd'. inversion Hd'; subst cols' rows'.
    destruct Hcol as [Hw | Hin]; [| contradiction].
    intro K. apply hits_wall_in_grid in K. congruence.
  - cbn in Hover. rewrite state_advanced in Hover. congruence.
  - cbn in Hover. rewrite state_advanced in Hover. congruence.
Qed.

Lemma reachable_food_free cfg g : reachable cfg g -> ~ In (food g) (snake g).
Proof.
  induction 1 as [g0 rng g rng' Hr | g c rng g' rng' Hreach IH Hex].
  - apply reset_game_inv in Hr. destruct Hr as (cols & rows & c & _ & Hsp & ->).
    cbn [food snake]. eapply _spawn_food_free. eassumption.
  - destruct c;
      try (apply exec_keeps in Hex; [| discriminate];
           destruct Hex as (-> & -> & _); exact IH).
    cbn in Hex. apply update_cases in Hex.
    destruct Hex as [Hs | head tl cols rows Hs Hsn Hd Hcol
                     | head tl cols rows c rng' Hs Hsn Hd Hw Hi Hf Hsp
                     | head tl cols rows Hs Hsn Hd Hw Hi Hf].
    + exact IH.
    + unfold _update_high_score. destruct (_ >? _); cbn;
        now rewrite snake_advanced, food_advanced.
    + cbn [_increase_speed set_speed_multiplier set_food set_score set_snake
           food snake].
      eapply _spawn_food_free. eassumption.
    + cbn [set_snake snake food]. rewrite food_advanced.
      intro Hin. apply In_removelast in Hin. destruct Hin as [Hin | Hin];
        [now apply Hf | now apply IH].
Qed.

Lemma element_rect_in_window cfg cols rows c :
  get_grid_dimensions cfg = Ok (cols, rows) ->
  2 <= GRID_SIZE cfg ->
  in_grid cols rows c ->
  rect_in_window (WINDOW_WIDTH cfg) (WINDOW_HEIGHT cfg) (element_rect cfg c).
Proof.
  intros Hd Hg [[Hc0 Hc1] [Hr0 Hr1]]. unfold get_grid_dimensions in Hd.
  destruct (Z.eqb_spec (GRID_SIZE cfg) 0); [lia |]. inversion Hd; subst.
  set (G := GRID_SIZE cfg) in *.
  pose proof (Z.mul_div_le (WINDOW_WIDTH cfg) G ltac:(lia)) as HW.
  pose proof (Z.mul_div_le (WINDOW_HEIGHT cfg) G ltac:(lia)) as HH.
  unfold rect_in_window, element_rect. fold G. nia.
Qed.

Lemma element_rect_cell cfg c px py :
  0 < GRID_SIZE cfg ->
  rect_covers (element_rect cfg c) px py ->
  c = (px / GRID_SIZE cfg, py / GRID_SIZE cfg).
Proof.
  intros Hg. destruct c as [col row]. unfold rect_covers, element_rect.
  cbn [fst snd]. set (G := GRID_SIZE cfg) in *. intros [Hx Hy]. f_equal.
  - apply Z.div_unique with (r := px - col * G); lia.
  - apply Z.div_unique with (r := py - row * G); lia.
Qed.

Lemma draw_segments_rects cfg i segments :
  map snd (draw_segments cfg i segments) = map (element_rect cfg) segments.
Proof.
  revert i. induction segments as [| s rest IH]; intro i; [reflexivity |].
  cbn. now rewrite IH.
Qed.

Lemma draw_segments_colors cfg i segments :
  map fst (draw_segments cfg (S i) segments)
  = repeat COLOR_SNAKE (length segments).
Proof.
  revert i. induction segments as [| s rest IH]; intro i; [reflexivity |].
  cbn. now rewrite IH.
Qed.

(** X25: what [draw] paints of a game reached from a [reset_game], on a
    grid of four columns or more with cells of two pixels or more:
    nothing in MENU; else one rectangle per cell of the snake, the
    first in the head colour and the others in the snake colour, then
    the food; every rectangle lies inside the window, and the food
    shares no pixel with any segment of the snake. *)
Theorem game_elements_are_drawn_in_window cfg cols rows g :
  get_grid_dimensions cfg = Ok (cols, rows) ->
  4 <= cols ->
  2 <= GRID_SIZE cfg ->
  reachable cfg g ->
  (state g = MENU -> draw_game_elements cfg g = []) /\
  (state g <> MENU ->
   map fst (draw_game_elements cfg g)
   = COLOR_HEAD :: repeat COLOR_SNAKE (length (snake g) - 1) ++ [COLOR_FOOD]) /\
  Forall (fun d => rect_in_window (WINDOW_WIDTH cfg) (WINDOW_HEIGHT cfg) (snd d))
         (draw_game_elements cfg g) /\
  (forall d px py,
      In d (_draw_snake cfg g) ->
      rect_covers (snd d) px py ->
      ~ rect_covers (element_rect cfg (food g)) px py).
Proof.
  intros Hd H4 Hg Hreach.
  destruct (proj1 (on_grid_invariant cfg cols rows Hd) g Hreach)
    as (Hfood & _ & Hsnake).
  specialize (Hsnake H4).
  pose proof (reachable_length cfg g Hreach) as Hlen.
  split; [| split; [| split]].
  - intro Hs. unfold draw_game_elements. now rewrite Hs.
  - intro Hs. unfold draw_game_elements. apply GameState_eqb_neq in Hs.
    rewrite Hs. cbn [negb]. rewrite map_app. unfold _draw_snake, _draw_food.
    destruct (snake g) as [| head tl]; [cbn in Hlen; lia |].
    cbn [draw_segments Nat.eqb map length]. rewrite draw_segments_colors.
    replace (S (length tl) - 1)%nat with (length tl) by lia. reflexivity.
  - unfold draw_game_elements. destruct (negb _); [| constructor].
    apply Forall_app. split.
    + unfold _draw_snake. apply Forall_forall. intros d Hin.
      apply (in_map snd) in Hin. rewrite draw_segments_rects in Hin.
      apply in_map_iff in Hin. destruct Hin as (c & <- & Hc).
      apply (element_rect_in_window cfg cols rows c Hd Hg).
      rewrite Forall_forall in Hsnake. now apply Hsnake.
    + constructor; [| constructor]. cbn [snd].
      now apply (element_rect_in_window cfg cols rows).
  - intros d px py Hin Hcov Hcovf. unfold _draw_snake in Hin.
    apply (in_map snd) in Hin. rewrite draw_segments_rects in Hin.
    apply in_map_iff in Hin. destruct Hin as (c & Hc & Hcin).
    rewrite <- Hc in Hcov.
    apply element_rect_cell in Hcov; [| lia].
    apply element_rect_cell in Hcovf; [| lia].
    apply (reachable_food_free cfg g Hreach). congruence.
Qed.

(** X26: the history outlives missed detections and is emptied only by
    [reset_history].  Frames without a hand leave the history, and so
    the smoothed position, as they were; after [reset_history] there is
    no smoothed position, and the history built from then on is that of
    a tracker just made, whatever was held before. *)
Theorem history_survives_misses_until_reset cfg w h t :
  (forall k,
      position_history (feed cfg w h (repeat None k) t) = position_history t /\
      get_smoothed_position (feed cfg w h (repeat None k) t)
      = get_smoothed_position t) /\
  get_smoothed_position (reset_history t) = None /\
  (0 <= GESTURE_SMOOTHING_WINDOW cfg ->
   forall tips,
     position_history (feed cfg w h tips (reset_history t))
     = recent (Z.to_nat (GESTURE_SMOOTHING_WINDOW cfg)) (pushed w h tips)).
Proof.
  split; [| split].
  - intro k.
    assert (E : position_history (feed cfg w h (repeat None k) t)
                = position_history t).
    { revert t. induction k as [| k IH]; intro t; [reflexivity |].
      exact (IH (fst (detect_hand cfg w h None t))). }
    split; [exact E |]. unfold get_smoothed_position. now rewrite E.
  - reflexivity.
  - intros Hw tips. apply feed_history; [assumption | reflexivity].
Qed.

(** The head enters the tail cell of a snake of four, and the fourth
    cell of a snake of six. *)
Lemma entering_the_tail_cell_is_fatal_witness :
  (exists g',
      update default_config demo_loop [] = Ok (g', []) /\
      state g' = GAME_OVER /\ snake g' = snake demo_loop /\
      score g' = score demo_loop /\ food g' = food demo_loop) /\
  target demo_coil (20, 14) = (20, 15) /\
  last (snake demo_coil) (20, 14) = (19, 14) /\
  (exists g',
      update default_config demo_coil [] = Ok (g', []) /\
      state g' = GAME_OVER /\ snake g' = snake demo_coil /\
      score g' = score demo_coil /\ food g' = food demo_coil).
Proof.
  split; [| split; [reflexivity | split; [reflexivity |]]].
  - apply (proj2 (entering_the_tail_cell_is_fatal default_config demo_loop []
                    (20, 14) [(21, 14); (21, 15); (20, 15)] 40 30
                    eq_refl eq_refl eq_refl)).
    reflexivity.
  - apply (proj1 (entering_the_tail_cell_is_fatal default_config demo_coil []
                    (20, 14) [(21, 14); (21, 15); (20, 15); (19, 15); (19, 14)]
                    40 30 eq_refl eq_refl eq_refl)).
    vm_compute. auto 10.
Defined.

Lemma short_snake_never_bites_itself_witness :
  ~ In (target demo_playing (20, 15)) (snake demo_playing).
Proof.
  apply (short_snake_never_bites_itself default_config demo_playing (20, 15)
           [(19, 15); (18, 15)]).
  - reach_demo_playing.
  - reflexivity.
  - reflexivity.
  - reflexivity.
Defined.

Lemma game_elements_are_drawn_in_window_witness :
  Forall (fun d => rect_in_window 800 600 (snd d))
         (draw_game_elements default_config demo_fed) /\
  map fst (draw_game_elements default_config demo_fed)
  = [COLOR_HEAD; COLOR_SNAKE; COLOR_SNAKE; COLOR_SNAKE; COLOR_FOOD].
Proof.
  destruct (game_elements_are_drawn_in_window default_config 40 30 demo_fed
              eq_refl ltac:(lia) ltac:(cbn; lia) ltac:(reach_demo_fed))
    as (_ & Hcol & Hwin & _).
  split; [exact Hwin |]. apply Hcol. cbn. discriminate.
Defined.

Lemma history_survives_misses_until_reset_witness :
  position_history
    (feed default_config 640 480 [Some (7, 7); None; Some (9, 9)]
          (reset_history busy_tracker))
  = [(7, 7); (9, 9)].
Proof.
  apply (proj2 (proj2 (history_survives_misses_until_reset default_config 640 480
                         busy_tracker))).
  cbn. lia.
Defined.

(** An earlier hand asks for DOWN; a later hand on the head's centre
    leaves DOWN pending, a later hand 31 pixels to the left asks for
    LEFT instead. *)
Lemma later_intent_wins_witness :
  next_direction demo_fed = RIGHT /\
  next_direction (update_direction default_config (Some (461, 341)) demo_fed)
  = DOWN /\
  next_direction
    (update_direction default_config (Some (430, 310))
       (update_direction default_config (Some (461, 341)) demo_fed)) = DOWN /\
  next_direction
    (update_direction default_config (Some (399, 310))
       (update_direction default_config (Some (461, 341)) demo_fed)) = LEFT.
Proof.
  split; [reflexivity |]. split; [reflexivity |]. split.
  - destruct (later_intent_wins default_config (Some (461, 341))
                (Some (430, 310)) demo_fed) as (_ & _ & _ & H & _).
    specialize (H (430, 310) (21, 15) [(20, 15); (19, 15); (18, 15)]
                  eq_refl eq_refl eq_refl).
    cbv zeta in H. destruct H as (Hband & _).
    destruct Hband as (_ & ->); [vm_compute; congruence | reflexivity].
  - destruct (later_intent_wins default_config (Some (461, 341))
                (Some (399, 310)) demo_fed) as (_ & _ & _ & H & _).
    specialize (H (399, 310) (21, 15) [(20, 15); (19, 15); (18, 15)]
                  eq_refl eq_refl eq_refl).
    cbv zeta in H. destruct H as (_ & Hout).
    apply Hout; vm_compute; congruence.
Defined.
